(** * ai-analyzer.js: a shallow embedding and its verified properties

    The script `.github/scripts/ai-analyzer.js` reads test-run metadata,
    computes a pass-rate delta (single mode) or window statistics (trend
    mode), renders a prompt, calls a text-generation endpoint and writes the
    answer to disk.

    Modelling conventions
    - A JavaScript number is the exact value of a double, a rational ([Q]),
      or an integer ([Z]) where the script only has integers.  Arithmetic
      rounds to the nearest double ([JS.round64]); infinities and [NaN]
      are written out where the script can meet them ([option]).
    - JavaScript strings are [string]s.
    - A field that the script reads through [x || d] is an [option]; the
      operator is [or_default] below.
    - The file system, the environment, the clock and the remote endpoint are
      read from an explicit [World]; what the script does to the outside is
      recorded as a list of [Event]s. *)

From Stdlib Require Import List ZArith QArith Qround Qabs Qpower Lia Psatz Bool.
From Stdlib Require Import Strings.String Strings.Ascii Numbers.DecimalString.
From Stdlib Require Import Numbers.DecimalPos.
From Stdlib Require Import Sorting.Permutation Sorting.Sorted.
From Stdlib Require Import Reals Qreals.
From Stdlib Require Qcanon.
Import ListNotations.

Local Open Scope string_scope.
Local Open Scope Z_scope.

(* ================================================================== *)
(** ** JavaScript primitives used by the script *)

Module JS.

(** [x || d] on a field that is either absent or holds a value; [falsy]
    tells which present values are falsy ([0], [""]). *)
Definition or_default {A} (falsy : A -> bool) (x : option A) (d : A) : A :=
  match x with
  | Some v => if falsy v then d else v
  | None => d
  end.

Definition falsyQ (q : Q) : bool := Qeq_bool q 0%Q.
Definition falsyZ (z : Z) : bool := Z.eqb z 0.
Definition falsyS (s : string) : bool := String.eqb s "".

(** Truthiness of an optional string ([!s] is its negation). *)
Definition truthy (s : option string) : bool :=
  match s with
  | Some v => negb (falsyS v)
  | None => false
  end.

Definition Qltb (a b : Q) : bool := negb (Qle_bool b a).

(** [Array.prototype.sort(comparefn)].  ECMAScript fixes the result for a
    consistent comparator (ascending, stable) and leaves the algorithm
    open; a stable insertion sort computes that result.  [comparefn a b]
    negative puts [a] before [b]. *)
Fixpoint insert {A} (comparefn : A -> A -> Q) (x : A) (l : list A) : list A :=
  match l with
  | [] => [x]
  | y :: l' =>
      if Qltb (comparefn x y) 0 then x :: l else y :: insert comparefn x l'
  end.

Definition sort {A} (comparefn : A -> A -> Q) (l : list A) : list A :=
  fold_left (fun acc x => insert comparefn x acc) l [].

(** Code-unit comparison of strings, as a number: the default order of
    [sort()], and [localeCompare] on the digits-and-hyphen timestamps the
    producers write. *)
Definition compareStrings (a b : string) : Q :=
  match String.compare a b with
  | Lt => (-1)%Q
  | Eq => 0%Q
  | Gt => 1%Q
  end.

Definition localeCompare := compareStrings.

(** [Array.prototype.indexOf] on strings; [-1] when absent. *)
Fixpoint indexOfFrom (i : Z) (x : string) (l : list string) : Z :=
  match l with
  | [] => -1
  | y :: l' => if String.eqb y x then i else indexOfFrom (i + 1) x l'
  end.

Definition indexOf (l : list string) (x : string) : Z := indexOfFrom 0 x l.

(** [a[i]]: [None] is [undefined]. *)
Definition index {A} (l : list A) (i : Z) : option A :=
  if i <? 0 then None else nth_error l (Z.to_nat i).

(** [ToString] of an integral number. *)
Definition stringOfZ (z : Z) : string :=
  NilEmpty.string_of_int (Z.to_int z).

(** [Number.prototype.toFixed(1)]: the sign, then the integer [n] with
    [n / 10] closest to the magnitude (the larger [n] on a tie), printed
    with one digit after the point.  (Magnitudes of 1e21 and more, which
    JavaScript prints in exponent form, do not occur among percentages.) *)
Definition tenths (n : Z) : string :=
  stringOfZ (n / 10) ++ "." ++ stringOfZ (n mod 10).

Definition toFixed1 (x : Q) : string :=
  if Qltb x 0
  then "-" ++ tenths (Qfloor ((- x) * 10 + (1 # 2))%Q)
  else tenths (Qfloor (x * 10 + (1 # 2))%Q).

(** [Math.max(...l)] and [Math.min(...l)]; [None] stands for the infinity
    that the empty argument list gives. *)
Definition max2 (a b : Q) : Q := if Qltb a b then b else a.
Definition min2 (a b : Q) : Q := if Qltb b a then b else a.

Definition Math_max (l : list Q) : option Q :=
  match l with
  | [] => None
  | x :: xs => Some (fold_left max2 xs x)
  end.

Definition Math_min (l : list Q) : option Q :=
  match l with
  | [] => None
  | x :: xs => Some (fold_left min2 xs x)
  end.

Definition nl : string := String (ascii_of_nat 10) "".

(** [l.join(sep)] *)
Fixpoint join (sep : string) (l : list string) : string :=
  match l with
  | [] => ""
  | [x] => x
  | x :: l' => x ++ sep ++ join sep l'
  end.

(** [s.substr(start, len)] *)
Definition substr (s : string) (start len : nat) : string :=
  String.substring start len s.

(** [dropPrefix p s] is [Some rest] when [s = p ++ rest]. *)
Fixpoint dropPrefix (p s : string) : option string :=
  match p, s with
  | EmptyString, _ => Some s
  | String a p', String b s' =>
      if Ascii.eqb a b then dropPrefix p' s' else None
  | String _ _, EmptyString => None
  end.

(** The leftmost occurrence of [search] in [s]: the text before it and the
    text after it. *)
Fixpoint splitAtFirst (search s : string) : option (string * string) :=
  match dropPrefix search s with
  | Some following => Some ("", following)
  | None =>
      match s with
      | EmptyString => None
      | String c s' =>
          match splitAtFirst search s' with
          | Some (preceding, following) => Some (String c preceding, following)
          | None => None
          end
      end
  end.

(** GetSubstitution for a string pattern (no captures): [$$], [$&], [$`]
    and [$'] are expanded, any other text is copied. *)
Fixpoint getSubstitution (matched preceding following template : string)
  : string :=
  match template with
  | EmptyString => ""
  | String c t' =>
      if Ascii.eqb c "$" then
        match t' with
        | EmptyString => "$"
        | String d rest =>
            if Ascii.eqb d "$" then
              "$" ++ getSubstitution matched preceding following rest
            else if Ascii.eqb d "&" then
              matched ++ getSubstitution matched preceding following rest
            else if Ascii.eqb d "`" then
              preceding ++ getSubstitution matched preceding following rest
            else if Ascii.eqb d "'" then
              following ++ getSubstitution matched preceding following rest
            else
              String c (getSubstitution matched preceding following t')
        end
      else String c (getSubstitution matched preceding following t')
  end.

(** [s.replace(search, value)] with a string pattern. *)
Definition replace (s search value : string) : string :=
  match splitAtFirst search s with
  | None => s
  | Some (preceding, following) =>
      preceding ++ getSubstitution search preceding following value
        ++ following
  end.

(** [args[i].replace(/^--/, '')] *)
Definition stripDashes (s : string) : string :=
  match dropPrefix "--" s with
  | Some rest => rest
  | None => s
  end.

(** Decimal and hexadecimal digits. *)
Definition digitValue (c : ascii) : option Z :=
  let n := Z.of_nat (nat_of_ascii c) in
  if (48 <=? n) && (n <=? 57) then Some (n - 48)
  else if (97 <=? n) && (n <=? 102) then Some (n - 87)
  else if (65 <=? n) && (n <=? 70) then Some (n - 55)
  else None.

(** The value of the longest prefix of [s] made of digits of [radix],
    continuing from [acc]; [seen] tells whether a digit was read. *)
Fixpoint readDigits (radix : Z) (s : string) (seen : bool) (acc : Z)
  : option Z :=
  match s with
  | EmptyString => if seen then Some acc else None
  | String c s' =>
      match digitValue c with
      | Some d =>
          if d <? radix then readDigits radix s' true (acc * radix + d)
          else if seen then Some acc else None
      | None => if seen then Some acc else None
      end
  end.

Definition isWhiteSpace (c : ascii) : bool :=
  let n := nat_of_ascii c in
  (Nat.eqb n 32 || ((9 <=? n) && (n <=? 13))%nat)%bool.

Fixpoint trimStart (s : string) : string :=
  match s with
  | String c s' => if isWhiteSpace c then trimStart s' else s
  | EmptyString => s
  end.

Definition readUnsigned (s : string) : option Z :=
  match s with
  | String "0" (String x rest) =>
      if Ascii.eqb x "x" || Ascii.eqb x "X"
      then readDigits 16 rest false 0
      else readDigits 10 s false 0
  | _ => readDigits 10 s false 0
  end.

(** All characters are decimal digits; then the number they spell. *)
Fixpoint readAllDigits (s : string) (acc : Z) : option Z :=
  match s with
  | EmptyString => Some acc
  | String c s' =>
      let n := Z.of_nat (nat_of_ascii c) in
      if (48 <=? n) && (n <=? 57) then readAllDigits s' (acc * 10 + (n - 48))
      else None
  end.

(** *** Binary64 arithmetic

    A number is the exact value of a double.  Every arithmetic operation of
    the script gives the double nearest to the exact result, ties to the
    even significand.  Results of magnitude 2^1024 and more, where binary64
    gives an infinity, are outside the model. *)

(** [floor (log2 |q|)] for [q <> 0]. *)
Definition ilog2 (q : Q) : Z :=
  let c := Z.log2 (Z.abs (Qnum q)) - Z.log2 (Z.pos (Qden q)) in
  if Qle_bool (2 ^ c) (Qabs q) then c else c - 1.

(** The nearest integer, the even one on a tie. *)
Definition roundHalfEven (x : Q) : Z :=
  let f := Qfloor x in
  match (x - inject_Z f ?= 1 # 2)%Q with
  | Lt => f
  | Gt => f + 1
  | Eq => if Z.even f then f else f + 1
  end.

(** The double nearest to [q]: a significand of 53 bits at the exponent of
    [q], or at the least exponent -1074 for the subnormal numbers. *)
Definition round64 (q : Q) : Q :=
  if Qeq_bool q 0 then 0%Q
  else
    let e := Z.max (ilog2 q - 52) (-1074) in
    Qred (inject_Z (roundHalfEven (q / 2 ^ e)) * 2 ^ e).

(** [a + b], [a - b], [a / b] on numbers. *)
Definition add (a b : Q) : Q := round64 (a + b).
Definition sub (a b : Q) : Q := round64 (a - b).
Definition div (a b : Q) : Q := round64 (a / b).

(** [Math.pow(x, 2)]: ECMAScript leaves the accuracy of [Math.pow] to the
    implementation; the square is taken here as the product [x * x], which
    is what V8 computes for the exponent 2. *)
Definition pow2 (x : Q) : Q := round64 (x * x).

(** [Math.sqrt(q)] for [q >= 0]: the double nearest to the square root.
    The integer part [m] of the scaled root is an integer square root; the
    comparison of the scaled argument with [(m + 1/2)^2] decides the
    rounding.  The script takes the root of a variance, which is never
    negative ([variance_nonneg] below). *)
Definition Math_sqrt (q : Q) : Q :=
  if Qle_bool q 0 then 0%Q
  else
    let e := Z.max (ilog2 q / 2 - 52) (-1074) in
    let y := (q / 2 ^ (2 * e))%Q in
    let m := Z.sqrt (Qfloor y) in
    let half := (inject_Z m + (1 # 2))%Q in
    let m' := match (y ?= half * half)%Q with
              | Lt => m
              | Gt => m + 1
              | Eq => if Z.even m then m else m + 1
              end in
    Qred (inject_Z m' * 2 ^ e).

(** The integer that is the double nearest to the integer [n]. *)
Definition toDouble (n : Z) : Z := Qfloor (round64 (inject_Z n)).

(** [a * b] and [a - b] on integers. *)
Definition mulZ (a b : Z) : Z := toDouble (a * b).
Definition subZ (a b : Z) : Z := toDouble (a - b).

(** [parseInt(s)]: the number nearest to the integer that the digits
    spell; [None] is [NaN].  An absent argument reads as the string
    ["undefined"], which has no digits. *)
Definition parseInt (s : option string) : option Z :=
  match s with
  | None => None
  | Some str =>
      option_map toDouble
        match trimStart str with
        | String "-" rest => option_map Z.opp (readUnsigned rest)
        | String "+" rest => readUnsigned rest
        | t => readUnsigned t
        end
  end.

(** [Number.MAX_SAFE_INTEGER] *)
Definition maxSafeInteger : Z := 9007199254740991.

(** [new Date(t)]: the time value [t], or the Invalid Date ([None]) when
    [t] is more than 8.64e15 milliseconds away from the epoch. *)
Definition maxTime : Z := 8640000000000000.

Definition timeClip (t : Z) : option Z :=
  if Z.abs t <=? maxTime then Some t else None.

(** Days from 1970-01-01 to the given civil date (proleptic Gregorian). *)
Definition daysFromCivil (y m d : Z) : Z :=
  let y' := if m <=? 2 then y - 1 else y in
  let era := y' / 400 in
  let yoe := y' - era * 400 in
  let mp := if m <=? 2 then m + 9 else m - 3 in
  let doy := (153 * mp + 2) / 5 + d - 1 in
  let doe := yoe * 365 + yoe / 4 - yoe / 100 + doy in
  era * 146097 + doe - 719468.

Definition msPerDay : Z := 24 * 60 * 60 * 1000.

(** [new Date("YYYY-MM-DD").getTime()]: midnight UTC of that day, in
    milliseconds; [None] is the Invalid Date.  Node accepts days up to 31
    in every month and lets them run into the next one.  The first eight
    characters of a report's timestamp, [YYYYMMDD], give a string of this
    shape; other strings, which Node hands to its legacy date parser, are
    taken to be invalid. *)
Definition Date_parse (s : string) : option Z :=
  if negb (String.length s =? 10)%nat then None
  else if negb (String.eqb (substr s 4 1) "-" && String.eqb (substr s 7 1) "-")
  then None
  else
    match readAllDigits (substr s 0 4) 0,
          readAllDigits (substr s 5 2) 0,
          readAllDigits (substr s 8 2) 0 with
    | Some y, Some m, Some d =>
        if (1 <=? m) && (m <=? 12) && (1 <=? d) && (d <=? 31)
        then Some (daysFromCivil y m d * msPerDay)
        else None
    | _, _, _ => None
    end.

End JS.

(* ================================================================== *)
(** ** Metadata records *)

(** One [metadata.json] object.  [timestamp] is the sortable
    [YYYYMMDD-HHMMSS] string; the other fields may be absent.  A number is
    the exact value of the double that [JSON.parse] gives. *)
Record Metadata := mkMetadata {
  timestamp : string;
  run_number : option string;
  branch : option string;
  status : option string;
  total_tests : option Z;
  passed : option Z;
  failed : option Z;
  pass_rate : option Q;
  failed_tests : option (list string)
}.

(** [r.pass_rate || 0] *)
Definition passRateOf (r : Metadata) : Q :=
  JS.or_default JS.falsyQ (pass_rate r) 0%Q.

(* ================================================================== *)
(** ** Trend statistics (analyzeTrend, "Calculate statistics") *)

Module Stats.

Definition passRates (recentReports : list Metadata) : list Q :=
  map passRateOf recentReports.

Definition lengthQ {A} (l : list A) : Q := inject_Z (Z.of_nat (List.length l)).

(** [passRates.reduce((a, b) => a + b, 0) / passRates.length] *)
Definition avgPassRate (passRates : list Q) : Q :=
  JS.div (fold_left JS.add passRates 0%Q) (lengthQ passRates).

(** The comparator [(a, b) => a - b].  Only its sign is used, and the
    rounded difference of two doubles has the sign of the exact one. *)
Definition ascending (a b : Q) : Q := (a - b)%Q.

Definition sortedRates (passRates : list Q) : list Q :=
  JS.sort ascending passRates.

(** [sortedRates[Math.floor(sortedRates.length / 2)]] *)
Definition medianPassRate (passRates : list Q) : option Q :=
  let sorted := sortedRates passRates in
  JS.index sorted (Z.of_nat (List.length sorted) / 2).

Definition maxPassRate := JS.Math_max.
Definition minPassRate := JS.Math_min.

(** [recentReports.find(r => (r.pass_rate || 0) === m)] *)
Definition findByRate (recentReports : list Metadata) (m : option Q)
  : option Metadata :=
  match m with
  | Some v => find (fun r => Qeq_bool (passRateOf r) v) recentReports
  | None => None
  end.

Definition variance (passRates : list Q) : Q :=
  let avg := avgPassRate passRates in
  JS.div
    (fold_left (fun sum rate => JS.add sum (JS.pow2 (JS.sub rate avg)))
       passRates 0%Q)
    (lengthQ passRates).

Definition stdDev (passRates : list Q) : Q := JS.Math_sqrt (variance passRates).

End Stats.

(* ================================================================== *)
(** ** Trend window (analyzeTrend, "Filter by period") *)

Module Window.

(** [parseInt(period) || 30] *)
Definition periodDays (period : option string) : Z :=
  JS.or_default JS.falsyZ (JS.parseInt period) 30.

(** [new Date(now.getTime() - periodDays * 24 * 60 * 60 * 1000)]; [None]
    is the Invalid Date. *)
Definition cutoffDate (now periodDays : Z) : option Z :=
  JS.timeClip
    (JS.subZ now
       (JS.mulZ (JS.mulZ (JS.mulZ (JS.mulZ periodDays 24) 60) 60) 1000)).

(** [`${year}-${month}-${day}`] from the first eight characters. *)
Definition isoDay (ts : string) : string :=
  JS.substr ts 0 4 ++ "-" ++ JS.substr ts 4 2 ++ "-" ++ JS.substr ts 6 2.

Definition reportDate (ts : string) : option Z := JS.Date_parse (isoDay ts).

(** [reportDate >= cutoffDate]; an Invalid Date on either side compares
    false. *)
Definition inWindow (now periodDays : Z) (report : Metadata) : bool :=
  match reportDate (timestamp report), cutoffDate now periodDays with
  | Some t, Some cutoff => cutoff <=? t
  | _, _ => false
  end.

Definition recentReports (now periodDays : Z) (allReports : list Metadata)
  : list Metadata :=
  filter (inWindow now periodDays) allReports.

End Window.

(* ================================================================== *)
(** ** Prompt rendering *)

Module Prompt.

(** A chain of [.replace(placeholder, value)] calls, applied in order. *)
Definition substitute (template : string) (steps : list (string * string))
  : string :=
  fold_left (fun t step => JS.replace t (fst step) (snd step)) steps template.

(** [`${x}`] of a numeric field that may be absent. *)
Definition showField (x : option Z) : string :=
  match x with
  | Some z => JS.stringOfZ z
  | None => "undefined"
  end.

(** [x || 0] as text. *)
Definition countOr0 (x : option Z) : string :=
  JS.stringOfZ (JS.or_default JS.falsyZ x 0).

Definition textOrNA (x : option string) : string :=
  JS.or_default JS.falsyS x "N/A".

(** "Build failed tests details" *)
Definition failedTestsDetails (metadata : Metadata) : string :=
  match failed metadata with
  | Some n =>
      if 0 <? n then
        (JS.nl ++ "Failed Tests: " ++ JS.stringOfZ n ++ JS.nl) ++
        match failed_tests metadata with
        | Some tests =>
            JS.join JS.nl (map (fun t => "- " ++ t) (firstn 5 tests)) ++
            (if (5 <? List.length tests)%nat
             then JS.nl ++ "... and "
                    ++ JS.stringOfZ (Z.of_nat (List.length tests) - 5)
                    ++ " more"
             else "")
        | None => ""
        end
      else ""
  | None => ""
  end.

Definition passRateChangeText (passRateChange : Q) : string :=
  (if JS.Qltb 0 passRateChange then "+" else "") ++ JS.toFixed1 passRateChange.

Definition singleSteps (project timestamp : string) (metadata : Metadata)
    (previousPassRate passRateChange : Q) : list (string * string) :=
  [ ("{project}", project);
    ("{timestamp}", timestamp);
    ("{run_number}", textOrNA (run_number metadata));
    ("{branch}", textOrNA (branch metadata));
    ("{total_tests}", countOr0 (total_tests metadata));
    ("{passed}", countOr0 (passed metadata));
    ("{failed}", countOr0 (failed metadata));
    ("{pass_rate}", JS.toFixed1 (passRateOf metadata));
    ("{previous_pass_rate}", JS.toFixed1 previousPassRate);
    ("{pass_rate_change}", passRateChangeText passRateChange);
    ("{failed_tests_details}", failedTestsDetails metadata) ].

Definition singleUserPrompt (template project timestamp : string)
    (metadata : Metadata) (previousPassRate passRateChange : Q) : string :=
  substitute template
    (singleSteps project timestamp metadata previousPassRate passRateChange).

(** One line of "historical data". *)
Definition historyLine (r : Metadata) : string :=
  let ts := timestamp r in
  let date := JS.substr ts 0 4 ++ "-" ++ JS.substr ts 4 2 ++ "-"
                ++ JS.substr ts 6 2 in
  date ++ ": " ++ JS.toFixed1 (passRateOf r) ++ "% ("
    ++ showField (passed r) ++ "/" ++ showField (total_tests r) ++ ")".

Definition historicalData (recentReports : list Metadata) : string :=
  JS.join JS.nl (map historyLine recentReports).

(** [m.toFixed(1)] of a maximum or minimum. *)
Definition extremeText (infinity : string) (m : option Q) : string :=
  match m with
  | Some v => JS.toFixed1 v
  | None => infinity
  end.

Definition dateOrNA (r : option Metadata) : string :=
  match r with
  | Some m => timestamp m
  | None => "N/A"
  end.

Definition trendSteps (project : string) (periodDays : Z)
    (recentReports : list Metadata) (medianPassRate : Q)
    : list (string * string) :=
  let passRates := Stats.passRates recentReports in
  let maxPassRate := Stats.maxPassRate passRates in
  let minPassRate := Stats.minPassRate passRates in
  [ ("{project}", project);
    ("{period_days}", JS.stringOfZ periodDays);
    ("{total_runs}", JS.stringOfZ (Z.of_nat (List.length recentReports)));
    ("{historical_data}", historicalData recentReports);
    ("{avg_pass_rate}", JS.toFixed1 (Stats.avgPassRate passRates));
    ("{median_pass_rate}", JS.toFixed1 medianPassRate);
    ("{std_dev}", JS.toFixed1 (Stats.stdDev passRates));
    ("{max_pass_rate}", extremeText "-Infinity" maxPassRate);
    ("{max_date}", dateOrNA (Stats.findByRate recentReports maxPassRate));
    ("{min_pass_rate}", extremeText "Infinity" minPassRate);
    ("{min_date}", dateOrNA (Stats.findByRate recentReports minPassRate)) ].

Definition trendUserPrompt (template project : string) (periodDays : Z)
    (recentReports : list Metadata) (medianPassRate : Q) : string :=
  substitute template
    (trendSteps project periodDays recentReports medianPassRate).

End Prompt.

(* ================================================================== *)
(** ** The outside world and the effects of a run *)

(** What parsing a [metadata.json] gives: a syntax error, or an object with
    a [timestamp] string, which is what the report producers write. *)
Inductive MetadataFile :=
| Corrupt
| Json (m : Metadata).

(** An entry of [reports/<project>/]: a plain file, or a directory that may
    hold a [metadata.json]. *)
Inductive Entry :=
| PlainFile
| Dir (metadataJson : option MetadataFile).

Record PromptPair := mkPromptPair {
  system_prompt : string;
  user_prompt_template : string
}.

(** [config/ai-prompts.yml], loaded, with both of its sections. *)
Record PromptsConfig := mkPromptsConfig {
  single_report : PromptPair;
  trend_analysis : PromptPair
}.

(** The endpoint's answer to one request: a transport error; a status code
    with the generated text, [None] when the body is not JSON or has no
    first content block (reading [response.content[0].text] throws); or a
    status code with a body whose first content block holds no text that is
    a string, so that [response.content[0].text] is [undefined] or another
    value that is no string. *)
Inductive ApiResponse :=
| RequestError
| Response (statusCode : Z) (text : option string)
| ResponseWithoutText (statusCode : Z).

Record World := mkWorld {
  promptsFile : option PromptsConfig;          (* [None]: unreadable *)
  analysisDirs : list string;   (* the projects [p] for which
                                   [path.join('analysis', p)] exists *)
  reports : list (string * list (string * Entry));
                                (* for a project [p], the entries of
                                   [path.join('reports', p)] *)
  ANTHROPIC_API_KEY : option string;
  now : Z;                                     (* [new Date().getTime()] *)
  endpoint : ApiResponse
}.

(** What a run does to the outside: the directory it creates, the request
    it sends (with both prompts) and the files it writes (by path; the text
    written is not part of the model). *)
Inductive Event :=
| Mkdir (path : string)
| HttpsRequest (systemPrompt userPrompt : string)
| WriteFile (path : string).

(** How a computation ends: with a value, with an exception, or by
    [process.exit(code)]. *)
Inductive Outcome (A : Type) :=
| Done (a : A)
| Thrown
| Exited (code : Z).
Arguments Done {A} a.
Arguments Thrown {A}.
Arguments Exited {A} code.

(** A computation: its events in the order they happen, and its outcome. *)
Definition Eff (A : Type) : Type := list Event * Outcome A.

Definition ret {A} (a : A) : Eff A := ([], Done a).

Definition bind {A B} (m : Eff A) (f : A -> Eff B) : Eff B :=
  match m with
  | (events, Done a) => let (events', r) := f a in ((events ++ events')%list, r)
  | (events, Thrown) => (events, Thrown)
  | (events, Exited code) => (events, Exited code)
  end.

Definition emit (e : Event) : Eff unit := ([e], Done tt).
Definition throw {A} : Eff A := ([], Thrown).
Definition exit {A} (code : Z) : Eff A := ([], Exited code).

(** [try { ... } catch (error) { ...; process.exit(1) }] *)
Definition catchExit1 {A} (m : Eff A) : Eff A :=
  match m with
  | (events, Thrown) => (events, Exited 1)
  | _ => m
  end.

Declare Scope eff_scope.
Delimit Scope eff_scope with eff.
Notation "x <- m ;; k" := (bind m (fun x => k))
  (at level 61, m at next level, right associativity) : eff_scope.
Notation "m ;;; k" := (bind m (fun _ => k))
  (at level 61, right associativity) : eff_scope.

(** Lookup in an association list (a directory, the command-line options). *)
Fixpoint lookup {A} (key : string) (l : list (string * A)) : option A :=
  match l with
  | [] => None
  | (k, v) :: l' => if String.eqb k key then Some v else lookup key l'
  end.

(** [path.join] and [path.normalize] (POSIX). *)
Module Path.

(** The pieces of a path between its slashes. *)
Fixpoint split (s : string) : list string :=
  match s with
  | EmptyString => [""]
  | String c s' =>
      if Ascii.eqb c "/" then "" :: split s'
      else match split s' with
           | seg :: rest => String c seg :: rest
           | [] => [String c ""]
           end
  end.

(** The segments kept so far are in [kept], the last one first.  An empty
    segment and [.] are dropped, [..] removes the segment before it, and
    stays only where there is none to remove and the path is relative. *)
Fixpoint resolve (allowAboveRoot : bool) (segments kept : list string)
  : list string :=
  match segments with
  | [] => kept
  | seg :: rest =>
      if String.eqb seg "" || String.eqb seg "." then
        resolve allowAboveRoot rest kept
      else if String.eqb seg ".." then
        match kept with
        | top :: below =>
            if String.eqb top ".." then
              resolve allowAboveRoot rest
                (if allowAboveRoot then ".." :: kept else kept)
            else resolve allowAboveRoot rest below
        | [] =>
            resolve allowAboveRoot rest
              (if allowAboveRoot then [".."] else [])
        end
      else resolve allowAboveRoot rest (seg :: kept)
  end.

Fixpoint endsWithSlash (s : string) : bool :=
  match s with
  | EmptyString => false
  | String c EmptyString => Ascii.eqb c "/"
  | String _ s' => endsWithSlash s'
  end.

Definition normalize (path : string) : string :=
  if String.eqb path "" then "."
  else
    let isAbsolute := String.prefix "/" path in
    let trailingSeparator := endsWithSlash path in
    let body :=
      JS.join "/" (rev (resolve (negb isAbsolute) (split path) [])) in
    if String.eqb body "" then
      if isAbsolute then "/" else if trailingSeparator then "./" else "."
    else
      (if isAbsolute then "/" else "") ++ body
        ++ (if trailingSeparator then "/" else "").

Definition join (paths : list string) : string :=
  let joined :=
    JS.join "/" (filter (fun p => negb (String.eqb p "")) paths) in
  if String.eqb joined "" then "." else normalize joined.

End Path.

Definition pathJoin (segments : list string) : string := Path.join segments.

Definition REPORTS_DIR : string := "reports".
Definition ANALYSIS_DIR : string := "analysis".

Definition projectAnalysisDir (project : string) : string :=
  pathJoin [ANALYSIS_DIR; project].

Definition isDirectory (e : Entry) : bool :=
  match e with
  | Dir _ => true
  | PlainFile => false
  end.

(** The names in [entries] that are directories. *)
Definition directoryNames (entries : list (string * Entry)) : list string :=
  map fst (filter (fun ne => isDirectory (snd ne)) entries).

(** [fs.existsSync(<dir>/<name>/metadata.json)] and its content. *)
Definition metadataFileOf (entries : list (string * Entry)) (name : string)
  : option MetadataFile :=
  match lookup name entries with
  | Some (Dir f) => f
  | _ => None
  end.

(* ================================================================== *)
(** ** callAnthropicAPI *)

(** The value the promise resolves with is the text, or [undefined]
    ([None]) when the first content block holds none. *)
Definition callAnthropicAPI (w : World) (systemPrompt userPrompt : string)
  : Eff (option string) :=
  (if negb (JS.truthy (ANTHROPIC_API_KEY w)) then throw
   else
     emit (HttpsRequest systemPrompt userPrompt) ;;;
     match endpoint w with
     | RequestError => throw
     | Response statusCode text =>
         if negb (statusCode =? 200) then throw
         else match text with
              | Some t => ret (Some t)
              | None => throw
              end
     | ResponseWithoutText statusCode =>
         if negb (statusCode =? 200) then throw else ret None
     end)%eff.

(* ================================================================== *)
(** ** analyzeSingleReport *)

Module Single.

(** [readdirSync(..).filter(isDirectory).sort().reverse()] *)
Definition allReports (entries : list (string * Entry)) : list string :=
  rev (JS.sort JS.compareStrings (directoryNames entries)).

(** "Get previous report for comparison": [Done None] when no previous
    metadata is read. *)
Definition previousMetadata (entries : list (string * Entry))
    (timestamp : string) : Eff (option Metadata) :=
  let allReports := allReports entries in
  let currentIndex := JS.indexOf allReports timestamp in
  if 0 <? currentIndex then
    match JS.index allReports (currentIndex + 1) with
    | None => throw                 (* path.join(.., undefined, ..) *)
    | Some previous =>
        match metadataFileOf entries previous with
        | None => ret None
        | Some Corrupt => throw
        | Some (Json m) => ret (Some m)
        end
    end
  else ret None.

Definition previousPassRate (previousMetadata : option Metadata) : Q :=
  match previousMetadata with
  | Some m => passRateOf m
  | None => 0%Q
  end.

Definition passRateChange (metadata : Metadata)
    (previousMetadata : option Metadata) : Q :=
  JS.sub (passRateOf metadata) (previousPassRate previousMetadata).

Definition analyzeSingleReport (w : World) (cfg : PromptsConfig)
    (project : string) (timestamp : option string) : Eff unit :=
  (match timestamp with
   | None => exit 1
   | Some ts =>
       if JS.falsyS ts then exit 1
       else
         let entries :=
           match lookup project (reports w) with
           | Some es => es
           | None => []
           end in
         match metadataFileOf entries ts with
         | None => exit 1
         | Some Corrupt => throw
         | Some (Json metadata) =>
             previous <- previousMetadata entries ts ;;
             let userPrompt :=
               Prompt.singleUserPrompt
                 (user_prompt_template (single_report cfg)) project ts
                 metadata (previousPassRate previous)
                 (passRateChange metadata previous) in
             analysis <- callAnthropicAPI w
                           (system_prompt (single_report cfg)) userPrompt ;;
             emit (WriteFile
                     (pathJoin [projectAnalysisDir project;
                                "latest-analysis.md"])) ;;;
             match analysis with
             | None => throw          (* [analysis.split] on what is no string *)
             | Some _ =>
                 emit (WriteFile
                         (pathJoin [projectAnalysisDir project;
                                    "insights.json"]))
             end
         end
   end)%eff.

End Single.

(* ================================================================== *)
(** ** analyzeTrend *)

Module Trend.

(** What one directory contributes to "Get all reports": its parsed
    metadata, or [null]. *)
Definition readMetadata (entries : list (string * Entry)) (name : string)
  : option Metadata :=
  match metadataFileOf entries name with
  | Some (Json m) => Some m
  | Some Corrupt => None
  | None => None
  end.

(** [.filter(m => m !== null)] *)
Fixpoint dropNulls (l : list (option Metadata)) : list Metadata :=
  match l with
  | [] => []
  | Some m :: l' => m :: dropNulls l'
  | None :: l' => dropNulls l'
  end.

Definition allReports (entries : list (string * Entry)) : list Metadata :=
  JS.sort (fun a b => JS.localeCompare (timestamp a) (timestamp b))
    (dropNulls (map (readMetadata entries) (directoryNames entries))).

Definition analyzeTrend (w : World) (cfg : PromptsConfig)
    (project : string) (period : option string) : Eff unit :=
  (let periodDays := Window.periodDays period in
   match lookup project (reports w) with
   | None => exit 1
   | Some entries =>
       let allReports := allReports entries in
       if (List.length allReports =? 0)%nat then exit 1
       else
         let recentReports :=
           Window.recentReports (now w) periodDays allReports in
         if (List.length recentReports =? 0)%nat then exit 1
         else
           match Stats.medianPassRate (Stats.passRates recentReports) with
           | None => throw          (* undefined.toFixed *)
           | Some medianPassRate =>
               let userPrompt :=
                 Prompt.trendUserPrompt
                   (user_prompt_template (trend_analysis cfg)) project
                   periodDays recentReports medianPassRate in
               analysis <- callAnthropicAPI w
                             (system_prompt (trend_analysis cfg)) userPrompt ;;
               emit (WriteFile
                       (pathJoin [projectAnalysisDir project;
                                  "trend-analysis.md"]))
           end
   end)%eff.

End Trend.

(* ================================================================== *)
(** ** The script, top to bottom *)

(** [options[key] = value] on the plain object [options]: the value is
    stored under the key, except that a string (or [undefined]) assigned
    to [__proto__] is ignored. *)
Definition setOption (options : list (string * option string))
    (key : string) (value : option string)
  : list (string * option string) :=
  if String.eqb key "__proto__" then options else (key, value) :: options.

(** "Parse command line arguments": pairs [--key value]; a later pair
    overrides an earlier one. *)
Fixpoint parseArgs (args : list string)
    (options : list (string * option string))
  : list (string * option string) :=
  match args with
  | [] => options
  | [key] => setOption options (JS.stripDashes key) None
  | key :: value :: rest =>
      parseArgs rest (setOption options (JS.stripDashes key) (Some value))
  end.

Definition option_of (options : list (string * option string)) (key : string)
  : option string :=
  match lookup key options with
  | Some v => v
  | None => None
  end.

Definition script (w : World) (argv : list string) : Eff unit :=
  (let options := parseArgs argv [] in
   let project := option_of options "project" in
   let timestamp := option_of options "timestamp" in
   let type := option_of options "type" in
   let period := option_of options "period" in
   match project, type with
   | Some project, Some type =>
       if JS.falsyS project || JS.falsyS type then exit 1
       else
         match promptsFile w with
         | None => throw
         | Some promptsConfig =>
             (if existsb (String.eqb project) (analysisDirs w) then ret tt
              else emit (Mkdir (pathJoin [ANALYSIS_DIR; project]))) ;;;
             catchExit1
               (if String.eqb type "single" then
                  Single.analyzeSingleReport w promptsConfig project timestamp
                else if String.eqb type "trend" then
                  Trend.analyzeTrend w promptsConfig project period
                else exit 1)
         end
   | _, _ => exit 1
   end)%eff.

(** The exit code of the process: 0 at the normal end, 1 on an uncaught
    exception, the argument of [process.exit] otherwise. *)
Definition exitCode {A} (r : Eff A) : Z :=
  match snd r with
  | Done _ => 0
  | Thrown => 1
  | Exited code => code
  end.

Definition events {A} (r : Eff A) : list Event := fst r.

Definition isNetworkCall (e : Event) : bool :=
  match e with
  | HttpsRequest _ _ => true
  | _ => false
  end.

Definition isFileWrite (e : Event) : bool :=
  match e with
  | WriteFile _ => true
  | _ => false
  end.

Definition isMkdir (e : Event) : bool :=
  match e with
  | Mkdir _ => true
  | _ => false
  end.

(* ================================================================== *)
(** ** Reference notions the properties are stated against *)

(** The element just below the middle of an even-length sorted list. *)
Definition lowerMiddle (sorted : list Q) : option Q :=
  JS.index sorted (Z.of_nat (List.length sorted) / 2 - 1).

(** Textbook mean and population standard deviation over the reals. *)
Fixpoint sumR (xs : list R) : R :=
  match xs with
  | [] => 0%R
  | x :: xs' => (x + sumR xs')%R
  end.

Definition arithmeticMean (xs : list R) : R :=
  (sumR xs / INR (List.length xs))%R.

Definition populationStdDev (xs : list R) : R :=
  sqrt (sumR (map (fun x => (x - arithmeticMean xs) * (x - arithmeticMean xs))%R xs)
          / INR (List.length xs)).

(** Exact sum, mean and population variance of rationals. *)
Definition sumQ (xs : list Q) : Q := fold_right Qplus 0%Q xs.
Definition meanQ (xs : list Q) : Q := (sumQ xs / Stats.lengthQ xs)%Q.
Definition varianceQ (xs : list Q) : Q :=
  (sumQ (map (fun x => (x - meanQ xs) * (x - meanQ xs)) xs)
   / Stats.lengthQ xs)%Q.

(** The pass rates of a window: percentages, at most [2 ^ 20] of them. *)
Definition percentages (rates : list Q) : Prop :=
  rates <> [] /\ Z.of_nat (List.length rates) <= 1048576 /\
  forall r, In r rates -> (0 <= r <= 100)%Q.

(** The UTC day (days since 1970-01-01) that a time value falls on. *)
Definition utcDay (t : Z) : Z := t / JS.msPerDay.

(** [p ++ search ++ q] shows the leftmost occurrence of [search]. *)
Definition leftmost (p search q : string) : Prop :=
  forall p' q', p ++ search ++ q = p' ++ search ++ q' ->
                (String.length p <= String.length p')%nat.

Fixpoint noDollar (s : string) : bool :=
  match s with
  | EmptyString => true
  | String c s' => negb (Ascii.eqb c "$") && noDollar s'
  end.

(** A record read with its pass rate filled in when the field is absent. *)
Definition withPassRate0 (r : Metadata) : Metadata :=
  mkMetadata (timestamp r) (run_number r) (branch r) (status r)
    (total_tests r) (passed r) (failed r)
    (match pass_rate r with
     | Some q => Some q
     | None => Some 0%Q
     end)
    (failed_tests r).

Definition withPassRate0File (f : MetadataFile) : MetadataFile :=
  match f with
  | Corrupt => Corrupt
  | Json m => Json (withPassRate0 m)
  end.

Definition withPassRate0Entry (e : Entry) : Entry :=
  match e with
  | PlainFile => PlainFile
  | Dir f => Dir (option_map withPassRate0File f)
  end.

Definition mapValues {A B} (f : A -> B) (l : list (string * A))
  : list (string * B) :=
  map (fun kv => (fst kv, f (snd kv))) l.

(** The same world with every absent pass rate written out as 0. *)
Definition withPassRate0World (w : World) : World :=
  mkWorld (promptsFile w) (analysisDirs w)
    (mapValues (mapValues withPassRate0Entry) (reports w))
    (ANTHROPIC_API_KEY w) (now w) (endpoint w).

(** Whether the directory [name] holds a [metadata.json] that parses. *)
Definition parses (entries : list (string * Entry)) (name : string) : bool :=
  match metadataFileOf entries name with
  | Some (Json _) => true
  | _ => false
  end.

(** A computation that has done nothing to the outside and has failed. *)
Definition failedQuietly {A} (r : Eff A) : Prop :=
  fst r = [] /\ (snd r = Thrown \/ snd r = Exited 1).

(* ================================================================== *)
(** ** Sample data *)

Module Sample.

(** A run of 20 tests of which [ok] passed. *)
Definition run (ts : string) (ok : Z) : Metadata :=
  mkMetadata ts (Some "7") (Some "main") (Some "success")
    (Some 20) (Some ok) (Some (20 - ok))
    (Some (inject_Z (ok * 5))) None.

Definition day1 : Metadata := run "20240101-235959" 17.   (* 85% *)
Definition day2 : Metadata := run "20240102-090000" 18.   (* 90% *)
Definition day3 : Metadata := run "20240103-090000" 19.   (* 95% *)

(** A run whose metadata has no [pass_rate]. *)
Definition noRate : Metadata :=
  mkMetadata "20240104-090000" (Some "9") (Some "main") (Some "failure")
    (Some 20) (Some 0) (Some 20) None None.

Definition entryOf (m : Metadata) : string * Entry :=
  (timestamp m, Dir (Some (Json m))).

Definition twoReports : list (string * Entry) := [entryOf day1; entryOf day2].

Definition threeReports : list (string * Entry) :=
  [entryOf day1; entryOf day2; entryOf day3].

Definition oneValidOneCorrupt : list (string * Entry) :=
  [entryOf day2; ("20240103-090000", Dir (Some Corrupt))].

Definition prompts : PromptsConfig :=
  mkPromptsConfig
    (mkPromptPair "Review this run."
       "{project} {timestamp}: {pass_rate}% ({pass_rate_change})")
    (mkPromptPair "Review this trend."
       "{project}, {total_runs} runs in {period_days} days: avg {avg_pass_rate}%").

(** 2024-01-08T12:00:00Z *)
Definition noon8Jan : Z := 1704715200000.

Definition world (entries : list (string * Entry)) (key : option string)
  : World :=
  mkWorld (Some prompts) [] [("demo", entries)] key noon8Jan
    (Response 200 (Some "Stable.")).

Definition keyed : World := world twoReports (Some "secret").

(** The same reports, three of them, and no credential in the environment. *)
Definition keyless : World := world threeReports None.

Definition weeklyArgs : list string :=
  ["--project"; "demo"; "--type"; "weekly"].

Definition singleArgs : list string :=
  ["--project"; "demo"; "--type"; "single"; "--timestamp"; "20240102-090000"].

Definition trendArgs : list string :=
  ["--project"; "demo"; "--type"; "trend"; "--period"; "7"].

End Sample.

(* ================================================================== *)
(** ** Further notions: order, whole runs, templates *)

(** The comparator does not put [b] before [a]. *)
Definition inOrder {A} (comparefn : A -> A -> Q) (a b : A) : Prop :=
  JS.Qltb (comparefn b a) 0 = false.

(** [a] does not sort after [b] in code-unit order. *)
Definition notAfter (a b : string) : Prop := String.compare a b <> Gt.

Definition analysisFile (project name : string) : Event :=
  WriteFile (pathJoin [projectAnalysisDir project; name]).

(** The endpoint answers 200 with a first content block whose text is no
    string. *)
Definition textless (w : World) : Prop := endpoint w = ResponseWithoutText 200.

(** The endpoint gives no answer that resolves the request: a transport
    error, a status other than 200, or a body that cannot be read. *)
Definition refuses (w : World) : Prop :=
  (forall text, endpoint w <> Response 200 (Some text)) /\ ~ textless w.

(** The ways in which the dispatched analysis can go: it fails before the
    endpoint is contacted; the endpoint is contacted and gives nothing; the
    text arrives and the files of the mode are written; or what arrives is
    no text, and is written into the analysis file all the same. *)
Inductive Body (w : World) (project : string)
  : list Event -> Outcome unit -> Prop :=
| BodyQuiet (o : Outcome unit) :
    o = Thrown \/ o = Exited 1 -> Body w project [] o
| BodyRefused (systemPrompt userPrompt : string) :
    JS.truthy (ANTHROPIC_API_KEY w) = true ->
    refuses w ->
    Body w project [HttpsRequest systemPrompt userPrompt] Thrown
| BodySingle (systemPrompt userPrompt text : string) :
    JS.truthy (ANTHROPIC_API_KEY w) = true ->
    endpoint w = Response 200 (Some text) ->
    Body w project
      [HttpsRequest systemPrompt userPrompt;
       analysisFile project "latest-analysis.md";
       analysisFile project "insights.json"] (Done tt)
| BodyTrend (systemPrompt userPrompt text : string) :
    JS.truthy (ANTHROPIC_API_KEY w) = true ->
    endpoint w = Response 200 (Some text) ->
    Body w project
      [HttpsRequest systemPrompt userPrompt;
       analysisFile project "trend-analysis.md"] (Done tt)
| BodySingleTextless (systemPrompt userPrompt : string) :
    JS.truthy (ANTHROPIC_API_KEY w) = true ->
    textless w ->
    Body w project
      [HttpsRequest systemPrompt userPrompt;
       analysisFile project "latest-analysis.md"] Thrown
| BodyTrendTextless (systemPrompt userPrompt : string) :
    JS.truthy (ANTHROPIC_API_KEY w) = true ->
    textless w ->
    Body w project
      [HttpsRequest systemPrompt userPrompt;
       analysisFile project "trend-analysis.md"] (Done tt).

(** A name of one path segment: not empty, not [.] or [..], and without a
    slash. *)
Fixpoint noSlash (s : string) : bool :=
  match s with
  | EmptyString => true
  | String c s' => negb (Ascii.eqb c "/") && noSlash s'
  end.

Definition plainName (s : string) : bool :=
  negb (String.eqb s "") && negb (String.eqb s ".")
  && negb (String.eqb s "..") && noSlash s.

(** The events of a run that touch the file system stay in
    [analysis/<project>]. *)
Definition staysInAnalysisDir (project : string) (e : Event) : Prop :=
  match e with
  | Mkdir path => path = "analysis/" ++ project
  | WriteFile path =>
      exists name,
        plainName name = true /\
        path = "analysis/" ++ project ++ "/" ++ name
  | HttpsRequest _ _ => True
  end.

(** No opening brace anywhere in the text. *)
Fixpoint noBrace (s : string) : bool :=
  match s with
  | EmptyString => true
  | String c s' => negb (Ascii.eqb c "{") && noBrace s'
  end.

Definition startsWithBrace (s : string) : bool :=
  match s with
  | String c _ => Ascii.eqb c "{"
  | EmptyString => false
  end.

(** [analysis.split('\n')[0]], the [analysis_summary] of the insights. *)
Fixpoint firstLine (s : string) : string :=
  match s with
  | EmptyString => ""
  | String c s' =>
      if Ascii.eqb c (ascii_of_nat 10) then "" else String c (firstLine s')
  end.

Definition analysis_summary (analysis : string) : string := firstLine analysis.

Fixpoint noNewline (s : string) : bool :=
  match s with
  | EmptyString => true
  | String c s' => negb (Ascii.eqb c (ascii_of_nat 10)) && noNewline s'
  end.

(** A decimal digit character. *)
Definition isDigit (c : ascii) : bool :=
  let n := nat_of_ascii c in ((48 <=? n) && (n <=? 57))%nat.

Fixpoint allDigits (s : string) : bool :=
  match s with
  | EmptyString => true
  | String c s' => isDigit c && allDigits s'
  end.

(** A timestamp of the form [YYYYMMDD-HHMMSS]. *)
Definition wellFormedTimestamp (ts : string) : bool :=
  (String.length ts =? 15)%nat
  && allDigits (JS.substr ts 0 8)
  && String.eqb (JS.substr ts 8 1) "-"
  && allDigits (JS.substr ts 9 6).

(* ================================================================== *)
(** ** Binary64 rounding *)

Local Open Scope Q_scope.

Lemma pow2_pos (z : Z) : 0 < 2 ^ z.
Proof. apply Qpower_0_lt. reflexivity. Qed.

Lemma pow2_nonzero (z : Z) : ~ 2 ^ z == 0.
Proof. intro H. pose proof (pow2_pos z) as P. rewrite H in P. discriminate. Qed.

Lemma pow2_plus (a b : Z) : 2 ^ (a + b) == 2 ^ a * 2 ^ b.
Proof. apply Qpower_plus. discriminate. Qed.

Lemma pow2_le (a b : Z) : (a <= b)%Z -> 2 ^ a <= 2 ^ b.
Proof. intro H. apply Qpower_le_compat_l; [exact H | discriminate]. Qed.

Lemma pow2_lt_inv (a b : Z) : 2 ^ a < 2 ^ b -> (a < b)%Z.
Proof. intro H. apply (Qpower_lt_compat_l_inv 2); [exact H | reflexivity]. Qed.

Lemma pow2_inject (n : Z) : (0 <= n)%Z -> inject_Z (2 ^ n) == 2 ^ n.
Proof. intro H. apply (Zpower_Qpower 2 n H). Qed.

(** [2 ^ log2 p <= p < 2 ^ (log2 p + 1)] for positive integers, in [Q]. *)
Lemma log2_bounds (p : Z) :
  (0 < p)%Z ->
  2 ^ Z.log2 p <= inject_Z p /\ inject_Z p < 2 ^ (Z.log2 p + 1).
Proof.
  intro Hp. pose proof (Z.log2_spec p Hp) as [Hlo Hhi].
  pose proof (Z.log2_nonneg p) as Hn.
  split.
  - rewrite <- pow2_inject by exact Hn. rewrite <- Zle_Qle. exact Hlo.
  - rewrite <- pow2_inject by lia. rewrite <- Zlt_Qlt.
    replace (Z.log2 p + 1)%Z with (Z.succ (Z.log2 p)) by lia. exact Hhi.
Qed.

Lemma Qabs_make (q : Q) :
  Qabs q == inject_Z (Z.abs (Qnum q)) / inject_Z (Z.pos (Qden q)).
Proof.
  destruct q as [n d]. unfold Qabs. simpl Qnum. simpl Qden.
  rewrite (Qmake_Qdiv (Z.abs n) d). reflexivity.
Qed.

(** The exponent of a non-zero number. *)
Lemma ilog2_spec (q : Q) :
  ~ q == 0 -> 2 ^ JS.ilog2 q <= Qabs q /\ Qabs q < 2 ^ (JS.ilog2 q + 1).
Proof.
  intro Hq.
  assert (Hn : (0 < Z.abs (Qnum q))%Z).
  { destruct q as [n d]. unfold Qeq in Hq. simpl in *. lia. }
  pose proof (log2_bounds _ Hn) as [Hnlo Hnhi].
  pose proof (log2_bounds (Z.pos (Qden q)) eq_refl) as [Hdlo Hdhi].
  set (ln := Z.log2 (Z.abs (Qnum q))) in *.
  set (ld := Z.log2 (Z.pos (Qden q))) in *.
  assert (Hd : 0 < inject_Z (Z.pos (Qden q))) by reflexivity.
  assert (Habs := Qabs_make q).
  set (N := inject_Z (Z.abs (Qnum q))) in *.
  set (D := inject_Z (Z.pos (Qden q))) in *.
  assert (HqD : Qabs q * D == N).
  { rewrite Habs. field. intro H. rewrite H in Hd. discriminate. }
  (* 2^(ln-ld-1) < |q| < 2^(ln-ld+1) *)
  assert (Hlow : 2 ^ (ln - ld - 1) * D < N).
  { apply Qlt_le_trans with (2 ^ (ln - ld - 1) * 2 ^ (ld + 1)).
    - apply Qmult_lt_l; [apply pow2_pos | exact Hdhi].
    - rewrite <- pow2_plus. replace (ln - ld - 1 + (ld + 1))%Z with ln by lia.
      exact Hnlo. }
  assert (Hhigh : N < 2 ^ (ln - ld + 1) * D).
  { apply Qlt_le_trans with (2 ^ (ln - ld + 1) * 2 ^ ld).
    - rewrite <- pow2_plus. replace (ln - ld + 1 + ld)%Z with (ln + 1)%Z by lia.
      exact Hnhi.
    - apply Qmult_le_l; [apply pow2_pos | exact Hdlo]. }
  rewrite <- HqD in Hlow, Hhigh.
  apply Qmult_lt_r in Hlow; [|exact Hd].
  apply Qmult_lt_r in Hhigh; [|exact Hd].
  unfold JS.ilog2. fold ln ld. cbv zeta.
  destruct (Qle_bool (2 ^ (ln - ld)) (Qabs q)) eqn:E.
  - apply Qle_bool_iff in E. split; assumption.
  - split; [apply Qlt_le_weak, Hlow|].
    replace (ln - ld - 1 + 1)%Z with (ln - ld)%Z by lia.
    apply Qnot_le_lt. intro H. apply Qle_bool_iff in H. congruence.
Qed.

Lemma ilog2_le (q : Q) (k : Z) :
  ~ q == 0 -> Qabs q <= 2 ^ k -> (JS.ilog2 q <= k)%Z.
Proof.
  intros Hq Hk. destruct (ilog2_spec q Hq) as [Hlo _].
  apply (Qpower_le_compat_l_inv 2); [|reflexivity].
  apply Qle_trans with (Qabs q); assumption.
Qed.

Lemma ilog2_unique (q : Q) (k : Z) :
  2 ^ k <= Qabs q -> Qabs q < 2 ^ (k + 1) -> JS.ilog2 q = k.
Proof.
  intros Hlo Hhi.
  assert (Hq : ~ q == 0).
  { intro H. rewrite H in Hlo. pose proof (pow2_pos k) as P.
    change (Qabs 0) with 0 in Hlo. apply (Qlt_irrefl 0).
    apply Qlt_le_trans with (2 ^ k); assumption. }
  destruct (ilog2_spec q Hq) as [Hlo' Hhi'].
  assert (JS.ilog2 q < k + 1)%Z
    by (apply pow2_lt_inv, Qle_lt_trans with (Qabs q); assumption).
  assert (k < JS.ilog2 q + 1)%Z
    by (apply pow2_lt_inv, Qle_lt_trans with (Qabs q); assumption).
  lia.
Qed.

(** The nearest integer is within a half. *)
Lemma roundHalfEven_near (x : Q) :
  x - (1 # 2) <= inject_Z (JS.roundHalfEven x) <= x + (1 # 2).
Proof.
  unfold JS.roundHalfEven. cbv zeta.
  pose proof (Qfloor_le x) as Hle.
  pose proof (Qlt_floor x) as Hlt.
  rewrite inject_Z_plus in Hlt. change (inject_Z 1) with 1 in Hlt.
  destruct (x - inject_Z (Qfloor x) ?= 1 # 2) eqn:E.
  - apply Qeq_alt in E.
    destruct (Z.even (Qfloor x)); [|rewrite inject_Z_plus; change (inject_Z 1) with 1];
      split; lra.
  - apply Qlt_alt in E. split; lra.
  - apply Qgt_alt in E. rewrite inject_Z_plus. change (inject_Z 1) with 1.
    split; lra.
Qed.

Lemma roundHalfEven_Z (x : Q) (n : Z) :
  x == inject_Z n -> JS.roundHalfEven x = n.
Proof.
  intro H. unfold JS.roundHalfEven. cbv zeta.
  assert (Hf : Qfloor x = n) by (rewrite (Qfloor_comp _ _ H); apply Qfloor_Z).
  rewrite Hf.
  assert (E : (x - inject_Z n ?= 1 # 2) = Lt).
  { apply Qlt_alt. apply Qle_lt_trans with 0; [|reflexivity].
    apply Qle_minus_iff. setoid_replace (0 + - (x - inject_Z n)) with 0
      by (rewrite H; ring). apply Qle_refl. }
  rewrite E. reflexivity.
Qed.

Lemma roundHalfEven_nonneg (x : Q) : 0 <= x -> (0 <= JS.roundHalfEven x)%Z.
Proof.
  intro H. unfold JS.roundHalfEven. cbv zeta.
  assert (0 <= Qfloor x)%Z by (change 0%Z with (Qfloor 0); apply Qfloor_resp_le, H).
  destruct (_ ?= _); [destruct (Z.even _)| |]; lia.
Qed.

(** Rounding to a double. *)

Lemma round64_eq (q : Q) :
  ~ q == 0 ->
  JS.round64 q
  == inject_Z (JS.roundHalfEven (q / 2 ^ Z.max (JS.ilog2 q - 52) (-1074)))
     * 2 ^ Z.max (JS.ilog2 q - 52) (-1074).
Proof.
  intro Hq. unfold JS.round64.
  destruct (Qeq_bool q 0) eqn:E; [apply Qeq_bool_iff in E; contradiction|].
  cbv zeta. apply Qred_correct.
Qed.

Lemma round64_zero (q : Q) : q == 0 -> JS.round64 q = 0.
Proof.
  intro H. unfold JS.round64.
  rewrite (proj2 (Qeq_bool_iff q 0) H). reflexivity.
Qed.

(** The error of one rounding, for a number of magnitude at most [2 ^ k]
    in the normal range. *)
Lemma round64_error (q : Q) (k : Z) :
  (-1022 <= k)%Z -> Qabs q <= 2 ^ k ->
  Qabs (JS.round64 q - q) <= 2 ^ (k - 53).
Proof.
  intros Hk Hq.
  destruct (Qeq_dec q 0) as [H0|H0].
  - rewrite (round64_zero q H0), H0. change (Qabs (0 - 0)) with 0.
    apply Qlt_le_weak, pow2_pos.
  - rewrite (round64_eq q H0).
    set (e := Z.max (JS.ilog2 q - 52) (-1074)).
    assert (He : (e <= k - 52)%Z).
    { pose proof (ilog2_le q k H0 Hq). unfold e. lia. }
    pose proof (roundHalfEven_near (q / 2 ^ e)) as [Hlo Hhi].
    pose proof (pow2_pos e) as Hpe.
    assert (Hhalf : (1 # 2) * 2 ^ e <= 2 ^ (k - 53)).
    { replace (k - 53)%Z with (-1 + (k - 52))%Z by lia.
      rewrite pow2_plus. change (2 ^ (-1)) with (1 # 2).
      apply Qmult_le_l; [reflexivity | apply pow2_le, He]. }
    set (m := inject_Z (JS.roundHalfEven (q / 2 ^ e))) in *.
    assert (Hq' : q == (q / 2 ^ e) * 2 ^ e)
      by (field; apply pow2_nonzero).
    set (x := q / 2 ^ e) in *.
    apply Qabs_Qle_condition.
    assert (Hm1 : (x - (1 # 2)) * 2 ^ e <= m * 2 ^ e)
      by (apply Qmult_le_compat_r; [exact Hlo | apply Qlt_le_weak, Hpe]).
    assert (Hm2 : m * 2 ^ e <= (x + (1 # 2)) * 2 ^ e)
      by (apply Qmult_le_compat_r; [exact Hhi | apply Qlt_le_weak, Hpe]).
    rewrite Hq' at 1 2.
    split; nra.
Qed.

Lemma round64_nonneg (q : Q) : 0 <= q -> 0 <= JS.round64 q.
Proof.
  intro Hq. destruct (Qeq_dec q 0) as [H0|H0].
  - rewrite (round64_zero q H0). apply Qle_refl.
  - rewrite (round64_eq q H0).
    set (e := Z.max (JS.ilog2 q - 52) (-1074)).
    apply Qmult_le_0_compat; [|apply Qlt_le_weak, pow2_pos].
    change 0 with (inject_Z 0). rewrite <- Zle_Qle.
    apply roundHalfEven_nonneg.
    apply Qle_shift_div_l; [apply pow2_pos|]. lra.
Qed.

(** Integers. *)

Lemma Qred_inject_Z (n : Z) : Qred (inject_Z n) = inject_Z n.
Proof.
  unfold inject_Z. apply Qcanon.Qred_identity. simpl. apply Z.gcd_1_r.
Qed.

Lemma inject_Z_nonzero (n : Z) : n <> 0%Z -> ~ inject_Z n == 0.
Proof. intros Hn H. unfold Qeq in H. simpl in H. lia. Qed.

Lemma Qabs_inject_Z (n : Z) : Qabs (inject_Z n) = inject_Z (Z.abs n).
Proof. reflexivity. Qed.

(** An integer of magnitude up to [2 ^ 53] is a double. *)
Lemma round64_inject_Z (n : Z) :
  (Z.abs n <= 2 ^ 53)%Z -> JS.round64 (inject_Z n) = inject_Z n.
Proof.
  intro Hn.
  destruct (Z.eq_dec n 0) as [->|H0]; [reflexivity|].
  destruct (Z.eq_dec (Z.abs n) (2 ^ 53)) as [Htop|Htop].
  { assert (Hc : n = (2 ^ 53)%Z \/ n = (- 2 ^ 53)%Z) by lia.
    destruct Hc as [-> | ->]; vm_compute; reflexivity. }
  assert (Hq : ~ inject_Z n == 0) by (apply inject_Z_nonzero, H0).
  destruct (ilog2_spec _ Hq) as [Hlo Hhi].
  rewrite Qabs_inject_Z in Hlo, Hhi.
  set (c := JS.ilog2 (inject_Z n)) in *.
  assert (Hc0 : (0 <= c)%Z).
  { assert (2 ^ 0 < 2 ^ (c + 1)).
    { apply Qle_lt_trans with (inject_Z (Z.abs n)); [|exact Hhi].
      change (2 ^ 0) with (inject_Z 1). rewrite <- Zle_Qle. lia. }
    apply pow2_lt_inv in H. lia. }
  assert (Hc52 : (c <= 52)%Z).
  { assert (2 ^ c < 2 ^ 53).
    { apply Qle_lt_trans with (inject_Z (Z.abs n)); [exact Hlo|].
      rewrite <- (pow2_inject 53) by lia. rewrite <- Zlt_Qlt. lia. }
    apply pow2_lt_inv in H. lia. }
  unfold JS.round64.
  destruct (Qeq_bool (inject_Z n) 0) eqn:E;
    [apply Qeq_bool_iff in E; contradiction|].
  cbv zeta. fold c.
  replace (Z.max (c - 52) (-1074)) with (- (52 - c))%Z by lia.
  set (k := (52 - c)%Z).
  assert (Hk : (0 <= k)%Z) by (unfold k; lia).
  assert (Hx : inject_Z n / 2 ^ (- k) == inject_Z (n * 2 ^ k)).
  { rewrite inject_Z_mult, (pow2_inject k Hk), Qpower_opp.
    field. apply pow2_nonzero. }
  rewrite (roundHalfEven_Z _ _ Hx).
  rewrite <- (Qred_inject_Z n). apply Qred_complete.
  rewrite inject_Z_mult, (pow2_inject k Hk), Qpower_opp.
  field. apply pow2_nonzero.
Qed.

(** The square root. *)

Lemma Q2R_inject_Z (z : Z) : Q2R (inject_Z z) = IZR z.
Proof. unfold Q2R, inject_Z. simpl. lra. Qed.

Lemma Q2R_zero : Q2R 0 = 0%R.
Proof. unfold Q2R. simpl. lra. Qed.

Lemma Q2R_half : Q2R (1 # 2) = (1 / 2)%R.
Proof. unfold Q2R. simpl. lra. Qed.

Lemma Q2R_pos (q : Q) : 0 < q -> (0 < Q2R q)%R.
Proof. intro H. rewrite <- Q2R_zero. apply Qlt_Rlt, H. Qed.

Lemma Q2R_nonneg (q : Q) : 0 <= q -> (0 <= Q2R q)%R.
Proof. intro H. rewrite <- Q2R_zero. apply Qle_Rle, H. Qed.

Lemma Math_sqrt_error (q : Q) (j : Z) :
  (-511 <= j)%Z -> 0 <= q -> q <= 2 ^ (2 * j) ->
  (Rabs (Q2R (JS.Math_sqrt q) - sqrt (Q2R q)) <= Q2R (2 ^ (j - 53)))%R.
Proof.
  intros Hj Hq0 Hq.
  unfold JS.Math_sqrt.
  destruct (Qle_bool q 0) eqn:E.
  - apply Qle_bool_iff in E.
    assert (H0 : q == 0) by (apply Qle_antisym; assumption).
    rewrite (Qeq_eqR _ _ H0), Q2R_zero, sqrt_0.
    replace (0 - 0)%R with 0%R by lra. rewrite Rabs_R0.
    apply Rlt_le, Q2R_pos, pow2_pos.
  - assert (Hpos : 0 < q).
    { apply Qnot_le_lt. intro H. apply Qle_bool_iff in H. congruence. }
    assert (Hnz : ~ q == 0) by (intro H; rewrite H in Hpos; discriminate).
    cbv zeta.
    set (e := Z.max (JS.ilog2 q / 2 - 52) (-1074)).
    assert (He : (e <= j - 52)%Z).
    { assert (JS.ilog2 q <= 2 * j)%Z.
      { apply ilog2_le; [exact Hnz|]. rewrite Qabs_pos; [exact Hq|].
        apply Qlt_le_weak, Hpos. }
      assert (JS.ilog2 q / 2 <= j)%Z
        by (apply Z.div_le_upper_bound; lia).
      unfold e. lia. }
    set (y := q / 2 ^ (2 * e)).
    set (m := Z.sqrt (Qfloor y)).
    assert (Hy0 : 0 <= y).
    { unfold y. apply Qle_shift_div_l; [apply pow2_pos|]. lra. }
    assert (Hf0 : (0 <= Qfloor y)%Z)
      by (change 0%Z with (Qfloor 0); apply Qfloor_resp_le, Hy0).
    pose proof (Z.sqrt_spec _ Hf0) as Hs. fold m in Hs. cbv zeta in Hs.
    pose proof (Z.sqrt_nonneg (Qfloor y)) as Hm0. fold m in Hm0.
    (* in the reals *)
    set (Y := Q2R y).
    assert (HY0 : (0 <= Y)%R) by (apply Q2R_nonneg, Hy0).
    assert (Hlo : (IZR m * IZR m <= Y)%R).
    { pose proof (Qle_Rle _ _ (Qfloor_le y)) as H.
      rewrite Q2R_inject_Z in H. fold Y in H.
      apply Rle_trans with (IZR (Qfloor y)); [|exact H].
      rewrite <- mult_IZR. apply IZR_le. lia. }
    assert (Hhi : (Y < (IZR m + 1) * (IZR m + 1))%R).
    { pose proof (Qlt_Rlt _ _ (Qlt_floor y)) as H.
      rewrite Q2R_inject_Z in H. fold Y in H.
      apply Rlt_le_trans with (IZR (Qfloor y + 1)); [exact H|].
      replace ((IZR m + 1) * (IZR m + 1))%R
        with (IZR ((m + 1) * (m + 1))) by (rewrite mult_IZR, plus_IZR; lra).
      apply IZR_le. lia. }
    assert (HM0 : (0 <= IZR m)%R) by (apply IZR_le; exact Hm0).
    set (s := sqrt Y).
    assert (Hs0 : (0 <= s)%R) by apply sqrt_pos.
    assert (Hss : (s * s = Y)%R) by (apply sqrt_sqrt, HY0).
    set (m' := match y ?= (inject_Z m + (1 # 2)) * (inject_Z m + (1 # 2)) with
               | Eq => if Z.even m then m else (m + 1)%Z
               | Lt => m
               | Gt => (m + 1)%Z
               end).
    assert (Hhalf : Q2R ((inject_Z m + (1 # 2)) * (inject_Z m + (1 # 2)))
                    = ((IZR m + 1 / 2) * (IZR m + 1 / 2))%R).
    { rewrite Q2R_mult, Q2R_plus, Q2R_inject_Z, Q2R_half. reflexivity. }
    assert (Hnear : (Rabs (IZR m' - s) <= 1 / 2)%R).
    { apply Rabs_le. unfold m'.
      destruct (y ?= (inject_Z m + (1 # 2)) * (inject_Z m + (1 # 2))) eqn:C.
      - apply Qeq_alt, Qeq_eqR in C. rewrite Hhalf in C. fold Y in C.
        destruct (Z.even m); [|rewrite plus_IZR]; split; nra.
      - apply Qlt_alt, Qlt_Rlt in C. rewrite Hhalf in C. fold Y in C.
        split; nra.
      - apply Qgt_alt, Qlt_Rlt in C. rewrite Hhalf in C. fold Y in C.
        rewrite plus_IZR. split; nra. }
    set (P := Q2R (2 ^ e)).
    assert (HP : (0 < P)%R) by (apply Q2R_pos, pow2_pos).
    assert (Hroot : sqrt (Q2R q) = (s * P)%R).
    { assert (Hqy : q == y * (2 ^ e * 2 ^ e)).
      { unfold y. replace (2 * e)%Z with (e + e)%Z by lia.
        rewrite pow2_plus. field. apply pow2_nonzero. }
      rewrite (Qeq_eqR _ _ Hqy), !Q2R_mult. fold Y P.
      rewrite sqrt_mult by nra. rewrite sqrt_square by lra. reflexivity. }
    rewrite (Qeq_eqR _ _ (Qred_correct _)), Q2R_mult, Q2R_inject_Z, Hroot.
    fold P.
    replace (IZR m' * P - s * P)%R with ((IZR m' - s) * P)%R by ring.
    rewrite Rabs_mult, (Rabs_right P) by lra.
    apply Rle_trans with (1 / 2 * P)%R.
    + apply Rmult_le_compat_r; [lra | exact Hnear].
    + assert (Hb : (1 # 2) * 2 ^ e <= 2 ^ (j - 53)).
      { replace (j - 53)%Z with (-1 + (j - 52))%Z by lia.
        rewrite pow2_plus. change (2 ^ (-1)) with (1 # 2).
        apply Qmult_le_l; [reflexivity | apply pow2_le, He]. }
      apply Qle_Rle in Hb. rewrite Q2R_mult, Q2R_half in Hb. exact Hb.
Qed.

Lemma toDouble_exact (n : Z) :
  (Z.abs n <= 2 ^ 53)%Z -> JS.toDouble n = n.
Proof.
  intro H. unfold JS.toDouble. rewrite (round64_inject_Z n H).
  apply Qfloor_Z.
Qed.

(** Beyond [2 ^ 53] the nearest double stays beyond the range of dates. *)
Lemma toDouble_large (n : Z) :
  (2 ^ 53 < Z.abs n <= 2 ^ 54)%Z ->
  (JS.maxTime < Z.abs (JS.toDouble n))%Z.
Proof.
  intros [Hlo Hhi]. unfold JS.toDouble.
  assert (Hk : Qabs (inject_Z n) <= 2 ^ 54).
  { rewrite Qabs_inject_Z, <- (pow2_inject 54) by lia.
    rewrite <- Zle_Qle. exact Hhi. }
  pose proof (round64_error (inject_Z n) 54 ltac:(lia) Hk) as He.
  change (2 ^ (54 - 53)) with 2 in He.
  apply Qabs_Qle_condition in He. destruct He as [He1 He2].
  set (r := JS.round64 (inject_Z n)) in *.
  pose proof (Qfloor_le r) as Hf1. pose proof (Qlt_floor r) as Hf2.
  rewrite inject_Z_plus in Hf2. change (inject_Z 1) with 1 in Hf2.
  unfold JS.maxTime.
  destruct (Z.abs_spec n) as [[Hn Ha]|[Hn Ha]]; rewrite Ha in Hlo.
  - assert (inject_Z (2 ^ 53) < inject_Z n) by (rewrite <- Zlt_Qlt; lia).
    assert (inject_Z (2 ^ 53 - 3) < inject_Z (Qfloor r)).
    { change (inject_Z (2 ^ 53 - 3)) with (inject_Z (2 ^ 53) - 3). lra. }
    rewrite <- Zlt_Qlt in H0. lia.
  - assert (inject_Z n < inject_Z (- 2 ^ 53)) by (rewrite <- Zlt_Qlt; lia).
    assert (inject_Z (Qfloor r) < inject_Z (- 2 ^ 53 + 3)).
    { change (inject_Z (- 2 ^ 53 + 3)) with (inject_Z (- 2 ^ 53) + 3). lra. }
    rewrite <- Zlt_Qlt in H0. lia.
Qed.

(** For a clock in the range of dates and a period whose milliseconds are a
    safe integer, the cutoff is the exact difference, when that is a
    date. *)
Lemma cutoffDate_exact (now periodDays : Z) :
  (Z.abs now <= JS.maxTime)%Z ->
  (Z.abs (periodDays * JS.msPerDay) <= JS.maxSafeInteger)%Z ->
  Window.cutoffDate now periodDays = JS.timeClip (now - periodDays * JS.msPerDay).
Proof.
  unfold JS.maxTime, JS.maxSafeInteger, JS.msPerDay. intros Hnow Hp.
  unfold Window.cutoffDate, JS.mulZ, JS.subZ.
  rewrite (toDouble_exact (periodDays * 24)) by lia.
  rewrite (toDouble_exact (periodDays * 24 * 60)) by lia.
  rewrite (toDouble_exact (periodDays * 24 * 60 * 60)) by lia.
  rewrite (toDouble_exact (periodDays * 24 * 60 * 60 * 1000)) by lia.
  replace (periodDays * 24 * 60 * 60 * 1000)%Z
    with (periodDays * (24 * 60 * 60 * 1000))%Z by lia.
  set (v := (now - periodDays * (24 * 60 * 60 * 1000))%Z).
  destruct (Z_le_gt_dec (Z.abs v) (2 ^ 53)) as [Hv|Hv].
  - rewrite (toDouble_exact v Hv). reflexivity.
  - assert (Hbig : (2 ^ 53 < Z.abs v <= 2 ^ 54)%Z) by (unfold v in *; lia).
    pose proof (toDouble_large v Hbig) as Hd.
    unfold JS.timeClip, JS.maxTime in *.
    destruct (Z.leb_spec (Z.abs (JS.toDouble v)) 8640000000000000); [lia|].
    destruct (Z.leb_spec (Z.abs v) 8640000000000000); [lia|].
    reflexivity.
Qed.

Local Close Scope Q_scope.

(* ================================================================== *)
(** ** Sorting *)

Section SortFacts.

Context {A : Type} (comparefn : A -> A -> Q).

Lemma insert_perm (x : A) (l : list A) :
  Permutation (JS.insert comparefn x l) (x :: l).
Proof.
  induction l as [|y l IH]; simpl.
  - apply Permutation_refl.
  - destruct (JS.Qltb (comparefn x y) 0).
    + apply Permutation_refl.
    + eapply perm_trans; [apply perm_skip, IH | apply perm_swap].
Qed.

Lemma sort_acc_perm (l acc : list A) :
  Permutation (fold_left (fun a x => JS.insert comparefn x a) l acc)
              (l ++ acc)%list.
Proof.
  revert acc; induction l as [|x l IH]; intro acc; simpl.
  - apply Permutation_refl.
  - eapply perm_trans; [apply IH|].
    eapply perm_trans; [apply Permutation_app_head, insert_perm|].
    apply Permutation_sym, Permutation_middle.
Qed.

Lemma sort_perm (l : list A) : Permutation (JS.sort comparefn l) l.
Proof.
  unfold JS.sort.
  eapply perm_trans; [apply sort_acc_perm|].
  rewrite app_nil_r. apply Permutation_refl.
Qed.

Lemma sort_length (l : list A) :
  List.length (JS.sort comparefn l) = List.length l.
Proof. apply Permutation_length, sort_perm. Qed.

End SortFacts.

Lemma Qltb_true (a b : Q) : JS.Qltb a b = true <-> (a < b)%Q.
Proof.
  unfold JS.Qltb. rewrite negb_true_iff.
  split.
  - intro H. apply Qnot_le_lt. intro Hle.
    apply Qle_bool_iff in Hle. congruence.
  - intro H. destruct (Qle_bool b a) eqn:E; [|reflexivity].
    apply Qle_bool_iff in E. exfalso. exact (Qlt_not_le _ _ H E).
Qed.

Lemma Qltb_false (a b : Q) : JS.Qltb a b = false <-> (b <= a)%Q.
Proof.
  unfold JS.Qltb. rewrite negb_false_iff. apply Qle_bool_iff.
Qed.

Lemma ascending_before (a b : Q) :
  JS.Qltb (Stats.ascending a b) 0 = true <-> (a < b)%Q.
Proof.
  rewrite Qltb_true. unfold Stats.ascending. split; intro H.
  - apply (Qplus_lt_l _ _ (- b)). ring_simplify (b + - b)%Q.
    setoid_replace (a + - b)%Q with (a - b)%Q by ring. exact H.
  - apply (Qplus_lt_l _ _ (- b)) in H. ring_simplify (b + - b)%Q in H.
    setoid_replace (a + - b)%Q with (a - b)%Q in H by ring. exact H.
Qed.

Lemma insert_ascending_sorted (x : Q) (l : list Q) :
  Sorted Qle l -> Sorted Qle (JS.insert Stats.ascending x l).
Proof.
  induction l as [|y l IH]; intro Hs; simpl.
  - repeat constructor.
  - destruct (JS.Qltb (Stats.ascending x y) 0) eqn:E.
    + apply ascending_before in E.
      constructor; [exact Hs | constructor; apply Qlt_le_weak, E].
    + assert (Hyx : (y <= x)%Q).
      { apply Qnot_lt_le. intro Hlt. apply ascending_before in Hlt. congruence. }
      inversion Hs as [|? ? Hs' Hhd]; subst.
      constructor; [apply IH, Hs'|].
      destruct l as [|z l]; simpl.
      * constructor; exact Hyx.
      * destruct (JS.Qltb (Stats.ascending x z) 0); constructor; [exact Hyx|].
        inversion Hhd; assumption.
Qed.

Lemma sort_ascending_acc_sorted (l acc : list Q) :
  Sorted Qle acc ->
  Sorted Qle (fold_left (fun a x => JS.insert Stats.ascending x a) l acc).
Proof.
  revert acc; induction l as [|x l IH]; intros acc Hs; simpl.
  - exact Hs.
  - apply IH, insert_ascending_sorted, Hs.
Qed.

Lemma sortedRates_sorted (rates : list Q) : Sorted Qle (Stats.sortedRates rates).
Proof. apply sort_ascending_acc_sorted. constructor. Qed.

Lemma sortedRates_perm (rates : list Q) :
  Permutation (Stats.sortedRates rates) rates.
Proof. apply sort_perm. Qed.

Lemma nth_error_split_at {A} (l : list A) (n : nat) :
  (n < List.length l)%nat ->
  exists lo m hi, l = (lo ++ m :: hi)%list /\ List.length lo = n /\
                  nth_error l n = Some m.
Proof.
  intro Hn.
  destruct (nth_error l n) as [m|] eqn:E.
  - destruct (nth_error_split l n E) as (lo & hi & Hl & Hlen).
    exists lo, m, hi. auto.
  - apply nth_error_None in E. lia.
Qed.

(* ================================================================== *)
(** ** The median *)

(** C1, as the claim words it, fails: on the pass rates 10, 20, 30, 40 the
    script's median is 30, while the lower-middle element of the sorted list
    is 20. *)
Lemma median_is_not_lower_middle :
  Stats.medianPassRate [10; 20; 30; 40]%Q = Some 30%Q /\
  lowerMiddle (Stats.sortedRates [10; 20; 30; 40]%Q) = Some 20%Q /\
  Stats.medianPassRate [10; 20; 30; 40]%Q
    <> lowerMiddle (Stats.sortedRates [10; 20; 30; 40]%Q) /\
  ~ (30 == 20)%Q.
Proof.
  repeat split; try reflexivity; discriminate.
Qed.

(** C1 (amended): for a window of even length [2k > 0] the median is the
    element at zero-based index [k] of the ascending sorted pass rates, the
    upper of the two middle elements: [k] sorted elements precede it and
    [k - 1] follow it.  For 10, 20, 30, 40 it is 30. *)
Theorem median_even_is_upper_middle (rates : list Q) (k : nat) :
  List.length rates = (2 * k)%nat -> (0 < k)%nat ->
  exists lo m hi,
    Stats.sortedRates rates = (lo ++ m :: hi)%list /\
    List.length lo = k /\ List.length hi = (k - 1)%nat /\
    Stats.medianPassRate rates = Some m /\
    Sorted Qle (Stats.sortedRates rates) /\
    Permutation (Stats.sortedRates rates) rates /\
    Stats.medianPassRate [10; 20; 30; 40]%Q = Some 30%Q.
Proof.
  intros Hlen Hk.
  assert (Hsl : List.length (Stats.sortedRates rates) = List.length rates)
    by apply sort_length.
  destruct (nth_error_split_at (Stats.sortedRates rates) k) as
    (lo & m & hi & Hsplit & Hlo & Hnth); [lia|].
  exists lo, m, hi.
  repeat split.
  - exact Hsplit.
  - exact Hlo.
  - apply (f_equal (@List.length Q)) in Hsplit.
    rewrite length_app in Hsplit. simpl in Hsplit. lia.
  - unfold Stats.medianPassRate, JS.index. cbv zeta.
    rewrite Hsl, Hlen.
    replace (Z.of_nat (2 * k) / 2) with (Z.of_nat k).
    + destruct (Z.of_nat k <? 0) eqn:E; [apply Z.ltb_lt in E; lia|].
      rewrite Nat2Z.id. exact Hnth.
    + rewrite Nat2Z.inj_mul. simpl (Z.of_nat 2).
      rewrite Z.mul_comm, Z.div_mul; lia.
  - apply sortedRates_sorted.
  - apply sortedRates_perm.
Qed.

Lemma median_even_is_upper_middle_witness :
  exists lo m hi,
    Stats.sortedRates [10; 20; 30; 40]%Q = (lo ++ m :: hi)%list /\
    List.length lo = 2%nat /\ List.length hi = (2 - 1)%nat /\
    Stats.medianPassRate [10; 20; 30; 40]%Q = Some m /\
    Sorted Qle (Stats.sortedRates [10; 20; 30; 40]%Q) /\
    Permutation (Stats.sortedRates [10; 20; 30; 40]%Q) [10; 20; 30; 40]%Q /\
    Stats.medianPassRate [10; 20; 30; 40]%Q = Some 30%Q.
Proof.
  apply (median_even_is_upper_middle [10; 20; 30; 40]%Q 2).
  - reflexivity.
  - lia.
Defined.

(* ================================================================== *)
(** ** The previous report in single mode *)

Lemma indexOfFrom_head (i : Z) (x : string) (l : list string) :
  JS.indexOfFrom i x (x :: l) = i.
Proof. simpl. rewrite String.eqb_refl. reflexivity. Qed.

(** Whatever else the project directory holds, the newest directory name is
    at index 0 of the descending list, where the guard [currentIndex > 0]
    declines to read any previous metadata. *)
Lemma newest_report_has_no_previous (entries : list (string * Entry))
    (ts : string) (older : list string) :
  Single.allReports entries = ts :: older ->
  Single.previousMetadata entries ts = ret None.
Proof.
  intro H. unfold Single.previousMetadata. cbv zeta. rewrite H.
  unfold JS.indexOf. rewrite indexOfFrom_head. reflexivity.
Qed.

(** C2 (defect in the code): with the reports of 1 January (85%) and
    2 January (90%) on disk, analysing the report of 2 January reads no
    previous metadata: the baseline is 0 and the delta is 90, although the
    record of 1 January immediately precedes it.  Analysing a report that has
    a newer neighbour does read the preceding record, and analysing the
    oldest of several throws. *)
Theorem newest_report_baseline_is_zero :
  Single.allReports Sample.twoReports = ["20240102-090000"; "20240101-235959"] /\
  Trend.readMetadata Sample.twoReports "20240101-235959" = Some Sample.day1 /\
  passRateOf Sample.day1 = 85%Q /\
  Single.previousMetadata Sample.twoReports "20240102-090000" = ret None /\
  Single.previousPassRate None = 0%Q /\
  Single.passRateChange Sample.day2 None = 90%Q /\
  Single.previousMetadata Sample.threeReports "20240102-090000"
    = ret (Some Sample.day1) /\
  Single.previousMetadata Sample.twoReports "20240101-235959" = throw.
Proof. repeat split; vm_compute; reflexivity. Qed.

(* ================================================================== *)
(** ** The trend window *)

Lemma Date_parse_midnight (s : string) (t : Z) :
  JS.Date_parse s = Some t -> exists d, t = d * JS.msPerDay.
Proof.
  unfold JS.Date_parse. intro H.
  repeat match type of H with
         | (if ?c then _ else _) = _ => destruct c; try discriminate
         | match ?x with _ => _ end = _ => destruct x; try discriminate
         end.
  injection H as <-. eexists. reflexivity.
Qed.

Lemma isoDay_first8 (ts : string) :
  Window.isoDay (JS.substr ts 0 8) = Window.isoDay ts.
Proof.
  unfold Window.isoDay, JS.substr.
  do 8 (destruct ts as [|? ts]; [reflexivity|]).
  destruct ts; reflexivity.
Qed.

Lemma timeClip_Some (v cutoff : Z) :
  JS.timeClip v = Some cutoff <-> cutoff = v /\ Z.abs cutoff <= JS.maxTime.
Proof.
  unfold JS.timeClip.
  destruct (Z.abs v <=? JS.maxTime) eqn:E.
  - apply Z.leb_le in E. split.
    + intro H. injection H as <-. auto.
    + intros [-> _]. reflexivity.
  - apply Z.leb_gt in E. split; [discriminate|]. intros [-> H]. lia.
Qed.

Lemma timeClip_None (v : Z) :
  JS.timeClip v = None <-> JS.maxTime < Z.abs v.
Proof.
  unfold JS.timeClip.
  destruct (Z.abs v <=? JS.maxTime) eqn:E.
  - apply Z.leb_le in E. split; [discriminate | lia].
  - apply Z.leb_gt in E. split; auto.
Qed.

(** C3, as the claim words it, fails: at noon UTC on 8 January with a window
    of 7 days the cutoff is noon on 1 January; a record stamped
    20240101-235959 lies on that boundary day and is left out. *)
Lemma boundary_day_record_is_excluded :
  Window.reportDate (timestamp Sample.day1) = Some (19723 * JS.msPerDay) /\
  Window.cutoffDate Sample.noon8Jan 7
    = Some (19723 * JS.msPerDay + 12 * 60 * 60 * 1000) /\
  utcDay (19723 * JS.msPerDay)
    = utcDay (19723 * JS.msPerDay + 12 * 60 * 60 * 1000) /\
  Window.inWindow Sample.noon8Jan 7 Sample.day1 = false /\
  Window.recentReports Sample.noon8Jan 7 [Sample.day1; Sample.day2]
    = [Sample.day2].
Proof. repeat split; vm_compute; reflexivity. Qed.

(** C3 (amended): the record's side of the comparison has day granularity
    (only the first eight characters count, and they denote midnight UTC),
    but the cutoff keeps its time of day.  For a clock in the range of
    dates and a period whose length in milliseconds is a safe integer, the
    cutoff is [now] minus [period] days when that is a date, within 8.64e15
    milliseconds of the epoch, and no date otherwise; without a cutoff date
    no record is in the window.  With one, a record is in the window
    exactly when midnight of its day is at or after the cutoff; so a record
    on the boundary day is in the window only when the cutoff itself is a
    midnight, and every record of a later day is in the window. *)
Theorem window_compares_midnight_with_cutoff
    (now periodDays : Z) (report : Metadata) (t : Z) :
  Z.abs now <= JS.maxTime ->
  Z.abs (periodDays * JS.msPerDay) <= JS.maxSafeInteger ->
  Window.reportDate (timestamp report) = Some t ->
  Window.reportDate (JS.substr (timestamp report) 0 8) = Some t /\
  t mod JS.msPerDay = 0 /\
  (Window.cutoffDate now periodDays = None <->
   JS.maxTime < Z.abs (now - periodDays * JS.msPerDay)) /\
  (Window.cutoffDate now periodDays = None ->
   Window.inWindow now periodDays report = false) /\
  (forall cutoff,
     Window.cutoffDate now periodDays = Some cutoff ->
     cutoff = now - periodDays * JS.msPerDay /\
     (Window.inWindow now periodDays report = true <-> cutoff <= t) /\
     (utcDay t = utcDay cutoff ->
      (Window.inWindow now periodDays report = true
         <-> cutoff mod JS.msPerDay = 0)) /\
     (utcDay cutoff < utcDay t ->
      Window.inWindow now periodDays report = true)).
Proof.
  intros Hnow Hperiod Ht.
  pose proof (cutoffDate_exact now periodDays Hnow Hperiod) as Hexact.
  destruct (Date_parse_midnight _ _ Ht) as [d Hd].
  assert (Hms : JS.msPerDay = 86400000) by reflexivity.
  split; [unfold Window.reportDate in *; rewrite isoDay_first8; exact Ht|].
  split; [subst t; apply Z.mod_mul; discriminate|].
  split; [rewrite Hexact; apply timeClip_None|].
  split.
  { intro Hnone. unfold Window.inWindow. rewrite Ht, Hnone. reflexivity. }
  intros c Hc.
  assert (Hin : Window.inWindow now periodDays report = true <-> c <= t).
  { unfold Window.inWindow. rewrite Ht, Hc. apply Z.leb_le. }
  assert (Hday : utcDay t = d).
  { unfold utcDay. subst t. apply Z.div_mul. discriminate. }
  pose proof (Z.div_mod c JS.msPerDay ltac:(discriminate)) as Hdm.
  pose proof (Z.mod_pos_bound c JS.msPerDay ltac:(reflexivity)) as Hb.
  split; [rewrite Hexact in Hc; apply timeClip_Some in Hc; apply Hc|].
  split; [exact Hin|]. split.
  - intro Hsame. rewrite Hin. unfold utcDay in *. rewrite Hms in *.
    subst t. split; intro H; lia.
  - rewrite Hin. unfold utcDay in *. rewrite Hms in *. subst t. nia.
Qed.

Lemma window_compares_midnight_with_cutoff_witness :
  Window.reportDate (JS.substr (timestamp Sample.day2) 0 8)
    = Some (19724 * JS.msPerDay) /\
  (19724 * JS.msPerDay) mod JS.msPerDay = 0 /\
  (Window.cutoffDate Sample.noon8Jan 7 = None <->
   JS.maxTime < Z.abs (Sample.noon8Jan - 7 * JS.msPerDay)) /\
  (Window.cutoffDate Sample.noon8Jan 7 = None ->
   Window.inWindow Sample.noon8Jan 7 Sample.day2 = false) /\
  (forall cutoff,
     Window.cutoffDate Sample.noon8Jan 7 = Some cutoff ->
     cutoff = Sample.noon8Jan - 7 * JS.msPerDay /\
     (Window.inWindow Sample.noon8Jan 7 Sample.day2 = true
        <-> cutoff <= 19724 * JS.msPerDay) /\
     (utcDay (19724 * JS.msPerDay) = utcDay cutoff ->
      (Window.inWindow Sample.noon8Jan 7 Sample.day2 = true
         <-> cutoff mod JS.msPerDay = 0)) /\
     (utcDay cutoff < utcDay (19724 * JS.msPerDay) ->
      Window.inWindow Sample.noon8Jan 7 Sample.day2 = true)).
Proof.
  apply (window_compares_midnight_with_cutoff
           Sample.noon8Jan 7 Sample.day2 (19724 * JS.msPerDay)).
  - unfold Sample.noon8Jan, JS.maxTime. lia.
  - unfold JS.msPerDay, JS.maxSafeInteger. lia.
  - vm_compute. reflexivity.
Defined.

(* ================================================================== *)
(** ** String replacement *)

Lemma dropPrefix_app (p rest : string) : JS.dropPrefix p (p ++ rest) = Some rest.
Proof.
  induction p as [|a p IH]; simpl.
  - destruct rest; reflexivity.
  - rewrite Ascii.eqb_refl. exact IH.
Qed.

Lemma dropPrefix_Some (p s rest : string) :
  JS.dropPrefix p s = Some rest -> s = p ++ rest.
Proof.
  revert s; induction p as [|a p IH]; intros s H.
  - destruct s; simpl in H; injection H as <-; reflexivity.
  - destruct s as [|b s]; simpl in H; [discriminate|].
    destruct (Ascii.eqb a b) eqn:E; [|discriminate].
    apply Ascii.eqb_eq in E. subst b. simpl. f_equal. apply IH, H.
Qed.

Lemma splitAtFirst_unfold (search s : string) :
  JS.splitAtFirst search s =
  match JS.dropPrefix search s with
  | Some following => Some ("", following)
  | None =>
      match s with
      | EmptyString => None
      | String c s' =>
          match JS.splitAtFirst search s' with
          | Some (preceding, following) => Some (String c preceding, following)
          | None => None
          end
      end
  end.
Proof. destruct s; reflexivity. Qed.

Lemma splitAtFirst_leftmost (p search q : string) :
  leftmost p search q ->
  JS.splitAtFirst search (p ++ search ++ q) = Some (p, q).
Proof.
  induction p as [|c p IH]; intro Hmin; rewrite splitAtFirst_unfold.
  - simpl. rewrite dropPrefix_app. reflexivity.
  - destruct (JS.dropPrefix search (String c p ++ search ++ q)) as [r|] eqn:E.
    + apply dropPrefix_Some in E.
      specialize (Hmin "" r E). simpl in Hmin. lia.
    + simpl. rewrite IH; [reflexivity|].
      intros p' q' Heq.
      specialize (Hmin (String c p') q'). simpl in Hmin.
      rewrite Heq in Hmin. specialize (Hmin eq_refl). lia.
Qed.

Lemma splitAtFirst_Some (search s p q : string) :
  JS.splitAtFirst search s = Some (p, q) -> s = p ++ search ++ q.
Proof.
  revert p q; induction s as [|c s IH]; intros p q H;
    rewrite splitAtFirst_unfold in H.
  - destruct (JS.dropPrefix search "") as [r|] eqn:E; [|discriminate].
    injection H as <- <-. apply dropPrefix_Some in E. exact E.
  - destruct (JS.dropPrefix search (String c s)) as [r|] eqn:E.
    + injection H as <- <-. apply dropPrefix_Some in E. exact E.
    + destruct (JS.splitAtFirst search s) as [[p0 q0]|] eqn:E'; [|discriminate].
      injection H as <- <-. simpl. f_equal. apply IH. reflexivity.
Qed.

Lemma splitAtFirst_None (search s : string) :
  JS.splitAtFirst search s = None <->
  (forall p q, s <> p ++ search ++ q).
Proof.
  split.
  - revert search; induction s as [|c s IH]; intros search H p q Heq;
      rewrite splitAtFirst_unfold in H.
    + destruct p; simpl in Heq; [|discriminate].
      rewrite Heq, dropPrefix_app in H. discriminate.
    + destruct (JS.dropPrefix search (String c s)) eqn:E; [discriminate|].
      destruct p as [|c' p]; simpl in Heq.
      * rewrite Heq, dropPrefix_app in E. discriminate.
      * injection Heq as -> Heq.
        destruct (JS.splitAtFirst search s) as [[p0 q0]|] eqn:E'; [discriminate|].
        exact (IH search E' p q Heq).
  - intro H. destruct (JS.splitAtFirst search s) as [[p q]|] eqn:E; [|reflexivity].
    apply splitAtFirst_Some in E. exfalso. exact (H p q E).
Qed.

Lemma getSubstitution_noDollar (matched preceding following value : string) :
  noDollar value = true ->
  JS.getSubstitution matched preceding following value = value.
Proof.
  induction value as [|c v IH]; simpl; intro H; [reflexivity|].
  apply andb_true_iff in H. destruct H as [Hc Hv].
  apply negb_true_iff in Hc. rewrite Hc. f_equal. apply IH, Hv.
Qed.

(** C4, as the claim words it, fails: a template that names [{project}]
    twice keeps the second occurrence after rendering. *)
Lemma second_occurrence_is_left_in_place :
  JS.replace "{project} vs {project}" "{project}" "demo" = "demo vs {project}" /\
  Prompt.singleUserPrompt "{project} vs {project}" "demo" "20240102-090000"
    Sample.day2 0%Q 90%Q = "demo vs {project}" /\
  Prompt.trendUserPrompt "{project} vs {project}" "demo" 7 [Sample.day2] 90%Q
    = "demo vs {project}" /\
  "demo vs {project}" <> "demo vs demo".
Proof. repeat split; try (vm_compute; reflexivity). discriminate. Qed.

(** C4 (amended): each step of the renderer replaces the leftmost
    occurrence of its placeholder and nothing else: the text before and the
    text after that occurrence, later occurrences included, go unchanged to
    the following steps, and a template without the placeholder is passed on
    as it is.  The inserted text is the mapped value with JavaScript's
    [$$], [$&], [$`] and [$'] patterns expanded; a value without [$] is
    inserted verbatim.  Rendering is a function from strings to a string:
    it has no events. *)
Theorem substitute_replaces_leftmost_occurrence_only
    (p placeholder q value : string) (steps : list (string * string)) :
  leftmost p placeholder q ->
  Prompt.substitute (p ++ placeholder ++ q) ((placeholder, value) :: steps)
    = Prompt.substitute
        (p ++ JS.getSubstitution placeholder p q value ++ q) steps /\
  (noDollar value = true ->
   Prompt.substitute (p ++ placeholder ++ q) ((placeholder, value) :: steps)
     = Prompt.substitute (p ++ value ++ q) steps) /\
  (forall template,
     (forall p' q', template <> p' ++ placeholder ++ q') ->
     Prompt.substitute template ((placeholder, value) :: steps)
       = Prompt.substitute template steps).
Proof.
  intro Hmin.
  assert (Hstep : JS.replace (p ++ placeholder ++ q) placeholder value
                  = p ++ JS.getSubstitution placeholder p q value ++ q).
  { unfold JS.replace. rewrite (splitAtFirst_leftmost _ _ _ Hmin). reflexivity. }
  repeat split.
  - unfold Prompt.substitute. simpl. rewrite Hstep. reflexivity.
  - intro Hd. unfold Prompt.substitute. simpl. rewrite Hstep.
    rewrite (getSubstitution_noDollar _ _ _ _ Hd). reflexivity.
  - intros template Habsent.
    assert (Hsame : JS.replace template placeholder value = template).
    { unfold JS.replace.
      rewrite (proj2 (splitAtFirst_None placeholder template) Habsent).
      reflexivity. }
    unfold Prompt.substitute. simpl. rewrite Hsame. reflexivity.
Qed.

Lemma substitute_replaces_leftmost_occurrence_only_witness :
  Prompt.substitute ("Run of " ++ "{project}" ++ " vs {project}")
    [("{project}", "demo"); ("{branch}", "main")]
    = Prompt.substitute
        ("Run of " ++ JS.getSubstitution "{project}" "Run of " " vs {project}"
                         "demo" ++ " vs {project}")
        [("{branch}", "main")] /\
  (noDollar "demo" = true ->
   Prompt.substitute ("Run of " ++ "{project}" ++ " vs {project}")
     [("{project}", "demo"); ("{branch}", "main")]
     = Prompt.substitute ("Run of " ++ "demo" ++ " vs {project}")
         [("{branch}", "main")]) /\
  (forall template,
     (forall p' q', template <> p' ++ "{project}" ++ q') ->
     Prompt.substitute template [("{project}", "demo"); ("{branch}", "main")]
       = Prompt.substitute template [("{branch}", "main")]).
Proof.
  apply (substitute_replaces_leftmost_occurrence_only
           "Run of " "{project}" " vs {project}" "demo" [("{branch}", "main")]).
  intros p' q' Heq.
  do 7 (destruct p' as [|? p'];
        [simpl in Heq; discriminate | simpl in Heq; injection Heq as _ Heq]).
  simpl. lia.
Defined.

(* ================================================================== *)
(** ** Runs that end before the endpoint is contacted *)

Lemma failedQuietly_catch {A} (r : Eff A) :
  failedQuietly r -> catchExit1 r = ([], Exited 1).
Proof.
  destruct r as [evs o]. intros [Hev [Ho|Ho]]; simpl in *; subst; reflexivity.
Qed.

Lemma bind_done {A B} (a : A) (f : A -> Eff B) : bind ([], Done a) f = f a.
Proof. unfold bind. destruct (f a). reflexivity. Qed.

Lemma call_without_key (w : World) (systemPrompt userPrompt : string) :
  JS.truthy (ANTHROPIC_API_KEY w) = false ->
  callAnthropicAPI w systemPrompt userPrompt = throw.
Proof. intro H. unfold callAnthropicAPI. rewrite H. reflexivity. Qed.

Lemma previousMetadata_quiet (entries : list (string * Entry)) (ts : string) :
  fst (Single.previousMetadata entries ts) = [] /\
  forall code, snd (Single.previousMetadata entries ts) <> Exited code.
Proof.
  unfold Single.previousMetadata. cbv zeta.
  destruct (0 <? _); [|split; [reflexivity|discriminate]].
  destruct (JS.index _ _) as [previous|]; [|split; [reflexivity|discriminate]].
  destruct (metadataFileOf entries previous) as [[|m]|];
    split; try reflexivity; discriminate.
Qed.

Lemma single_without_key (w : World) (cfg : PromptsConfig) (project : string)
    (timestamp : option string) :
  JS.truthy (ANTHROPIC_API_KEY w) = false ->
  failedQuietly (Single.analyzeSingleReport w cfg project timestamp).
Proof.
  intro Hkey. unfold Single.analyzeSingleReport, failedQuietly.
  destruct timestamp as [ts|]; [|simpl; auto].
  destruct (JS.falsyS ts); [simpl; auto|].
  cbv zeta.
  destruct (metadataFileOf _ ts) as [[|metadata]|]; try (simpl; auto; fail).
  destruct (previousMetadata_quiet
              match lookup project (reports w) with
              | Some es => es
              | None => []
              end ts) as [Hev Hex].
  destruct (Single.previousMetadata _ ts) as [evs [previous| |code]];
    simpl in Hev; subst evs.
  - rewrite bind_done, (call_without_key w _ _ Hkey). simpl. auto.
  - simpl. auto.
  - exfalso. exact (Hex code eq_refl).
Qed.

Lemma trend_without_key (w : World) (cfg : PromptsConfig) (project : string)
    (period : option string) :
  JS.truthy (ANTHROPIC_API_KEY w) = false ->
  failedQuietly (Trend.analyzeTrend w cfg project period).
Proof.
  intro Hkey. unfold Trend.analyzeTrend, failedQuietly. cbv zeta.
  destruct (lookup project (reports w)) as [entries|]; [|simpl; auto].
  destruct (_ =? 0)%nat; [simpl; auto|].
  destruct (_ =? 0)%nat; [simpl; auto|].
  destruct (Stats.medianPassRate _); [|simpl; auto].
  rewrite (call_without_key w _ _ Hkey). simpl. auto.
Qed.

(** C5, as the claim words it, fails: with an unknown type and no
    [analysis/demo] directory yet, the run creates that directory before it
    looks at the type and exits with code 1. *)
Lemma unknown_type_still_creates_directory :
  option_of (parseArgs Sample.weeklyArgs []) "type" = Some "weekly" /\
  script Sample.keyed Sample.weeklyArgs = ([Mkdir "analysis/demo"], Exited 1) /\
  existsb isMkdir (events (script Sample.keyed Sample.weeklyArgs)) = true.
Proof. repeat split; vm_compute; reflexivity. Qed.

(** C5 (amended): when the type is neither [single] nor [trend] the run
    exits with code 1, sends no request and writes no file.  The one thing it
    may do to the file system is to create [analysis/<project>] when that
    directory is absent, which the script does before it looks at the type. *)
Theorem unknown_type_exits_without_request_or_write
    (w : World) (argv : list string) :
  option_of (parseArgs argv []) "type" <> Some "single" ->
  option_of (parseArgs argv []) "type" <> Some "trend" ->
  exitCode (script w argv) = 1 /\
  existsb isNetworkCall (events (script w argv)) = false /\
  existsb isFileWrite (events (script w argv)) = false /\
  (events (script w argv) = [] \/
   exists project,
     option_of (parseArgs argv []) "project" = Some project /\
     existsb (String.eqb project) (analysisDirs w) = false /\
     events (script w argv) = [Mkdir (pathJoin [ANALYSIS_DIR; project])]).
Proof.
  intros Hsingle Htrend. unfold script. cbv zeta.
  destruct (option_of (parseArgs argv []) "project") as [project|];
    [|repeat split; auto].
  destruct (option_of (parseArgs argv []) "type") as [type|];
    [|repeat split; auto].
  destruct (JS.falsyS project || JS.falsyS type); [repeat split; auto|].
  destruct (promptsFile w) as [cfg|]; [|repeat split; auto].
  destruct (String.eqb type "single") eqn:E1.
  { apply String.eqb_eq in E1. subst. congruence. }
  destruct (String.eqb type "trend") eqn:E2.
  { apply String.eqb_eq in E2. subst. congruence. }
  destruct (existsb (String.eqb project) (analysisDirs w)) eqn:Edir.
  - repeat split; auto.
  - repeat split; try reflexivity.
    right. exists project. repeat split; auto.
Qed.

Lemma unknown_type_exits_without_request_or_write_witness :
  exitCode (script Sample.keyed Sample.weeklyArgs) = 1 /\
  existsb isNetworkCall (events (script Sample.keyed Sample.weeklyArgs)) = false /\
  existsb isFileWrite (events (script Sample.keyed Sample.weeklyArgs)) = false /\
  (events (script Sample.keyed Sample.weeklyArgs) = [] \/
   exists project,
     option_of (parseArgs Sample.weeklyArgs []) "project" = Some project /\
     existsb (String.eqb project) (analysisDirs Sample.keyed) = false /\
     events (script Sample.keyed Sample.weeklyArgs)
       = [Mkdir (pathJoin [ANALYSIS_DIR; project])]).
Proof.
  apply (unknown_type_exits_without_request_or_write
           Sample.keyed Sample.weeklyArgs).
  - vm_compute. discriminate.
  - vm_compute. discriminate.
Defined.

(** C7: when the credential is not set, every run ends with exit code 1 and
    without a request to the endpoint; [callAnthropicAPI] itself throws
    before it builds the request.  (No file is written either.) *)
Theorem missing_credential_fails_before_any_request
    (w : World) (argv : list string) :
  ANTHROPIC_API_KEY w = None ->
  (forall systemPrompt userPrompt,
     callAnthropicAPI w systemPrompt userPrompt = throw) /\
  exitCode (script w argv) = 1 /\
  exitCode (script w argv) <> 0 /\
  existsb isNetworkCall (events (script w argv)) = false /\
  existsb isFileWrite (events (script w argv)) = false.
Proof.
  intro Hnone.
  assert (Hkey : JS.truthy (ANTHROPIC_API_KEY w) = false)
    by (rewrite Hnone; reflexivity).
  split; [intros; apply call_without_key, Hkey|].
  assert (H : exitCode (script w argv) = 1 /\
              existsb isNetworkCall (events (script w argv)) = false /\
              existsb isFileWrite (events (script w argv)) = false).
  { unfold script. cbv zeta.
    destruct (option_of (parseArgs argv []) "project") as [project|];
      [|repeat split; auto].
    destruct (option_of (parseArgs argv []) "type") as [type|];
      [|repeat split; auto].
    destruct (JS.falsyS project || JS.falsyS type); [repeat split; auto|].
    destruct (promptsFile w) as [cfg|]; [|repeat split; auto].
    assert (Hmain :
      catchExit1
        (if String.eqb type "single"
         then Single.analyzeSingleReport w cfg project
                (option_of (parseArgs argv []) "timestamp")
         else if String.eqb type "trend"
              then Trend.analyzeTrend w cfg project
                     (option_of (parseArgs argv []) "period")
              else exit 1) = ([], Exited 1)).
    { apply failedQuietly_catch.
      destruct (String.eqb type "single");
        [apply single_without_key, Hkey|].
      destruct (String.eqb type "trend");
        [apply trend_without_key, Hkey|].
      split; simpl; auto. }
    rewrite Hmain.
    destruct (existsb (String.eqb project) (analysisDirs w));
      repeat split; reflexivity. }
  destruct H as (H1 & H2 & H3).
  repeat split; auto. rewrite H1. discriminate.
Qed.

Lemma missing_credential_fails_before_any_request_witness :
  (forall systemPrompt userPrompt,
     callAnthropicAPI Sample.keyless systemPrompt userPrompt = throw) /\
  exitCode (script Sample.keyless Sample.singleArgs) = 1 /\
  exitCode (script Sample.keyless Sample.singleArgs) <> 0 /\
  existsb isNetworkCall (events (script Sample.keyless Sample.singleArgs)) = false /\
  existsb isFileWrite (events (script Sample.keyless Sample.singleArgs)) = false.
Proof.
  apply (missing_credential_fails_before_any_request
           Sample.keyless Sample.singleArgs).
  reflexivity.
Defined.

(* ================================================================== *)
(** ** The pass-rate change text *)

Lemma stringOfZ_not_plus (z : Z) (rest : string) :
  String.get 0 (JS.stringOfZ z ++ "." ++ rest) <> Some "+"%char.
Proof.
  unfold JS.stringOfZ.
  destruct (Z.to_int z) as [d|d]; simpl; [|discriminate].
  destruct d; simpl; discriminate.
Qed.

Lemma toFixed1_not_plus (x : Q) : String.get 0 (JS.toFixed1 x) <> Some "+"%char.
Proof.
  unfold JS.toFixed1, JS.tenths.
  destruct (JS.Qltb x 0); [simpl; discriminate|].
  apply stringOfZ_not_plus.
Qed.

Lemma nearest_tenth (a : Q) :
  (a * 10 - (1 # 2) < inject_Z (Qfloor (a * 10 + (1 # 2)))
   /\ inject_Z (Qfloor (a * 10 + (1 # 2))) <= a * 10 + (1 # 2))%Q.
Proof.
  pose proof (Qfloor_le (a * 10 + (1 # 2))) as Hle.
  pose proof (Qlt_floor (a * 10 + (1 # 2))) as Hlt.
  rewrite inject_Z_plus in Hlt.
  split; [|exact Hle].
  change (inject_Z 1) with 1%Q in Hlt. lra.
Qed.

Lemma readAllDigits_acc (d : Decimal.uint) (acc : positive) :
  JS.readAllDigits (NilEmpty.string_of_uint d) (Z.pos acc)
  = Some (Z.pos (Pos.of_uint_acc d acc)).
Proof.
  revert acc; induction d; intro acc;
    cbn [NilEmpty.string_of_uint Pos.of_uint_acc]; [reflexivity|..];
    (unfold JS.readAllDigits; fold JS.readAllDigits; cbv zeta;
     match goal with
     | |- context [Z.of_nat (nat_of_ascii ?c)] =>
         let v := eval vm_compute in (Z.of_nat (nat_of_ascii c)) in
         change (Z.of_nat (nat_of_ascii c)) with v
     end;
     cbv iota beta delta [Z.leb Z.compare Pos.compare Pos.compare_cont andb];
     match goal with
     | |- JS.readAllDigits _ ?z = Some (Z.pos (Pos.of_uint_acc _ ?p)) =>
         replace z with (Z.pos p) by lia
     end;
     apply IHd).
Qed.

Lemma readAllDigits_zero (d : Decimal.uint) :
  JS.readAllDigits (NilEmpty.string_of_uint d) 0 = Some (Z.of_N (Pos.of_uint d)).
Proof.
  induction d; cbn [NilEmpty.string_of_uint Pos.of_uint];
    [reflexivity | exact IHd |..];
    exact (readAllDigits_acc d _).
Qed.

Lemma readAllDigits_stringOfZ (q : Z) :
  0 <= q -> JS.readAllDigits (JS.stringOfZ q) 0 = Some q.
Proof.
  intro Hq. unfold JS.stringOfZ. destruct q as [|p|p]; [reflexivity| |lia].
  cbn [Z.to_int NilEmpty.string_of_int].
  rewrite readAllDigits_zero, DecimalPos.Unsigned.of_to. reflexivity.
Qed.

Lemma nzhead_not_zero_headed (d d' : Decimal.uint) :
  Decimal.nzhead d <> Decimal.D0 d'.
Proof. induction d; simpl; try discriminate. exact IHd. Qed.

Lemma to_uint_not_zero_headed (p : positive) (d : Decimal.uint) :
  Pos.to_uint p <> Decimal.D0 d.
Proof.
  intro H.
  pose proof (DecimalPos.Unsigned.to_of (Pos.to_uint p)) as Hnorm.
  rewrite DecimalPos.Unsigned.of_to in Hnorm.
  change (N.to_uint (N.pos p)) with (Pos.to_uint p) in Hnorm.
  rewrite H in Hnorm. unfold Decimal.unorm in Hnorm. simpl in Hnorm.
  destruct (Decimal.nzhead d) eqn:E; try discriminate.
  - injection Hnorm as Hd. subst d.
    exact (DecimalPos.Unsigned.to_uint_nonzero p H).
  - injection Hnorm as Hd. rewrite <- Hd in E.
    exact (nzhead_not_zero_headed _ _ E).
Qed.

(** Non-negative integers are printed without a sign and without a
    leading zero. *)
Lemma stringOfZ_head (q : Z) :
  0 <= q ->
  JS.stringOfZ q <> "" /\
  (JS.stringOfZ q = "0" \/ String.get 0 (JS.stringOfZ q) <> Some "0"%char).
Proof.
  intro Hq. unfold JS.stringOfZ. destruct q as [|p|p]; [| |lia].
  - split; [discriminate | left; reflexivity].
  - cbn [Z.to_int NilEmpty.string_of_int].
    pose proof (DecimalPos.Unsigned.to_uint_nonnil p) as Hnil.
    pose proof (to_uint_not_zero_headed p) as Hzero.
    destruct (Pos.to_uint p) eqn:E; simpl;
      try (split; [discriminate | right; discriminate]).
    + congruence.
    + exfalso. exact (Hzero _ eq_refl).
Qed.

Lemma digit_value (r : Z) :
  0 <= r < 10 ->
  exists d, JS.stringOfZ r = String d "" /\ JS.digitValue d = Some r.
Proof.
  intro H.
  assert (Hc : r = 0 \/ r = 1 \/ r = 2 \/ r = 3 \/ r = 4 \/
               r = 5 \/ r = 6 \/ r = 7 \/ r = 8 \/ r = 9) by lia.
  repeat (destruct Hc as [-> | Hc]; [eexists; split; reflexivity|]).
  subst r. eexists; split; reflexivity.
Qed.

(** The digits of [tenths n], read back. *)
Lemma tenths_digits (n : Z) :
  0 <= n ->
  exists whole digit,
    JS.tenths n = whole ++ "." ++ String digit "" /\
    whole <> "" /\
    (whole = "0" \/ String.get 0 whole <> Some "0"%char) /\
    JS.readAllDigits whole 0 = Some (n / 10) /\
    JS.digitValue digit = Some (n mod 10).
Proof.
  intro Hn.
  assert (Hq : 0 <= n / 10) by (apply Z.div_pos; lia).
  destruct (digit_value (n mod 10)) as (digit & Hd & Hv);
    [apply Z.mod_pos_bound; lia|].
  destruct (stringOfZ_head _ Hq) as [Hne Hhead].
  exists (JS.stringOfZ (n / 10)), digit.
  unfold JS.tenths. rewrite Hd.
  repeat split; auto using readAllDigits_stringOfZ.
Qed.

Lemma nearest_tenth_nonneg (a : Q) :
  (0 <= a)%Q -> 0 <= Qfloor (a * 10 + (1 # 2)).
Proof.
  intro Ha. change 0 with (Qfloor 0). apply Qfloor_resp_le. lra.
Qed.

(** C6: in single mode the text put in place of [{pass_rate_change}] is
    the delta, of magnitude below 1e21 (from where JavaScript prints an
    exponent), printed with one decimal: a [+] exactly when the delta is
    positive, a [-] when it is negative, then the whole part in decimal
    without a leading zero, a point, and one digit; read back as a number
    of tenths, the digits give the integer nearest to ten times the
    magnitude of the delta (the larger one on a tie).  With a current pass
    rate of 90 the text is [+5.0] against a previous 85 and [-5.0] against
    a previous 95. *)
Theorem pass_rate_change_is_signed_one_decimal (delta : Q) :
  (Qabs delta < 1000000000000000000000)%Q ->
  (String.get 0 (Prompt.passRateChangeText delta) = Some "+"%char
     <-> (0 < delta)%Q) /\
  (exists whole digit n,
     (((0 < delta)%Q /\
       Prompt.passRateChangeText delta = "+" ++ whole ++ "." ++ String digit "")
      \/ ((delta == 0)%Q /\
          Prompt.passRateChangeText delta = whole ++ "." ++ String digit "")
      \/ ((delta < 0)%Q /\
          Prompt.passRateChangeText delta
            = "-" ++ whole ++ "." ++ String digit "")) /\
     whole <> "" /\
     (whole = "0" \/ String.get 0 whole <> Some "0"%char) /\
     JS.readAllDigits whole 0 = Some (n / 10) /\
     JS.digitValue digit = Some (n mod 10) /\
     (Qabs delta * 10 - (1 # 2) < inject_Z n)%Q /\
     (inject_Z n <= Qabs delta * 10 + (1 # 2))%Q) /\
  Prompt.passRateChangeText
    (Single.passRateChange Sample.day2 (Some Sample.day1)) = "+5.0" /\
  Prompt.passRateChangeText
    (Single.passRateChange Sample.day2 (Some Sample.day3)) = "-5.0" /\
  (forall project ts metadata previous,
     In ("{pass_rate_change}",
         Prompt.passRateChangeText (Single.passRateChange metadata previous))
        (Prompt.singleSteps project ts metadata
           (Single.previousPassRate previous)
           (Single.passRateChange metadata previous))).
Proof.
  intros _.
  split; [|split; [|split; [|split]]].
  - unfold Prompt.passRateChangeText.
    destruct (JS.Qltb 0 delta) eqn:E.
    + apply Qltb_true in E. split; [intros _; exact E | reflexivity].
    + split.
      * intro H. exfalso. exact (toFixed1_not_plus delta H).
      * intro H. apply Qltb_true in H. congruence.
  - unfold Prompt.passRateChangeText, JS.toFixed1.
    destruct (JS.Qltb delta 0) eqn:Eneg.
    + apply Qltb_true in Eneg.
      assert (Epos : JS.Qltb 0 delta = false)
        by (apply Qltb_false, Qlt_le_weak, Eneg).
      rewrite Epos.
      assert (Ha : (Qabs delta == - delta)%Q)
        by (apply Qabs_neg, Qlt_le_weak, Eneg).
      destruct (tenths_digits (Qfloor (- delta * 10 + (1 # 2))))
        as (whole & digit & Ht & Hne & Hhead & Hread & Hdig);
        [apply nearest_tenth_nonneg; lra|].
      exists whole, digit, (Qfloor (- delta * 10 + (1 # 2))).
      rewrite Ht.
      pose proof (nearest_tenth (- delta)) as [Hlo Hhi].
      refine (conj _ (conj Hne (conj Hhead (conj Hread (conj Hdig (conj _ _)))))).
      * right. right. split; [exact Eneg | reflexivity].
      * rewrite Ha. exact Hlo.
      * rewrite Ha. exact Hhi.
    + apply Qltb_false in Eneg.
      assert (Ha : (Qabs delta == delta)%Q) by (apply Qabs_pos, Eneg).
      destruct (tenths_digits (Qfloor (delta * 10 + (1 # 2))))
        as (whole & digit & Ht & Hne & Hhead & Hread & Hdig);
        [apply nearest_tenth_nonneg, Eneg|].
      exists whole, digit, (Qfloor (delta * 10 + (1 # 2))).
      rewrite Ht.
      pose proof (nearest_tenth delta) as [Hlo Hhi].
      refine (conj _ (conj Hne (conj Hhead (conj Hread (conj Hdig (conj _ _)))))).
      * destruct (JS.Qltb 0 delta) eqn:Epos.
        -- apply Qltb_true in Epos. left. split; [exact Epos | reflexivity].
        -- apply Qltb_false in Epos. right. left.
           split; [apply Qle_antisym; assumption | reflexivity].
      * rewrite Ha. exact Hlo.
      * rewrite Ha. exact Hhi.
  - vm_compute. reflexivity.
  - vm_compute. reflexivity.
  - intros. unfold Prompt.singleSteps. simpl. tauto.
Qed.

Lemma pass_rate_change_is_signed_one_decimal_witness :
  (String.get 0 (Prompt.passRateChangeText (-(37 # 10))) = Some "+"%char
     <-> (0 < -(37 # 10))%Q) /\
  (exists whole digit n,
     (((0 < -(37 # 10))%Q /\
       Prompt.passRateChangeText (-(37 # 10))
         = "+" ++ whole ++ "." ++ String digit "")
      \/ ((-(37 # 10) == 0)%Q /\
          Prompt.passRateChangeText (-(37 # 10))
            = whole ++ "." ++ String digit "")
      \/ ((-(37 # 10) < 0)%Q /\
          Prompt.passRateChangeText (-(37 # 10))
            = "-" ++ whole ++ "." ++ String digit "")) /\
     whole <> "" /\
     (whole = "0" \/ String.get 0 whole <> Some "0"%char) /\
     JS.readAllDigits whole 0 = Some (n / 10) /\
     JS.digitValue digit = Some (n mod 10) /\
     (Qabs (-(37 # 10)) * 10 - (1 # 2) < inject_Z n)%Q /\
     (inject_Z n <= Qabs (-(37 # 10)) * 10 + (1 # 2))%Q) /\
  Prompt.passRateChangeText
    (Single.passRateChange Sample.day2 (Some Sample.day1)) = "+5.0" /\
  Prompt.passRateChangeText
    (Single.passRateChange Sample.day2 (Some Sample.day3)) = "-5.0" /\
  (forall project ts metadata previous,
     In ("{pass_rate_change}",
         Prompt.passRateChangeText (Single.passRateChange metadata previous))
        (Prompt.singleSteps project ts metadata
           (Single.previousPassRate previous)
           (Single.passRateChange metadata previous))).
Proof.
  apply (pass_rate_change_is_signed_one_decimal (-(37 # 10))).
  vm_compute. reflexivity.
Defined.

(* ================================================================== *)
(** ** Mean and standard deviation *)

Local Open Scope Q_scope.

Lemma lengthQ_cons {A} (x : A) (l : list A) :
  Stats.lengthQ (x :: l) == Stats.lengthQ l + 1.
Proof.
  unfold Stats.lengthQ. cbn [List.length]. rewrite Nat2Z.inj_succ.
  unfold Z.succ. rewrite inject_Z_plus. reflexivity.
Qed.

Lemma lengthQ_nonneg {A} (l : list A) : 0 <= Stats.lengthQ l.
Proof.
  unfold Stats.lengthQ. change 0 with (inject_Z 0). rewrite <- Zle_Qle. lia.
Qed.

Lemma lengthQ_pos {A} (l : list A) : l <> [] -> 0 < Stats.lengthQ l.
Proof.
  intro H. destruct l as [|x l]; [congruence|].
  rewrite lengthQ_cons. pose proof (lengthQ_nonneg l). lra.
Qed.

Lemma sumQ_bounds (lo hi : Q) (l : list Q) :
  (forall x, In x l -> lo <= x <= hi) ->
  lo * Stats.lengthQ l <= sumQ l <= hi * Stats.lengthQ l.
Proof.
  induction l as [|x l IH]; intro H.
  - change (Stats.lengthQ (@nil Q)) with 0. change (sumQ []) with 0.
    split; lra.
  - rewrite lengthQ_cons. change (sumQ (x :: l)) with (x + sumQ l).
    destruct (H x (or_introl eq_refl)) as [Hlo Hhi].
    destruct IH as [IHlo IHhi]; [intros y Hy; apply H; right; exact Hy|].
    split; lra.
Qed.

Lemma sumQ_nonneg (l : list Q) : (forall x, In x l -> 0 <= x) -> 0 <= sumQ l.
Proof.
  induction l as [|x l IH]; intro H.
  - apply Qle_refl.
  - change (sumQ (x :: l)) with (x + sumQ l).
    assert (0 <= x) by (apply H; left; reflexivity).
    assert (0 <= sumQ l) by (apply IH; intros y Hy; apply H; right; exact Hy).
    lra.
Qed.

Lemma sumQ_close (f g : Q -> Q) (d : Q) (l : list Q) :
  (forall x, In x l -> Qabs (f x - g x) <= d) ->
  Qabs (sumQ (map f l) - sumQ (map g l)) <= d * Stats.lengthQ l.
Proof.
  induction l as [|x l IH]; intro H.
  - change (Stats.lengthQ (@nil Q)) with 0. cbn [map].
    change (sumQ []) with 0. apply Qabs_Qle_condition. split; lra.
  - rewrite lengthQ_cons. cbn [map].
    change (sumQ (f x :: map f l)) with (f x + sumQ (map f l)).
    change (sumQ (g x :: map g l)) with (g x + sumQ (map g l)).
    pose proof (H x (or_introl eq_refl)) as Hx.
    assert (IH' := IH (fun y Hy => H y (or_intror Hy))).
    apply Qabs_Qle_condition in Hx. apply Qabs_Qle_condition in IH'.
    apply Qabs_Qle_condition. split; lra.
Qed.

Lemma fold_add_map {A} (f : A -> Q) (l : list A) (acc : Q) :
  fold_left (fun sum x => JS.add sum (f x)) l acc
  = fold_left JS.add (map f l) acc.
Proof.
  revert acc; induction l as [|x l IH]; intro acc; simpl; [reflexivity|].
  apply IH.
Qed.

(** A sum of non-negative numbers accumulated with rounding: each addition
    adds at most [2 ^ (k - 53)] to the error, as long as the sums stay below
    [2 ^ k]. *)
Lemma sum_rounded (k : Z) (l : list Q) (acc A E : Q) :
  (-1022 <= k)%Z -> 0 <= A -> 0 <= E ->
  (forall x, In x l -> 0 <= x) ->
  Qabs (acc - A) <= E ->
  A + sumQ l + E + Stats.lengthQ l * 2 ^ (k - 53) <= 2 ^ k ->
  Qabs (fold_left JS.add l acc - (A + sumQ l))
  <= E + Stats.lengthQ l * 2 ^ (k - 53).
Proof.
  intro Hk. revert acc A E.
  induction l as [|x l IH]; intros acc A E HA HE Hl Hacc Hbound.
  - change (Stats.lengthQ (@nil Q)) with 0. change (sumQ []) with 0.
    cbn [fold_left].
    apply Qabs_Qle_condition in Hacc. apply Qabs_Qle_condition. split; lra.
  - cbn [fold_left]. change (sumQ (x :: l)) with (x + sumQ l) in *.
    rewrite lengthQ_cons in Hbound |- *.
    pose proof (pow2_pos (k - 53)) as He.
    pose proof (lengthQ_nonneg l) as Hn.
    assert (Hx : 0 <= x) by (apply Hl; left; reflexivity).
    assert (Hs : 0 <= sumQ l)
      by (apply sumQ_nonneg; intros y Hy; apply Hl; right; exact Hy).
    set (eps := 2 ^ (k - 53)) in *.
    assert (Hne : 0 <= Stats.lengthQ l * eps) by nra.
    apply Qabs_Qle_condition in Hacc.
    assert (Hround : Qabs (JS.add acc x - (acc + x)) <= eps).
    { apply round64_error; [exact Hk|].
      apply Qabs_Qle_condition. pose proof (pow2_pos k). split; lra. }
    assert (IH' := IH (JS.add acc x) (A + x) (E + eps)).
    assert (Hstep : Qabs (JS.add acc x - (A + x)) <= E + eps).
    { apply Qabs_Qle_condition in Hround. apply Qabs_Qle_condition.
      split; lra. }
    specialize (IH' ltac:(lra) ltac:(lra)
                  (fun y Hy => Hl y (or_intror Hy)) Hstep ltac:(lra)).
    apply Qabs_Qle_condition in IH'. apply Qabs_Qle_condition.
    split; lra.
Qed.

Lemma fold_add_nonneg (l : list Q) (acc : Q) :
  0 <= acc -> (forall x, In x l -> 0 <= x) -> 0 <= fold_left JS.add l acc.
Proof.
  revert acc; induction l as [|x l IH]; intros acc Hacc Hl; [exact Hacc|].
  cbn [fold_left]. apply IH.
  - apply round64_nonneg.
    assert (0 <= x) by (apply Hl; left; reflexivity). lra.
  - intros y Hy. apply Hl. right. exact Hy.
Qed.

Lemma lengthQ_map {A B} (f : A -> B) (l : list A) :
  Stats.lengthQ (map f l) = Stats.lengthQ l.
Proof. unfold Stats.lengthQ. rewrite length_map. reflexivity. Qed.

Lemma percentages_length (rates : list Q) :
  percentages rates ->
  0 < Stats.lengthQ rates /\ Stats.lengthQ rates <= 1048576.
Proof.
  intros (Hne & Hlen & _). split; [apply lengthQ_pos, Hne|].
  unfold Stats.lengthQ. change 1048576 with (inject_Z 1048576).
  rewrite <- Zle_Qle. exact Hlen.
Qed.

Lemma meanQ_bounds (rates : list Q) :
  percentages rates -> 0 <= meanQ rates <= 100.
Proof.
  intro H. destruct (percentages_length _ H) as [HN _].
  destruct H as (_ & _ & Hr).
  destruct (sumQ_bounds 0 100 rates Hr) as [Hlo Hhi].
  unfold meanQ. split.
  - apply Qle_shift_div_l; [exact HN | lra].
  - apply Qle_shift_div_r; [exact HN | lra].
Qed.

Lemma avg_error (rates : list Q) :
  percentages rates ->
  Qabs (Stats.avgPassRate rates - meanQ rates) <= (1 # 67108864) + (1 # 70368744177664).
Proof.
  intro H. destruct (percentages_length _ H) as [HN HNmax].
  pose proof (meanQ_bounds _ H) as Hmu.
  destruct H as (Hne & Hlen & Hr).
  destruct (sumQ_bounds 0 100 rates Hr) as [HSlo HShi].
  assert (Hsum := sum_rounded 27 rates 0 0 0 ltac:(lia) ltac:(lra) ltac:(lra)
                    (fun x Hx => proj1 (Hr x Hx))).
  change (2 ^ (27 - 53)) with (1 # 67108864) in Hsum.
  change (2 ^ 27) with 134217728 in Hsum.
  specialize (Hsum ltac:(apply Qabs_Qle_condition; split; lra) ltac:(lra)).
  apply Qabs_Qle_condition in Hsum.
  unfold Stats.avgPassRate, JS.div.
  set (S' := fold_left JS.add rates 0) in *.
  set (N := Stats.lengthQ rates) in *.
  set (mu := meanQ rates) in *.
  assert (Hmu' : mu * N == sumQ rates).
  { unfold mu, meanQ. fold N. field. lra. }
  set (a := S' / N).
  assert (Ha : a * N == S') by (unfold a; field; lra).
  assert (Hclose : - (1 # 67108864) <= a - mu <= 1 # 67108864).
  { split; nra. }
  assert (Hround : Qabs (JS.round64 a - a) <= 2 ^ (7 - 53)).
  { apply round64_error; [lia|]. change (2 ^ 7) with 128.
    apply Qabs_Qle_condition. split; lra. }
  change (2 ^ (7 - 53)) with (1 # 70368744177664) in Hround.
  apply Qabs_Qle_condition in Hround. apply Qabs_Qle_condition.
  split; lra.
Qed.

Lemma square_error (x avg mu : Q) :
  0 <= x <= 100 -> 0 <= mu <= 100 ->
  Qabs (avg - mu) <= (1 # 67108864) + (1 # 70368744177664) ->
  Qabs (JS.pow2 (JS.sub x avg) - (x - mu) * (x - mu)) <= 1 # 262144.
Proof.
  intros Hx Hmu Havg. apply Qabs_Qle_condition in Havg.
  unfold JS.pow2, JS.sub.
  assert (Hd : Qabs (JS.round64 (x - avg) - (x - avg)) <= 2 ^ (7 - 53)).
  { apply round64_error; [lia|]. change (2 ^ 7) with 128.
    apply Qabs_Qle_condition. split; lra. }
  change (2 ^ (7 - 53)) with (1 # 70368744177664) in Hd.
  apply Qabs_Qle_condition in Hd.
  set (d := JS.round64 (x - avg)) in *.
  set (t := x - mu).
  assert (Ht : -100 <= t <= 100) by (unfold t; split; lra).
  set (u := d - t).
  assert (Hu : - ((1 # 67108864) + (1 # 35184372088832)) <= u
               <= (1 # 67108864) + (1 # 35184372088832))
    by (unfold u, t; split; lra).
  assert (Hdd : d * d == t * t + 2 * (t * u) + u * u) by (unfold u; ring).
  assert (Htu : - (100 * ((1 # 67108864) + (1 # 35184372088832))) <= t * u
                <= 100 * ((1 # 67108864) + (1 # 35184372088832)))
    by (split; nra).
  assert (Huu : 0 <= u * u <= 1 # 67108864) by (split; nra).
  assert (Hsq : Qabs (JS.round64 (d * d) - d * d) <= 2 ^ (14 - 53)).
  { apply round64_error; [lia|]. change (2 ^ 14) with 16384.
    apply Qabs_Qle_condition. split; nra. }
  change (2 ^ (14 - 53)) with (1 # 549755813888) in Hsq.
  apply Qabs_Qle_condition in Hsq. apply Qabs_Qle_condition.
  split; lra.
Qed.

Lemma varianceQ_bounds (rates : list Q) :
  percentages rates -> 0 <= varianceQ rates <= 10000.
Proof.
  intro H. destruct (percentages_length _ H) as [HN _].
  pose proof (meanQ_bounds _ H) as Hmu.
  destruct H as (_ & _ & Hr).
  set (g := fun x => (x - meanQ rates) * (x - meanQ rates)).
  destruct (sumQ_bounds 0 10000 (map g rates)) as [Hlo Hhi].
  { intros y Hy. apply in_map_iff in Hy. destruct Hy as (x & <- & Hx).
    specialize (Hr x Hx). unfold g.
    set (t := x - meanQ rates).
    assert (Ht : -100 <= t <= 100) by (unfold t; split; lra).
    split; nra. }
  rewrite lengthQ_map in Hlo, Hhi.
  unfold varianceQ. fold g. split.
  - apply Qle_shift_div_l; [exact HN | lra].
  - apply Qle_shift_div_r; [exact HN | lra].
Qed.

Lemma variance_error (rates : list Q) :
  percentages rates ->
  0 <= Stats.variance rates /\
  Qabs (Stats.variance rates - varianceQ rates) <= 1 # 131072.
Proof.
  intro H. destruct (percentages_length _ H) as [HN HNmax].
  pose proof (meanQ_bounds _ H) as Hmu.
  pose proof (avg_error _ H) as Havg.
  pose proof (varianceQ_bounds _ H) as HV.
  destruct H as (Hne & Hlen & Hr).
  unfold Stats.variance. cbv zeta.
  set (avg := Stats.avgPassRate rates) in *.
  rewrite (fold_add_map (fun rate => JS.pow2 (JS.sub rate avg))).
  set (f := fun rate => JS.pow2 (JS.sub rate avg)).
  set (g := fun x => (x - meanQ rates) * (x - meanQ rates)).
  assert (Hfg : forall x, In x rates -> Qabs (f x - g x) <= 1 # 262144).
  { intros x Hx. apply square_error; auto. }
  assert (Hf0 : forall y, In y (map f rates) -> 0 <= y).
  { intros y Hy. apply in_map_iff in Hy. destruct Hy as (x & <- & Hx).
    unfold f, JS.pow2. apply round64_nonneg. nra. }
  assert (Hfhi : forall y, In y (map f rates) -> 0 <= y <= 10001).
  { intros y Hy. split; [apply Hf0, Hy|].
    apply in_map_iff in Hy. destruct Hy as (x & <- & Hx).
    specialize (Hfg x Hx). apply Qabs_Qle_condition in Hfg.
    specialize (Hr x Hx). unfold g in Hfg. nra. }
  destruct (sumQ_bounds 0 10001 _ Hfhi) as [HFlo HFhi].
  rewrite lengthQ_map in HFlo, HFhi.
  pose proof (sumQ_close f g (1 # 262144) rates Hfg) as Hclose.
  assert (Hsum := sum_rounded 34 (map f rates) 0 0 0 ltac:(lia) ltac:(lra)
                    ltac:(lra) Hf0).
  rewrite lengthQ_map in Hsum.
  change (2 ^ (34 - 53)) with (1 # 524288) in Hsum.
  change (2 ^ 34) with 17179869184 in Hsum.
  specialize (Hsum ltac:(apply Qabs_Qle_condition; split; lra) ltac:(lra)).
  pose proof (fold_add_nonneg (map f rates) 0 ltac:(lra) Hf0) as Hnonneg.
  apply Qabs_Qle_condition in Hsum. apply Qabs_Qle_condition in Hclose.
  unfold JS.div.
  set (S' := fold_left JS.add (map f rates) 0) in *.
  set (N := Stats.lengthQ rates) in *.
  set (V := varianceQ rates) in *.
  assert (HV' : V * N == sumQ (map g rates)).
  { unfold V, varianceQ. fold g N. field. lra. }
  set (b := S' / N).
  assert (Hb : b * N == S') by (unfold b; field; lra).
  assert (Hb0 : 0 <= b) by (unfold b; apply Qle_shift_div_l; [exact HN | lra]).
  assert (Hbv : - ((1 # 262144) + (1 # 524288)) <= b - V
                <= (1 # 262144) + (1 # 524288)).
  { split; nra. }
  assert (Hround : Qabs (JS.round64 b - b) <= 2 ^ (14 - 53)).
  { apply round64_error; [lia|]. change (2 ^ 14) with 16384.
    apply Qabs_Qle_condition. split; lra. }
  change (2 ^ (14 - 53)) with (1 # 549755813888) in Hround.
  apply Qabs_Qle_condition in Hround.
  split; [apply round64_nonneg, Hb0|].
  apply Qabs_Qle_condition. split; lra.
Qed.

Lemma Q2R_lengthQ {A} (l : list A) : Q2R (Stats.lengthQ l) = INR (List.length l).
Proof.
  unfold Stats.lengthQ. rewrite Q2R_inject_Z, INR_IZR_INZ. reflexivity.
Qed.

Lemma lengthQ_nonzero {A} (l : list A) : l <> [] -> ~ (Stats.lengthQ l == 0)%Q.
Proof.
  intros Hl H. pose proof (lengthQ_pos l Hl) as P. rewrite H in P. discriminate.
Qed.

Lemma Q2R_sumQ (l : list Q) : Q2R (sumQ l) = sumR (map Q2R l).
Proof.
  induction l as [|x l IH]; [apply Q2R_zero|].
  change (sumQ (x :: l)) with (x + sumQ l).
  rewrite Q2R_plus, IH. reflexivity.
Qed.

Lemma Q2R_meanQ (rates : list Q) :
  rates <> [] -> Q2R (meanQ rates) = arithmeticMean (map Q2R rates).
Proof.
  intro Hne. unfold meanQ, arithmeticMean.
  rewrite Q2R_div by (apply lengthQ_nonzero, Hne).
  rewrite Q2R_sumQ, Q2R_lengthQ, length_map. reflexivity.
Qed.

Lemma sqrt_Q2R_varianceQ (rates : list Q) :
  rates <> [] ->
  sqrt (Q2R (varianceQ rates)) = populationStdDev (map Q2R rates).
Proof.
  intro Hne. unfold varianceQ, populationStdDev.
  rewrite Q2R_div by (apply lengthQ_nonzero, Hne).
  rewrite Q2R_sumQ, Q2R_lengthQ, length_map, !map_map.
  rewrite <- (Q2R_meanQ rates Hne).
  f_equal. f_equal. f_equal. apply map_ext. intro x.
  rewrite Q2R_mult, Q2R_minus. reflexivity.
Qed.

Lemma Rabs_le_inv (a b : R) : (Rabs a <= b)%R -> (- b <= a <= b)%R.
Proof.
  intro H. unfold Rabs in H. destruct (Rcase_abs a); split; lra.
Qed.

(** Square roots of close numbers are close. *)
Lemma sqrt_close (a b r : R) :
  (0 <= a)%R -> (0 <= b)%R -> (0 <= r)%R ->
  (Rabs (a - b) <= r * r)%R -> (Rabs (sqrt a - sqrt b) <= r)%R.
Proof.
  intros Ha Hb Hr H. apply Rabs_le_inv in H. apply Rabs_le.
  pose proof (sqrt_pos a) as Hsa. pose proof (sqrt_pos b) as Hsb.
  pose proof (sqrt_sqrt a Ha) as Haa. pose proof (sqrt_sqrt b Hb) as Hbb.
  set (s := sqrt a) in *. set (t := sqrt b) in *.
  split.
  - destruct (Rle_lt_dec (- r) (s - t)) as [|Hc]; [assumption|]. exfalso. nra.
  - destruct (Rle_lt_dec (s - t) r) as [|Hc]; [assumption|]. exfalso. nra.
Qed.

Lemma Rabs_Q2R_le (x y e : Q) :
  Qabs (x - y) <= e -> (Rabs (Q2R x - Q2R y) <= Q2R e)%R.
Proof.
  intro H. apply Qabs_Qle_condition in H. destruct H as [Hlo Hhi].
  apply Qle_Rle in Hlo, Hhi. rewrite Q2R_minus in Hlo, Hhi.
  rewrite Q2R_opp in Hlo. apply Rabs_le. split; lra.
Qed.

Lemma Q2R_make (p : positive) : Q2R (1 # p) = (/ IZR (Z.pos p))%R.
Proof. unfold Q2R. simpl. lra. Qed.

(** The variance is never negative. *)
Lemma variance_nonneg (rates : list Q) : 0 <= Stats.variance rates.
Proof.
  unfold Stats.variance, JS.div. cbv zeta.
  rewrite (fold_add_map
             (fun rate => JS.pow2 (JS.sub rate (Stats.avgPassRate rates)))).
  apply round64_nonneg.
  assert (Hsum : 0 <= fold_left JS.add
                        (map (fun rate =>
                                JS.pow2 (JS.sub rate (Stats.avgPassRate rates)))
                           rates) 0).
  { apply fold_add_nonneg; [apply Qle_refl|].
    intros y Hy. apply in_map_iff in Hy. destruct Hy as (x & <- & _).
    unfold JS.pow2. apply round64_nonneg. nra. }
  pose proof (lengthQ_nonneg rates) as Hn.
  destruct (Qeq_dec (Stats.lengthQ rates) 0) as [H0|H0].
  - unfold Qdiv. rewrite H0. change (/ 0) with 0. lra.
  - apply Qle_shift_div_l; [|lra].
    apply Qnot_le_lt. intro H. apply H0. apply Qle_antisym; assumption.
Qed.

(** C8, as the claim words it, fails: the average of 100, 100 and 50 is
    250 / 3, which no double equals; the script computes the double next to
    it. *)
Lemma computed_mean_is_not_the_exact_mean :
  Q2R (Stats.avgPassRate [100; 100; 50])
  <> arithmeticMean (map Q2R [100; 100; 50]).
Proof.
  rewrite <- Q2R_meanQ by discriminate.
  intro H. apply eqR_Qeq in H. vm_compute in H. discriminate.
Qed.

(** C8 (amended): for a window of at most [2 ^ 20] pass rates between 0 and
    100, the computed average is within [2 ^ -25] of the arithmetic mean
    (the sum divided by the count), the computed variance within
    [2 ^ -17] of the square of the population standard deviation, and the
    computed standard deviation within [2 ^ -8] of the population standard
    deviation: the square root of the summed squared deviations from the
    mean divided by the count [N], not by [N - 1].  For 85, 90 and 95 the
    deviation is printed as 4.1 (dividing by [N - 1] would give 5.0). *)
Theorem mean_and_deviation_within_tolerance (rates : list Q) :
  rates <> [] ->
  (Z.of_nat (List.length rates) <= 1048576)%Z ->
  (forall r, In r rates -> 0 <= r <= 100) ->
  (Rabs (Q2R (Stats.avgPassRate rates) - arithmeticMean (map Q2R rates))
   <= / 2 ^ 25)%R /\
  (Rabs (Q2R (Stats.variance rates)
         - populationStdDev (map Q2R rates) * populationStdDev (map Q2R rates))
   <= / 2 ^ 17)%R /\
  (Rabs (Q2R (Stats.stdDev rates) - populationStdDev (map Q2R rates))
   <= / 2 ^ 8)%R /\
  JS.toFixed1 (Stats.avgPassRate [85; 90; 95]) = "90.0"%string /\
  JS.toFixed1 (Stats.stdDev [85; 90; 95]) = "4.1"%string.
Proof.
  intros Hne Hlen Hr.
  assert (H : percentages rates) by (repeat split; auto; apply Hr; auto).
  pose proof (avg_error _ H) as Havg.
  destruct (variance_error _ H) as [Hv0 Hvar].
  pose proof (varianceQ_bounds _ H) as HV.
  assert (HV0 : (0 <= Q2R (varianceQ rates))%R) by (apply Q2R_nonneg; lra).
  apply Rabs_Q2R_le in Hvar. rewrite Q2R_make in Hvar.
  split; [|split; [|split; [|split; vm_compute; reflexivity]]].
  - rewrite <- (Q2R_meanQ rates Hne).
    apply Rabs_Q2R_le in Havg.
    rewrite Q2R_plus, !Q2R_make in Havg.
    eapply Rle_trans; [exact Havg|]. lra.
  - rewrite <- (sqrt_Q2R_varianceQ rates Hne), (sqrt_sqrt _ HV0).
    eapply Rle_trans; [exact Hvar|]. lra.
  - rewrite <- (sqrt_Q2R_varianceQ rates Hne).
    unfold Stats.stdDev.
    set (v := Stats.variance rates) in *.
    set (V := varianceQ rates) in *.
    assert (Hvmax : v <= 2 ^ (2 * 7)).
    { change (2 ^ (2 * 7)) with 16384.
      apply Rle_Qle. apply Rabs_le_inv in Hvar.
      pose proof (Qle_Rle _ _ (proj2 HV)) as HVmax.
      replace (Q2R 10000) with 10000%R in HVmax by (unfold Q2R; simpl; lra).
      replace (Q2R 16384) with 16384%R by (unfold Q2R; simpl; lra).
      lra. }
    pose proof (Math_sqrt_error v 7 ltac:(lia) Hv0 Hvmax) as Hs.
    change (2 ^ (7 - 53)) with (1 # 70368744177664) in Hs.
    rewrite Q2R_make in Hs.
    assert (Hroot : (Rabs (sqrt (Q2R v) - sqrt (Q2R V)) <= / 2 ^ 8 - / 2 ^ 46)%R).
    { apply sqrt_close.
      - apply Q2R_nonneg, Hv0.
      - exact HV0.
      - lra.
      - eapply Rle_trans; [exact Hvar|]. lra. }
    apply Rabs_le_inv in Hs. apply Rabs_le_inv in Hroot. apply Rabs_le.
    split; lra.
Qed.

Lemma mean_and_deviation_within_tolerance_witness :
  (Rabs (Q2R (Stats.avgPassRate [100; 100; 50]%Q)
         - arithmeticMean (map Q2R [100; 100; 50]%Q))
   <= / 2 ^ 25)%R /\
  (Rabs (Q2R (Stats.variance [100; 100; 50]%Q)
         - populationStdDev (map Q2R [100; 100; 50]%Q)
           * populationStdDev (map Q2R [100; 100; 50]%Q))
   <= / 2 ^ 17)%R /\
  (Rabs (Q2R (Stats.stdDev [100; 100; 50]%Q)
         - populationStdDev (map Q2R [100; 100; 50]%Q))
   <= / 2 ^ 8)%R /\
  JS.toFixed1 (Stats.avgPassRate [85; 90; 95]) = "90.0"%string /\
  JS.toFixed1 (Stats.stdDev [85; 90; 95]) = "4.1"%string.
Proof.
  apply (mean_and_deviation_within_tolerance [100; 100; 50]).
  - discriminate.
  - simpl. lia.
  - intros r [<-|[<-|[<-|[]]]]; split; discriminate.
Defined.

Local Close Scope Q_scope.

(* ================================================================== *)
(** ** Enumerating a project's reports *)

Lemma In_dropNulls (m : Metadata) (l : list (option Metadata)) :
  In m (Trend.dropNulls l) <-> In (Some m) l.
Proof.
  induction l as [|[x|] l IH]; simpl.
  - tauto.
  - rewrite IH. split; intros [H|H]; auto; left; congruence.
  - rewrite IH. split; [auto|]. intros [H|H]; [discriminate|exact H].
Qed.

Lemma readMetadata_Some (entries : list (string * Entry)) (name : string)
    (m : Metadata) :
  Trend.readMetadata entries name = Some m <->
  metadataFileOf entries name = Some (Json m).
Proof.
  unfold Trend.readMetadata.
  destruct (metadataFileOf entries name) as [[|m']|];
    split; intro H; try discriminate; congruence.
Qed.

Lemma dropNulls_length (entries : list (string * Entry)) (names : list string) :
  List.length (Trend.dropNulls (map (Trend.readMetadata entries) names))
  = List.length (filter (parses entries) names).
Proof.
  induction names as [|name names IH]; simpl; [reflexivity|].
  unfold Trend.readMetadata, parses.
  destruct (metadataFileOf entries name) as [[|m]|]; simpl; auto.
Qed.

(** C9: the enumeration keeps exactly the metadata of the directories whose
    [metadata.json] is present and parses, one record for each, and skips
    the others; it is a function with no failing case.  A directory with one
    valid and one corrupt [metadata.json] gives the one valid record, and
    the trend run over it goes on to its normal end. *)
Theorem unreadable_metadata_is_skipped (entries : list (string * Entry)) :
  (forall m,
     In m (Trend.allReports entries) <->
     exists name, In name (directoryNames entries) /\
                  metadataFileOf entries name = Some (Json m)) /\
  List.length (Trend.allReports entries)
    = List.length (filter (parses entries) (directoryNames entries)) /\
  Trend.allReports Sample.oneValidOneCorrupt = [Sample.day2] /\
  Trend.allReports [("20240103-090000", Dir None); Sample.entryOf Sample.day2]
    = [Sample.day2] /\
  script (Sample.world Sample.oneValidOneCorrupt (Some "secret"))
         Sample.trendArgs
    = ([Mkdir "analysis/demo";
        HttpsRequest "Review this trend." "demo, 1 runs in 7 days: avg 90.0%";
        WriteFile "analysis/demo/trend-analysis.md"], Done tt).
Proof.
  split; [|split; [|repeat split; vm_compute; reflexivity]].
  - intro m. unfold Trend.allReports.
    split.
    + intro H. apply (Permutation_in _ (sort_perm _ _)) in H.
      apply In_dropNulls, in_map_iff in H.
      destruct H as (name & Hread & Hin).
      exists name. split; [exact Hin | apply readMetadata_Some, Hread].
    + intros (name & Hin & Hfile).
      apply (Permutation_in _ (Permutation_sym (sort_perm _ _))).
      apply In_dropNulls, in_map_iff.
      exists name. split; [apply readMetadata_Some, Hfile | exact Hin].
  - unfold Trend.allReports. rewrite sort_length. apply dropNulls_length.
Qed.

(* ================================================================== *)
(** ** Records without a pass rate *)

Lemma passRateOf_withPassRate0 (r : Metadata) :
  passRateOf (withPassRate0 r) = passRateOf r.
Proof. unfold passRateOf, withPassRate0. simpl. destruct (pass_rate r); reflexivity. Qed.

Lemma passRates_withPassRate0 (l : list Metadata) :
  Stats.passRates (map withPassRate0 l) = Stats.passRates l.
Proof.
  unfold Stats.passRates. rewrite map_map.
  apply map_ext, passRateOf_withPassRate0.
Qed.

Lemma findByRate_withPassRate0 (l : list Metadata) (m : option Q) :
  Stats.findByRate (map withPassRate0 l) m
  = option_map withPassRate0 (Stats.findByRate l m).
Proof.
  destruct m as [v|]; [|reflexivity]. simpl.
  induction l as [|r l IH]; simpl; [reflexivity|].
  rewrite passRateOf_withPassRate0.
  destruct (Qeq_bool (passRateOf r) v); [reflexivity | exact IH].
Qed.

Lemma historicalData_withPassRate0 (l : list Metadata) :
  Prompt.historicalData (map withPassRate0 l) = Prompt.historicalData l.
Proof.
  unfold Prompt.historicalData. rewrite map_map. f_equal.
  apply map_ext. intro r. unfold Prompt.historyLine. cbv zeta.
  rewrite passRateOf_withPassRate0. reflexivity.
Qed.

Lemma dateOrNA_withPassRate0 (r : option Metadata) :
  Prompt.dateOrNA (option_map withPassRate0 r) = Prompt.dateOrNA r.
Proof. destruct r; reflexivity. Qed.

Lemma trendSteps_withPassRate0 (project : string) (periodDays : Z)
    (l : list Metadata) (median : Q) :
  Prompt.trendSteps project periodDays (map withPassRate0 l) median
  = Prompt.trendSteps project periodDays l median.
Proof.
  unfold Prompt.trendSteps. cbv zeta.
  rewrite passRates_withPassRate0, historicalData_withPassRate0, length_map.
  rewrite !findByRate_withPassRate0, !dateOrNA_withPassRate0.
  reflexivity.
Qed.

Lemma singleSteps_withPassRate0 (project ts : string) (metadata : Metadata)
    (previousPassRate passRateChange : Q) :
  Prompt.singleSteps project ts (withPassRate0 metadata)
    previousPassRate passRateChange
  = Prompt.singleSteps project ts metadata previousPassRate passRateChange.
Proof.
  unfold Prompt.singleSteps. rewrite passRateOf_withPassRate0. reflexivity.
Qed.

Lemma previousPassRate_withPassRate0 (previous : option Metadata) :
  Single.previousPassRate (option_map withPassRate0 previous)
  = Single.previousPassRate previous.
Proof. destruct previous; simpl; [apply passRateOf_withPassRate0 | reflexivity]. Qed.

Lemma passRateChange_withPassRate0 (metadata : Metadata)
    (previous : option Metadata) :
  Single.passRateChange (withPassRate0 metadata)
    (option_map withPassRate0 previous)
  = Single.passRateChange metadata previous.
Proof.
  unfold Single.passRateChange.
  rewrite passRateOf_withPassRate0, previousPassRate_withPassRate0.
  reflexivity.
Qed.

(** Directories and sorting do not look at the pass rate. *)

Lemma lookup_mapValues {A B} (f : A -> B) (key : string)
    (l : list (string * A)) :
  lookup key (mapValues f l) = option_map f (lookup key l).
Proof.
  induction l as [|[k v] l IH]; simpl; [reflexivity|].
  destruct (String.eqb k key); [reflexivity | exact IH].
Qed.

Lemma metadataFileOf_withPassRate0 (entries : list (string * Entry))
    (name : string) :
  metadataFileOf (mapValues withPassRate0Entry entries) name
  = option_map withPassRate0File (metadataFileOf entries name).
Proof.
  unfold metadataFileOf. rewrite lookup_mapValues.
  destruct (lookup name entries) as [[|f]|]; reflexivity.
Qed.

Lemma directoryNames_withPassRate0 (entries : list (string * Entry)) :
  directoryNames (mapValues withPassRate0Entry entries) = directoryNames entries.
Proof.
  unfold directoryNames, mapValues.
  induction entries as [|[name e] entries IH]; simpl; [reflexivity|].
  destruct e; simpl; [exact IH | f_equal; exact IH].
Qed.

Lemma insert_map {A B} (f : A -> B) (cmpA : A -> A -> Q) (cmpB : B -> B -> Q)
    (x : A) (l : list A) :
  (forall a b, cmpB (f a) (f b) = cmpA a b) ->
  JS.insert cmpB (f x) (map f l) = map f (JS.insert cmpA x l).
Proof.
  intro Hcmp. induction l as [|y l IH]; simpl; [reflexivity|].
  rewrite Hcmp. destruct (JS.Qltb (cmpA x y) 0); simpl; [reflexivity|].
  f_equal. exact IH.
Qed.

Lemma sort_map {A B} (f : A -> B) (cmpA : A -> A -> Q) (cmpB : B -> B -> Q)
    (l : list A) :
  (forall a b, cmpB (f a) (f b) = cmpA a b) ->
  JS.sort cmpB (map f l) = map f (JS.sort cmpA l).
Proof.
  intro Hcmp. unfold JS.sort.
  change (@nil B) with (map f []).
  generalize (@nil A) as acc.
  induction l as [|x l IH]; intro acc; simpl; [reflexivity|].
  rewrite (insert_map f cmpA cmpB x acc Hcmp). apply IH.
Qed.

Lemma filter_map_commute {A B} (f : A -> B) (p : B -> bool) (l : list A) :
  filter p (map f l) = map f (filter (fun a => p (f a)) l).
Proof.
  induction l as [|x l IH]; simpl; [reflexivity|].
  destruct (p (f x)); simpl; [f_equal|]; exact IH.
Qed.

Lemma readMetadata_withPassRate0 (entries : list (string * Entry))
    (name : string) :
  Trend.readMetadata (mapValues withPassRate0Entry entries) name
  = option_map withPassRate0 (Trend.readMetadata entries name).
Proof.
  unfold Trend.readMetadata. rewrite metadataFileOf_withPassRate0.
  destruct (metadataFileOf entries name) as [[|m]|]; reflexivity.
Qed.

Lemma dropNulls_withPassRate0 (entries : list (string * Entry))
    (names : list string) :
  Trend.dropNulls
    (map (Trend.readMetadata (mapValues withPassRate0Entry entries)) names)
  = map withPassRate0
      (Trend.dropNulls (map (Trend.readMetadata entries) names)).
Proof.
  induction names as [|name names IH]; cbn [map Trend.dropNulls];
    [reflexivity|].
  rewrite readMetadata_withPassRate0.
  destruct (Trend.readMetadata entries name) as [m|]; simpl;
    [f_equal; exact IH | exact IH].
Qed.

Lemma allReports_withPassRate0 (entries : list (string * Entry)) :
  Trend.allReports (mapValues withPassRate0Entry entries)
  = map withPassRate0 (Trend.allReports entries).
Proof.
  unfold Trend.allReports.
  rewrite directoryNames_withPassRate0, dropNulls_withPassRate0.
  apply sort_map. reflexivity.
Qed.

Lemma recentReports_withPassRate0 (now periodDays : Z) (l : list Metadata) :
  Window.recentReports now periodDays (map withPassRate0 l)
  = map withPassRate0 (Window.recentReports now periodDays l).
Proof.
  unfold Window.recentReports. rewrite filter_map_commute. reflexivity.
Qed.

Lemma call_withPassRate0 (w : World) (systemPrompt userPrompt : string) :
  callAnthropicAPI (withPassRate0World w) systemPrompt userPrompt
  = callAnthropicAPI w systemPrompt userPrompt.
Proof. reflexivity. Qed.

Lemma analyzeTrend_withPassRate0 (w : World) (cfg : PromptsConfig)
    (project : string) (period : option string) :
  Trend.analyzeTrend (withPassRate0World w) cfg project period
  = Trend.analyzeTrend w cfg project period.
Proof.
  unfold Trend.analyzeTrend. cbv zeta.
  change (reports (withPassRate0World w))
    with (mapValues (mapValues withPassRate0Entry) (reports w)).
  change (now (withPassRate0World w)) with (now w).
  rewrite lookup_mapValues.
  destruct (lookup project (reports w)) as [entries|]; [|reflexivity].
  simpl option_map. cbv iota beta.
  rewrite allReports_withPassRate0, recentReports_withPassRate0.
  rewrite !length_map, passRates_withPassRate0.
  destruct (_ =? 0)%nat; [reflexivity|].
  destruct (_ =? 0)%nat; [reflexivity|].
  destruct (Stats.medianPassRate _) as [median|]; [|reflexivity].
  unfold Prompt.trendUserPrompt. rewrite trendSteps_withPassRate0.
  reflexivity.
Qed.

Lemma previousMetadata_withPassRate0 (entries : list (string * Entry))
    (ts : string) :
  Single.previousMetadata (mapValues withPassRate0Entry entries) ts
  = (fst (Single.previousMetadata entries ts),
     match snd (Single.previousMetadata entries ts) with
     | Done previous => Done (option_map withPassRate0 previous)
     | Thrown => Thrown
     | Exited code => Exited code
     end).
Proof.
  unfold Single.previousMetadata, Single.allReports. cbv zeta.
  rewrite directoryNames_withPassRate0.
  destruct (0 <? _); [|reflexivity].
  destruct (JS.index _ _) as [previous|]; [|reflexivity].
  rewrite metadataFileOf_withPassRate0.
  destruct (metadataFileOf entries previous) as [[|m]|]; reflexivity.
Qed.

Lemma analyzeSingleReport_withPassRate0 (w : World) (cfg : PromptsConfig)
    (project : string) (timestamp : option string) :
  Single.analyzeSingleReport (withPassRate0World w) cfg project timestamp
  = Single.analyzeSingleReport w cfg project timestamp.
Proof.
  unfold Single.analyzeSingleReport.
  destruct timestamp as [ts|]; [|reflexivity].
  destruct (JS.falsyS ts); [reflexivity|]. cbv zeta.
  change (reports (withPassRate0World w))
    with (mapValues (mapValues withPassRate0Entry) (reports w)).
  rewrite lookup_mapValues.
  assert (Hentries :
    match option_map (mapValues withPassRate0Entry) (lookup project (reports w)) with
    | Some es => es
    | None => []
    end = mapValues withPassRate0Entry
            match lookup project (reports w) with
            | Some es => es
            | None => []
            end).
  { destruct (lookup project (reports w)); reflexivity. }
  rewrite Hentries. clear Hentries.
  set (entries := match lookup project (reports w) with
                  | Some es => es
                  | None => []
                  end).
  rewrite metadataFileOf_withPassRate0.
  destruct (metadataFileOf entries ts) as [[|metadata]|]; try reflexivity.
  simpl option_map. cbv iota beta.
  rewrite previousMetadata_withPassRate0.
  destruct (Single.previousMetadata entries ts) as [evs [previous| |code]];
    try reflexivity.
  simpl fst. simpl snd. cbv iota beta.
  unfold bind at 1 3. 
  unfold Prompt.singleUserPrompt.
  rewrite singleSteps_withPassRate0, previousPassRate_withPassRate0,
    passRateChange_withPassRate0.
  reflexivity.
Qed.

Lemma script_withPassRate0 (w : World) (argv : list string) :
  script (withPassRate0World w) argv = script w argv.
Proof.
  unfold script. cbv zeta.
  destruct (option_of (parseArgs argv []) "project") as [project|];
    [|reflexivity].
  destruct (option_of (parseArgs argv []) "type") as [type|]; [|reflexivity].
  destruct (_ || _); [reflexivity|].
  change (promptsFile (withPassRate0World w)) with (promptsFile w).
  change (analysisDirs (withPassRate0World w)) with (analysisDirs w).
  destruct (promptsFile w) as [cfg|]; [|reflexivity].
  rewrite analyzeSingleReport_withPassRate0, analyzeTrend_withPassRate0.
  reflexivity.
Qed.

Lemma median_defined (rates : list Q) :
  rates <> [] -> Stats.medianPassRate rates <> None.
Proof.
  intros Hne Hnone. unfold Stats.medianPassRate, JS.index in Hnone.
  cbv zeta in Hnone.
  assert (Hlen : List.length (Stats.sortedRates rates) = List.length rates)
    by apply sort_length.
  rewrite Hlen in Hnone.
  assert (Hpos : (0 < List.length rates)%nat)
    by (destruct rates; [congruence | simpl; lia]).
  assert (Hhalf : 0 <= Z.of_nat (List.length rates) / 2
                  < Z.of_nat (List.length rates))
    by (split; [apply Z.div_pos | apply Z.div_lt]; lia).
  destruct (_ <? 0) eqn:E; [apply Z.ltb_lt in E; lia|].
  apply nth_error_None in Hnone. lia.
Qed.

(** C10: a record without [pass_rate] is read as one whose pass rate is 0
    by every operation: the window's pass rates (from which the average, the
    median, the maximum, the minimum and the deviation are computed), the
    choice of the maximum and minimum records, the single-report delta and
    both rendered prompts are those of the same records with 0 written in;
    the median of a non-empty window is defined; and a whole run gives the
    same events and the same outcome as on the records with 0 written in. *)
Theorem absent_pass_rate_counts_as_zero
    (w : World) (argv : list string)
    (reports : list Metadata) (metadata : Metadata)
    (previous : option Metadata)
    (template project ts : string) (periodDays : Z) (median : Q) :
  (forall r, pass_rate r = None ->
             passRateOf r = 0%Q /\ pass_rate (withPassRate0 r) = Some 0%Q) /\
  Stats.passRates (map withPassRate0 reports) = Stats.passRates reports /\
  (forall m, Stats.findByRate (map withPassRate0 reports) m
             = option_map withPassRate0 (Stats.findByRate reports m)) /\
  Single.passRateChange (withPassRate0 metadata)
    (option_map withPassRate0 previous)
    = Single.passRateChange metadata previous /\
  Prompt.singleUserPrompt template project ts (withPassRate0 metadata)
    (Single.previousPassRate (option_map withPassRate0 previous))
    (Single.passRateChange (withPassRate0 metadata)
       (option_map withPassRate0 previous))
    = Prompt.singleUserPrompt template project ts metadata
        (Single.previousPassRate previous)
        (Single.passRateChange metadata previous) /\
  Prompt.trendUserPrompt template project periodDays
    (map withPassRate0 reports) median
    = Prompt.trendUserPrompt template project periodDays reports median /\
  Stats.medianPassRate (Stats.passRates (metadata :: reports)) <> None /\
  script (withPassRate0World w) argv = script w argv /\
  script (Sample.world [Sample.entryOf Sample.day2; Sample.entryOf Sample.noRate]
            (Some "secret"))
         Sample.trendArgs
    = ([Mkdir "analysis/demo";
        HttpsRequest "Review this trend." "demo, 2 runs in 7 days: avg 45.0%";
        WriteFile "analysis/demo/trend-analysis.md"], Done tt).
Proof.
  split; [|split; [|split; [|split; [|split; [|split; [|split; [|split]]]]]]].
  - intros r Hr. unfold passRateOf, withPassRate0. rewrite Hr. split; reflexivity.
  - apply passRates_withPassRate0.
  - apply findByRate_withPassRate0.
  - apply passRateChange_withPassRate0.
  - unfold Prompt.singleUserPrompt.
    rewrite singleSteps_withPassRate0, previousPassRate_withPassRate0,
      passRateChange_withPassRate0.
    reflexivity.
  - unfold Prompt.trendUserPrompt. rewrite trendSteps_withPassRate0. reflexivity.
  - apply median_defined. discriminate.
  - apply script_withPassRate0.
  - vm_compute. reflexivity.
Qed.

(* ================================================================== *)
(** ** Order of the report lists *)

Section SortOrder.

Context {A : Type} (comparefn : A -> A -> Q).

Hypothesis asymmetric :
  forall x y, JS.Qltb (comparefn x y) 0 = true ->
              JS.Qltb (comparefn y x) 0 = false.

Lemma insert_inOrder (x : A) (l : list A) :
  Sorted (inOrder comparefn) l ->
  Sorted (inOrder comparefn) (JS.insert comparefn x l).
Proof.
  induction l as [|y l IH]; intro Hs; simpl.
  - repeat constructor.
  - destruct (JS.Qltb (comparefn x y) 0) eqn:E.
    + constructor; [exact Hs|]. constructor. apply asymmetric, E.
    + inversion Hs as [|? ? Hs' Hhd]; subst.
      constructor; [apply IH, Hs'|].
      destruct l as [|z l]; simpl.
      * constructor. exact E.
      * destruct (JS.Qltb (comparefn x z) 0); constructor; [exact E|].
        inversion Hhd; assumption.
Qed.

Lemma sort_inOrder (l : list A) :
  Sorted (inOrder comparefn) (JS.sort comparefn l).
Proof.
  unfold JS.sort.
  assert (H : forall acc, Sorted (inOrder comparefn) acc ->
              Sorted (inOrder comparefn)
                (fold_left (fun a x => JS.insert comparefn x a) l acc)).
  { induction l as [|x l IH]; intros acc Hs; simpl;
      [exact Hs | apply IH, insert_inOrder, Hs]. }
  apply H. constructor.
Qed.

End SortOrder.

Lemma Sorted_weaken {A} (R R' : A -> A -> Prop) (l : list A) :
  (forall a b, R a b -> R' a b) -> Sorted R l -> Sorted R' l.
Proof.
  intros Himp Hs. induction Hs as [|a l Hs IH Hhd]; constructor; [exact IH|].
  destruct Hhd; constructor. apply Himp. assumption.
Qed.

Lemma Sorted_snoc {A} (R : A -> A -> Prop) (l : list A) (x : A) :
  Sorted R l ->
  (forall l0 y, l = (l0 ++ [y])%list -> R y x) ->
  Sorted R (l ++ [x])%list.
Proof.
  intros Hs. induction Hs as [|a l Hs IH Hhd]; intro Hlast; simpl.
  - repeat constructor.
  - constructor.
    + apply IH. intros l0 y Hl. apply (Hlast (a :: l0) y). rewrite Hl. reflexivity.
    + destruct l as [|b l]; simpl.
      * constructor. apply (Hlast [] a). reflexivity.
      * constructor. inversion Hhd; assumption.
Qed.

Lemma Sorted_rev {A} (R : A -> A -> Prop) (l : list A) :
  Sorted R l -> Sorted (fun a b => R b a) (rev l).
Proof.
  intro Hs. induction Hs as [|a l Hs IH Hhd]; simpl; [constructor|].
  apply Sorted_snoc; [exact IH|].
  intros l0 y Hrev.
  assert (Hl : l = y :: rev l0).
  { rewrite <- (rev_involutive l), Hrev, rev_app_distr. reflexivity. }
  rewrite Hl in Hhd. inversion Hhd; assumption.
Qed.

Lemma compareStrings_asymmetric (x y : string) :
  JS.Qltb (JS.compareStrings x y) 0 = true ->
  JS.Qltb (JS.compareStrings y x) 0 = false.
Proof.
  unfold JS.compareStrings. rewrite (String.compare_antisym x y).
  destruct (String.compare y x); simpl; intro H;
    vm_compute in H |- *; congruence.
Qed.

Lemma inOrder_compareStrings (a b : string) :
  inOrder JS.compareStrings a b -> notAfter a b.
Proof.
  unfold inOrder, notAfter, JS.compareStrings.
  rewrite (String.compare_antisym b a).
  destruct (String.compare a b); simpl; intro H;
    vm_compute in H; congruence.
Qed.

(** X1: in trend mode, when the timestamp of every record has the form
    [YYYYMMDD-HHMMSS], the records are listed oldest first: no record's
    timestamp sorts after that of the record which follows it. *)
Theorem trend_reports_are_oldest_first (entries : list (string * Entry)) :
  (forall m, In m (Trend.allReports entries) ->
             wellFormedTimestamp (timestamp m) = true) ->
  Sorted (fun a b => notAfter (timestamp a) (timestamp b))
    (Trend.allReports entries).
Proof.
  intros _.
  unfold Trend.allReports.
  eapply Sorted_weaken; [|apply sort_inOrder].
  - intros a b H. apply inOrder_compareStrings. exact H.
  - intros x y. apply compareStrings_asymmetric.
Qed.

Lemma trend_reports_are_oldest_first_witness :
  Sorted (fun a b => notAfter (timestamp a) (timestamp b))
    (Trend.allReports Sample.threeReports).
Proof.
  apply (trend_reports_are_oldest_first Sample.threeReports).
  intros m H. vm_compute in H.
  destruct H as [<-|[<-|[<-|[]]]]; reflexivity.
Defined.

Lemma single_allReports_perm (entries : list (string * Entry)) :
  Permutation (Single.allReports entries) (directoryNames entries).
Proof.
  unfold Single.allReports.
  eapply perm_trans; [apply Permutation_sym, Permutation_rev | apply sort_perm].
Qed.

Lemma single_allReports_sorted (entries : list (string * Entry)) :
  Sorted (fun a b => notAfter b a) (Single.allReports entries).
Proof.
  unfold Single.allReports. apply Sorted_rev.
  eapply Sorted_weaken; [|apply sort_inOrder].
  - intros a b H. apply inOrder_compareStrings. exact H.
  - intros x y. apply compareStrings_asymmetric.
Qed.

(** X2: in single mode the directory names are listed newest first: no
    name sorts before the one which follows it; the list holds exactly the
    names of the entries that are directories. *)
Theorem single_reports_are_newest_first (entries : list (string * Entry)) :
  Sorted (fun a b => notAfter b a) (Single.allReports entries) /\
  Permutation (Single.allReports entries) (directoryNames entries) /\
  (forall name, In name (Single.allReports entries) <->
                exists e, In (name, e) entries /\ isDirectory e = true).
Proof.
  pose proof (single_allReports_perm entries) as Hperm.
  split; [apply single_allReports_sorted | split; [exact Hperm|]].
  intro name. split.
  - intro H. apply (Permutation_in _ Hperm) in H.
    unfold directoryNames in H. apply in_map_iff in H.
    destruct H as ([n e] & Hn & Hin). simpl in Hn. subst n.
    apply filter_In in Hin. destruct Hin as [Hin Hdir].
    exists e. split; assumption.
  - intros (e & Hin & Hdir).
    apply (Permutation_in _ (Permutation_sym Hperm)).
    unfold directoryNames. apply in_map_iff.
    exists (name, e). split; [reflexivity|].
    apply filter_In. split; assumption.
Qed.

(* ================================================================== *)
(** ** The previous report, by position *)

Lemma indexOfFrom_found (l : list string) (x : string) (k i : Z) :
  JS.indexOfFrom k x l = i -> 0 <= k ->
  i = -1 \/ (k <= i /\ nth_error l (Z.to_nat (i - k)) = Some x).
Proof.
  revert k; induction l as [|y l IH]; intros k H Hk; simpl in H.
  - left. lia.
  - destruct (String.eqb y x) eqn:E.
    + apply String.eqb_eq in E. subst. right.
      split; [lia|]. replace (i - i) with 0 by lia. reflexivity.
    + destruct (IH (k + 1) H ltac:(lia)) as [Hn|[Hle Hnth]]; [left; exact Hn|].
      right. split; [lia|].
      replace (Z.to_nat (i - k)) with (S (Z.to_nat (i - (k + 1)))) by lia.
      exact Hnth.
Qed.

Lemma Sorted_adjacent {A} (R : A -> A -> Prop) (l : list A) (n : nat) (a b : A) :
  Sorted R l -> nth_error l n = Some a -> nth_error l (S n) = Some b -> R a b.
Proof.
  intro Hs. revert n. induction Hs as [|x l Hs IH Hhd]; intros n Ha Hb.
  - destruct n; discriminate.
  - destruct n as [|n]; simpl in Ha, Hb.
    + injection Ha as ->. destruct l as [|y l]; [discriminate|].
      simpl in Hb. injection Hb as ->. inversion Hhd; assumption.
    + exact (IH n Ha Hb).
Qed.

(** X3: which previous report single mode reads depends on the position
    [i] of the requested timestamp in the newest-first list of directory
    names.  At position 0 (and when the name is not listed) none is read.
    At a later position that is the last one, the run throws.  Otherwise the
    directory read is the one listed next: its name does not sort after the
    requested timestamp, and its [metadata.json] gives the previous record
    when it parses, none when it is missing, and an exception when it is
    corrupt. *)
Theorem previous_report_by_position
    (entries : list (string * Entry)) (ts : string) (i : Z) :
  JS.indexOf (Single.allReports entries) ts = i ->
  (i <= 0 -> Single.previousMetadata entries ts = ret None) /\
  (0 < i -> Z.of_nat (List.length (Single.allReports entries)) <= i + 1 ->
   Single.previousMetadata entries ts = throw) /\
  (forall previous,
     0 < i -> JS.index (Single.allReports entries) (i + 1) = Some previous ->
     notAfter previous ts /\
     In previous (directoryNames entries) /\
     Single.previousMetadata entries ts
       = match metadataFileOf entries previous with
         | None => ret None
         | Some Corrupt => throw
         | Some (Json m) => ret (Some m)
         end).
Proof.
  intro Hi. unfold Single.previousMetadata. cbv zeta. rewrite Hi.
  split; [|split].
  - intro Hle. destruct (0 <? i) eqn:E; [apply Z.ltb_lt in E; lia | reflexivity].
  - intros Hpos Hlast.
    destruct (0 <? i) eqn:E; [|apply Z.ltb_ge in E; lia].
    unfold JS.index.
    destruct (i + 1 <? 0) eqn:E'; [reflexivity|].
    destruct (nth_error _ _) eqn:En; [|reflexivity].
    assert (Hn : nth_error (Single.allReports entries) (Z.to_nat (i + 1)) <> None)
      by congruence.
    apply nth_error_Some in Hn. lia.
  - intros previous Hpos Hnext.
    destruct (0 <? i) eqn:E; [|apply Z.ltb_ge in E; lia].
    rewrite Hnext.
    split; [|split; [|reflexivity]].
    + unfold JS.indexOf in Hi.
      destruct (indexOfFrom_found _ _ _ _ Hi ltac:(lia)) as [Hn|[_ Hcur]]; [lia|].
      unfold JS.index in Hnext.
      destruct (i + 1 <? 0); [discriminate|].
      replace (Z.to_nat (i + 1)) with (S (Z.to_nat (i - 0))) in Hnext by lia.
      exact (Sorted_adjacent _ _ _ _ _
               (single_allReports_sorted entries) Hcur Hnext).
    + unfold JS.index in Hnext.
      destruct (i + 1 <? 0); [discriminate|].
      apply nth_error_In in Hnext.
      exact (Permutation_in _ (single_allReports_perm entries) Hnext).
Qed.

Lemma previous_report_by_position_witness :
  (1 <= 0 ->
   Single.previousMetadata Sample.threeReports "20240102-090000" = ret None) /\
  (0 < 1 ->
   Z.of_nat (List.length (Single.allReports Sample.threeReports)) <= 1 + 1 ->
   Single.previousMetadata Sample.threeReports "20240102-090000" = throw) /\
  (forall previous,
     0 < 1 ->
     JS.index (Single.allReports Sample.threeReports) (1 + 1) = Some previous ->
     notAfter previous "20240102-090000" /\
     In previous (directoryNames Sample.threeReports) /\
     Single.previousMetadata Sample.threeReports "20240102-090000"
       = match metadataFileOf Sample.threeReports previous with
         | None => ret None
         | Some Corrupt => throw
         | Some (Json m) => ret (Some m)
         end).
Proof.
  apply (previous_report_by_position Sample.threeReports "20240102-090000" 1).
  vm_compute. reflexivity.
Defined.

(* ================================================================== *)
(** ** The shape of every run *)

Lemma call_cases (w : World) (systemPrompt userPrompt : string) :
  (JS.truthy (ANTHROPIC_API_KEY w) = false /\
   callAnthropicAPI w systemPrompt userPrompt = ([], Thrown)) \/
  (JS.truthy (ANTHROPIC_API_KEY w) = true /\
   refuses w /\
   callAnthropicAPI w systemPrompt userPrompt
     = ([HttpsRequest systemPrompt userPrompt], Thrown)) \/
  (exists text,
     JS.truthy (ANTHROPIC_API_KEY w) = true /\
     endpoint w = Response 200 (Some text) /\
     callAnthropicAPI w systemPrompt userPrompt
       = ([HttpsRequest systemPrompt userPrompt], Done (Some text))) \/
  (JS.truthy (ANTHROPIC_API_KEY w) = true /\
   textless w /\
   callAnthropicAPI w systemPrompt userPrompt
     = ([HttpsRequest systemPrompt userPrompt], Done None)).
Proof.
  unfold callAnthropicAPI, refuses, textless.
  destruct (JS.truthy (ANTHROPIC_API_KEY w)); simpl; [|left; auto].
  right.
  destruct (endpoint w) as [|code [text|]|code] eqn:E.
  - left. repeat split; intros; discriminate.
  - destruct (code =? 200) eqn:Ec; simpl.
    + apply Z.eqb_eq in Ec. subst code. right. left. exists text. auto.
    + left. repeat split; try discriminate.
      intros t H. injection H as H _. subst code. discriminate.
  - left. split; [reflexivity|]. split; [split; intros; discriminate|].
    destruct (code =? 200); reflexivity.
  - destruct (code =? 200) eqn:Ec; simpl.
    + apply Z.eqb_eq in Ec. subst code. right. right. auto.
    + left. repeat split; try discriminate.
      intro H. injection H as H. subst code. discriminate.
Qed.

Lemma single_body (w : World) (cfg : PromptsConfig) (project : string)
    (timestamp : option string) :
  Body w project
    (fst (Single.analyzeSingleReport w cfg project timestamp))
    (snd (Single.analyzeSingleReport w cfg project timestamp)).
Proof.
  unfold Single.analyzeSingleReport.
  destruct timestamp as [ts|]; [|apply BodyQuiet; auto].
  destruct (JS.falsyS ts); [apply BodyQuiet; auto|]. cbv zeta.
  destruct (metadataFileOf _ ts) as [[|metadata]|];
    try (apply BodyQuiet; auto; fail).
  destruct (previousMetadata_quiet
              match lookup project (reports w) with
              | Some es => es
              | None => []
              end ts) as [Hev Hex].
  destruct (Single.previousMetadata _ ts) as [evs [previous| |code]];
    simpl in Hev; subst evs.
  - rewrite bind_done.
    destruct (call_cases w (system_prompt (single_report cfg))
                (Prompt.singleUserPrompt
                   (user_prompt_template (single_report cfg)) project ts
                   metadata (Single.previousPassRate previous)
                   (Single.passRateChange metadata previous)))
      as [[Hk Hc]|[(Hk & He & Hc)|[(text & Hk & He & Hc)|(Hk & He & Hc)]]];
      rewrite Hc; simpl.
    + apply BodyQuiet; auto.
    + apply BodyRefused; auto.
    + apply (BodySingle w project _ _ text); assumption.
    + apply BodySingleTextless; assumption.
  - apply BodyQuiet; auto.
  - exfalso. exact (Hex code eq_refl).
Qed.

Lemma trend_body (w : World) (cfg : PromptsConfig) (project : string)
    (period : option string) :
  Body w project
    (fst (Trend.analyzeTrend w cfg project period))
    (snd (Trend.analyzeTrend w cfg project period)).
Proof.
  unfold Trend.analyzeTrend. cbv zeta.
  destruct (lookup project (reports w)) as [entries|]; [|apply BodyQuiet; auto].
  destruct (_ =? 0)%nat; [apply BodyQuiet; auto|].
  destruct (_ =? 0)%nat; [apply BodyQuiet; auto|].
  destruct (Stats.medianPassRate _) as [median|]; [|apply BodyQuiet; auto].
  match goal with
  | |- context [callAnthropicAPI w ?s ?u] =>
      destruct (call_cases w s u)
        as [[Hk Hc]|[(Hk & He & Hc)|[(text & Hk & He & Hc)|(Hk & He & Hc)]]];
      rewrite Hc; simpl
  end.
  - apply BodyQuiet; auto.
  - apply BodyRefused; auto.
  - apply (BodyTrend w project _ _ text); assumption.
  - apply BodyTrendTextless; assumption.
Qed.

(** Every run is one of: an exit at start-up with nothing done; or, for the
    project named on the command line, the creation of its analysis
    directory when absent, followed by a body whose exception, if any, is
    turned into exit code 1. *)
Lemma script_shape (w : World) (argv : list string) :
  (events (script w argv) = [] /\ exitCode (script w argv) = 1) \/
  exists project mk body o,
    option_of (parseArgs argv []) "project" = Some project /\
    (mk = [] \/ mk = [Mkdir (pathJoin [ANALYSIS_DIR; project])]) /\
    Body w project body o /\
    script w argv
      = ((mk ++ body)%list, match o with Thrown => Exited 1 | _ => o end).
Proof.
  unfold script. cbv zeta.
  destruct (option_of (parseArgs argv []) "project") as [project|];
    [|left; auto].
  destruct (option_of (parseArgs argv []) "type") as [type|]; [|left; auto].
  destruct (JS.falsyS project || JS.falsyS type); [left; auto|].
  destruct (promptsFile w) as [cfg|]; [|left; auto].
  right.
  set (main := if String.eqb type "single"
               then Single.analyzeSingleReport w cfg project
                      (option_of (parseArgs argv []) "timestamp")
               else if String.eqb type "trend"
                    then Trend.analyzeTrend w cfg project
                           (option_of (parseArgs argv []) "period")
                    else exit 1).
  assert (Hbody : Body w project (fst main) (snd main)).
  { subst main.
    destruct (String.eqb type "single"); [apply single_body|].
    destruct (String.eqb type "trend"); [apply trend_body|].
    apply BodyQuiet; auto. }
  assert (Hcatch : catchExit1 main
                   = (fst main,
                      match snd main with Thrown => Exited 1 | o => o end)).
  { destruct main as [evs [a| |code]]; reflexivity. }
  rewrite Hcatch.
  destruct (existsb (String.eqb project) (analysisDirs w)).
  - exists project, [], (fst main), (snd main).
    repeat split; auto. unfold ret. rewrite bind_done. simpl.
    destruct (snd main); reflexivity.
  - exists project, [Mkdir (pathJoin [ANALYSIS_DIR; project])],
           (fst main), (snd main).
    repeat split; auto.
    unfold bind, emit. destruct (snd main); reflexivity.
Qed.



Lemma append_empty (s : string) : s ++ "" = s.
Proof. induction s as [|c s IH]; simpl; [|rewrite IH]; reflexivity. Qed.

Lemma noSlash_split (s : string) : noSlash s = true -> Path.split s = [s].
Proof.
  induction s as [|c s IH]; simpl; [reflexivity|].
  intro H. apply andb_true_iff in H. destruct H as [Hc Hs].
  apply negb_true_iff in Hc. rewrite Hc, (IH Hs). reflexivity.
Qed.

Lemma split_segment (a b : string) :
  noSlash a = true -> Path.split (a ++ String "/" b) = a :: Path.split b.
Proof.
  induction a as [|c a IH]; simpl; [reflexivity|].
  intro H. apply andb_true_iff in H. destruct H as [Hc Ha].
  apply negb_true_iff in Hc. rewrite Hc, (IH Ha). reflexivity.
Qed.

Lemma endsWithSlash_noSlash (s : string) :
  noSlash s = true -> Path.endsWithSlash s = false.
Proof.
  induction s as [|c s IH]; [reflexivity|].
  intro H. simpl in H. apply andb_true_iff in H. destruct H as [Hc Hs].
  apply negb_true_iff in Hc.
  destruct s as [|c' s]; [exact Hc | exact (IH Hs)].
Qed.

Lemma endsWithSlash_app (a b : string) :
  b <> "" -> Path.endsWithSlash (a ++ b) = Path.endsWithSlash b.
Proof.
  intro Hb. induction a as [|c a IH]; [reflexivity|].
  change (String c a ++ b) with (String c (a ++ b)).
  destruct (a ++ b) eqn:E.
  - destruct a; [simpl in E; congruence | discriminate].
  - rewrite <- IH. reflexivity.
Qed.

Lemma plainName_spec (s : string) :
  plainName s = true ->
  s <> "" /\ String.eqb s "" = false /\ String.eqb s "." = false /\
  String.eqb s ".." = false /\ noSlash s = true.
Proof.
  unfold plainName. intro H.
  repeat (apply andb_true_iff in H; destruct H as [H ?]).
  repeat match goal with
         | H : negb _ = true |- _ => apply negb_true_iff in H
         end.
  repeat split; auto.
  intro Hs. subst s. discriminate.
Qed.

(** [path.join] of [analysis], a plain project name and a plain file
    name. *)
Lemma pathJoin_project (project : string) :
  plainName project = true ->
  pathJoin [ANALYSIS_DIR; project] = "analysis/" ++ project.
Proof.
  intro Hp. destruct (plainName_spec _ Hp) as (Hne & He & Hd & Hdd & Hs).
  unfold pathJoin, Path.join, ANALYSIS_DIR. cbv zeta.
  cbn [filter String.eqb Ascii.eqb Bool.eqb negb]. rewrite He.
  cbn [negb JS.join].
  change (String.eqb ("analysis" ++ "/" ++ project) "") with false.
  cbv iota. unfold Path.normalize.
  change (String.eqb ("analysis" ++ "/" ++ project) "") with false.
  change (String.prefix "/" ("analysis" ++ "/" ++ project)) with false.
  cbv iota zeta. cbn [negb].
  rewrite (split_segment "analysis" project eq_refl
           : Path.split ("analysis" ++ "/" ++ project) = _),
    (noSlash_split _ Hs).
  rewrite (endsWithSlash_app "analysis/" project Hne
           : Path.endsWithSlash ("analysis" ++ "/" ++ project) = _).
  rewrite (endsWithSlash_noSlash _ Hs).
  cbn [Path.resolve String.eqb Ascii.eqb Bool.eqb orb].
  rewrite He, Hd, Hdd. cbn [orb Path.resolve rev app JS.join].
  change (String.eqb ("analysis" ++ "/" ++ project) "") with false.
  cbv iota. simpl. rewrite append_empty. reflexivity.
Qed.

Lemma pathJoin_three (project name : string) :
  plainName project = true -> plainName name = true ->
  pathJoin [ANALYSIS_DIR; project; name]
  = "analysis/" ++ project ++ "/" ++ name.
Proof.
  intros Hp Hn.
  destruct (plainName_spec _ Hp) as (Hne & He & Hd & Hdd & Hs).
  destruct (plainName_spec _ Hn) as (Hne' & He' & Hd' & Hdd' & Hs').
  unfold pathJoin, Path.join, ANALYSIS_DIR. cbv zeta.
  cbn [filter String.eqb Ascii.eqb Bool.eqb negb]. rewrite He, He'.
  cbn [negb JS.join].
  change (String.eqb ("analysis" ++ "/" ++ project ++ "/" ++ name) "")
    with false.
  cbv iota. unfold Path.normalize.
  change (String.eqb ("analysis" ++ "/" ++ project ++ "/" ++ name) "")
    with false.
  change (String.prefix "/" ("analysis" ++ "/" ++ project ++ "/" ++ name))
    with false.
  cbv iota zeta. cbn [negb].
  rewrite (split_segment "analysis" (project ++ "/" ++ name) eq_refl
           : Path.split ("analysis" ++ "/" ++ project ++ "/" ++ name) = _),
    (split_segment project name Hs : Path.split (project ++ "/" ++ name) = _),
    (noSlash_split _ Hs').
  rewrite (endsWithSlash_app "analysis/" (project ++ "/" ++ name)
           : _ -> Path.endsWithSlash
                    ("analysis" ++ "/" ++ project ++ "/" ++ name) = _)
    by (destruct project; discriminate).
  rewrite (endsWithSlash_app project ("/" ++ name)) by discriminate.
  rewrite (endsWithSlash_app "/" name Hne').
  rewrite (endsWithSlash_noSlash _ Hs').
  cbn [Path.resolve String.eqb Ascii.eqb Bool.eqb orb].
  rewrite He, Hd, Hdd. cbn [orb Path.resolve].
  rewrite He', Hd', Hdd'. cbn [orb Path.resolve rev app JS.join].
  change (String.eqb ("analysis" ++ "/" ++ project ++ "/" ++ name) "")
    with false.
  cbv iota. simpl. rewrite append_empty. reflexivity.
Qed.

Lemma pathJoin_file (project name : string) :
  plainName project = true -> plainName name = true ->
  pathJoin [projectAnalysisDir project; name]
  = "analysis/" ++ project ++ "/" ++ name.
Proof.
  intros Hp Hn.
  destruct (plainName_spec _ Hn) as (_ & He' & _).
  destruct (plainName_spec _ Hp) as (_ & He & _).
  rewrite <- (pathJoin_three project name Hp Hn).
  unfold projectAnalysisDir. rewrite (pathJoin_project project Hp).
  unfold pathJoin, Path.join, ANALYSIS_DIR. cbv zeta.
  cbn [filter]. rewrite He, He'.
  change (String.eqb ("analysis/" ++ project) "") with false.
  change (String.eqb "analysis" "") with false.
  cbn [negb JS.join]. reflexivity.
Qed.

(** X5: when the project named on the command line is a plain directory
    name (not empty, not [.] or [..], without a slash), whatever a run does
    to the file system it does inside [analysis/<project>]: the one
    directory it may create is [analysis/<project>], and every file it
    writes is [analysis/<project>/<name>] for a plain file name.  A project
    such as [../evil] leads elsewhere: [path.join] normalises its result,
    and the directory created is [evil]. *)
Theorem run_stays_in_analysis_dir (w : World) (argv : list string)
    (project : string) (e : Event) :
  option_of (parseArgs argv []) "project" = Some project ->
  plainName project = true ->
  (In e (events (script w argv)) -> staysInAnalysisDir project e) /\
  script Sample.keyed ["--project"; "../evil"; "--type"; "weekly"]
  = ([Mkdir "evil"], Exited 1).
Proof.
  intros Hopt Hplain. split; [|vm_compute; reflexivity].
  destruct (script_shape w argv)
    as [[Hev Hcode]|(project' & mk & body & o & Hproject & Hmk & Hbody & Hrun)].
  - rewrite Hev. intros [].
  - assert (project' = project) by congruence. subst project'.
    unfold events. rewrite Hrun. cbn [fst]. intro Hin.
    apply in_app_or in Hin. destruct Hin as [Hin|Hin].
    + destruct Hmk as [-> | ->]; [destruct Hin|].
      destruct Hin as [<-|[]]. simpl. apply pathJoin_project, Hplain.
    + inversion Hbody; subst; simpl in Hin;
        repeat (destruct Hin as [<-|Hin];
                [simpl; try exact I;
                 try (eexists; split;
                      [|apply (pathJoin_file project _ Hplain); reflexivity];
                      reflexivity)|]);
        destruct Hin.
Qed.

Lemma run_stays_in_analysis_dir_witness :
  (In (WriteFile "analysis/demo/insights.json")
      (events (script Sample.keyed Sample.singleArgs)) ->
   staysInAnalysisDir "demo" (WriteFile "analysis/demo/insights.json")) /\
  script Sample.keyed ["--project"; "../evil"; "--type"; "weekly"]
  = ([Mkdir "evil"], Exited 1).
Proof.
  apply (run_stays_in_analysis_dir Sample.keyed Sample.singleArgs "demo"
           (WriteFile "analysis/demo/insights.json")).
  - vm_compute. reflexivity.
  - vm_compute. reflexivity.
Defined.




(** X7: an invocation without a project or without a type (absent or empty),
    or one whose prompts file cannot be loaded, ends with exit code 1 before
    anything is done: not even the analysis directory is created. *)
Theorem bad_invocation_leaves_no_trace (w : World) (argv : list string) :
  JS.truthy (option_of (parseArgs argv []) "project") = false \/
  JS.truthy (option_of (parseArgs argv []) "type") = false \/
  promptsFile w = None ->
  events (script w argv) = [] /\ exitCode (script w argv) = 1.
Proof.
  intro H. unfold script. cbv zeta.
  destruct (option_of (parseArgs argv []) "project") as [project|]; [|auto].
  destruct (option_of (parseArgs argv []) "type") as [type|]; [|auto].
  simpl in H.
  destruct (JS.falsyS project); [auto|].
  destruct (JS.falsyS type); [auto|].
  simpl. destruct H as [H|[H|H]]; try discriminate.
  rewrite H. auto.
Qed.

Lemma bad_invocation_leaves_no_trace_witness :
  events (script Sample.keyed ["--project"; "demo"; "--type"]) = [] /\
  exitCode (script Sample.keyed ["--project"; "demo"; "--type"]) = 1.
Proof.
  apply (bad_invocation_leaves_no_trace Sample.keyed
           ["--project"; "demo"; "--type"]).
  right. left. reflexivity.
Defined.

(* ================================================================== *)
(** ** More on the trend window *)

Lemma passRates_nonempty (l : list Metadata) :
  l <> [] -> Stats.passRates l <> [].
Proof. destruct l; [congruence | discriminate]. Qed.

(** X9: a longer period never loses a record.  For a clock in the range of
    dates and periods [p <= p'] whose lengths in milliseconds are safe
    integers, with a cutoff for [p'] that is a date: whatever is in the
    window of [p] days is in the window of [p'] days, in the same order. *)
Theorem window_grows_with_period
    (now p p' : Z) (allReports : list Metadata) :
  Z.abs now <= JS.maxTime ->
  Z.abs (p * JS.msPerDay) <= JS.maxSafeInteger ->
  Z.abs (p' * JS.msPerDay) <= JS.maxSafeInteger ->
  Window.cutoffDate now p' <> None ->
  p <= p' ->
  (forall r, Window.inWindow now p r = true -> Window.inWindow now p' r = true) /\
  incl (Window.recentReports now p allReports)
       (Window.recentReports now p' allReports) /\
  Window.recentReports now p (Window.recentReports now p' allReports)
    = Window.recentReports now p allReports.
Proof.
  intros Hnow Hp Hp' Hvalid Hle.
  assert (Hmono : forall r, Window.inWindow now p r = true ->
                            Window.inWindow now p' r = true).
  { intros r. unfold Window.inWindow.
    rewrite (cutoffDate_exact now p Hnow Hp) in *.
    rewrite (cutoffDate_exact now p' Hnow Hp') in *.
    destruct (Window.reportDate (timestamp r)) as [t|]; [|discriminate].
    destruct (JS.timeClip (now - p * JS.msPerDay)) as [c|] eqn:Ec;
      [|discriminate].
    destruct (JS.timeClip (now - p' * JS.msPerDay)) as [c'|] eqn:Ec';
      [|contradiction].
    apply timeClip_Some in Ec, Ec'. destruct Ec as [-> _], Ec' as [-> _].
    unfold JS.msPerDay. rewrite !Z.leb_le. lia. }
  split; [exact Hmono|split].
  - intros r Hin. unfold Window.recentReports in *.
    apply filter_In in Hin. apply filter_In.
    destruct Hin as [Hin Hw]. split; [exact Hin | apply Hmono, Hw].
  - unfold Window.recentReports.
    induction allReports as [|r l IH]; simpl; [reflexivity|].
    destruct (Window.inWindow now p' r) eqn:E'; simpl.
    + destruct (Window.inWindow now p r); [f_equal|]; exact IH.
    + destruct (Window.inWindow now p r) eqn:E; [|exact IH].
      apply Hmono in E. congruence.
Qed.

Lemma window_grows_with_period_witness :
  (forall r, Window.inWindow Sample.noon8Jan 6 r = true ->
             Window.inWindow Sample.noon8Jan 7 r = true) /\
  incl (Window.recentReports Sample.noon8Jan 6 [Sample.day1; Sample.day2])
       (Window.recentReports Sample.noon8Jan 7 [Sample.day1; Sample.day2]) /\
  Window.recentReports Sample.noon8Jan 6
    (Window.recentReports Sample.noon8Jan 7 [Sample.day1; Sample.day2])
    = Window.recentReports Sample.noon8Jan 6 [Sample.day1; Sample.day2].
Proof.
  apply (window_grows_with_period Sample.noon8Jan 6 7 [Sample.day1; Sample.day2]).
  - unfold Sample.noon8Jan, JS.maxTime. lia.
  - unfold JS.msPerDay, JS.maxSafeInteger. lia.
  - unfold JS.msPerDay, JS.maxSafeInteger. lia.
  - vm_compute. discriminate.
  - lia.
Defined.

(* ================================================================== *)
(** ** Bounds on the statistics *)

Local Open Scope Q_scope.

Lemma max2_bounds (a b : Q) :
  a <= JS.max2 a b /\ b <= JS.max2 a b /\ (JS.max2 a b = a \/ JS.max2 a b = b).
Proof.
  unfold JS.max2. destruct (JS.Qltb a b) eqn:E.
  - apply Qltb_true in E. repeat split; auto using Qlt_le_weak, Qle_refl.
  - apply Qltb_false in E. repeat split; auto using Qle_refl.
Qed.

Lemma min2_bounds (a b : Q) :
  JS.min2 a b <= a /\ JS.min2 a b <= b /\ (JS.min2 a b = a \/ JS.min2 a b = b).
Proof.
  unfold JS.min2. destruct (JS.Qltb b a) eqn:E.
  - apply Qltb_true in E. repeat split; auto using Qlt_le_weak, Qle_refl.
  - apply Qltb_false in E. repeat split; auto using Qle_refl.
Qed.

Lemma fold_max2 (xs : list Q) (a : Q) :
  In (fold_left JS.max2 xs a) (a :: xs) /\
  forall y, In y (a :: xs) -> y <= fold_left JS.max2 xs a.
Proof.
  revert a; induction xs as [|x xs IH]; intro a; simpl.
  - split; [auto|]. intros y [<-|[]]. apply Qle_refl.
  - destruct (IH (JS.max2 a x)) as [Hin Hle].
    destruct (max2_bounds a x) as (Ha & Hx & Hc).
    split.
    + destruct Hin as [Hin|Hin]; [|auto].
      rewrite <- Hin. destruct Hc as [-> | ->]; auto.
    + intros y [<-|[<-|Hy]].
      * eapply Qle_trans; [exact Ha | apply Hle; left; reflexivity].
      * eapply Qle_trans; [exact Hx | apply Hle; left; reflexivity].
      * apply Hle. right. exact Hy.
Qed.

Lemma fold_min2 (xs : list Q) (a : Q) :
  In (fold_left JS.min2 xs a) (a :: xs) /\
  forall y, In y (a :: xs) -> fold_left JS.min2 xs a <= y.
Proof.
  revert a; induction xs as [|x xs IH]; intro a; simpl.
  - split; [auto|]. intros y [<-|[]]. apply Qle_refl.
  - destruct (IH (JS.min2 a x)) as [Hin Hle].
    destruct (min2_bounds a x) as (Ha & Hx & Hc).
    split.
    + destruct Hin as [Hin|Hin]; [|auto].
      rewrite <- Hin. destruct Hc as [-> | ->]; auto.
    + intros y [<-|[<-|Hy]].
      * eapply Qle_trans; [apply Hle; left; reflexivity | exact Ha].
      * eapply Qle_trans; [apply Hle; left; reflexivity | exact Hx].
      * apply Hle. right. exact Hy.
Qed.

Lemma extremes (rates : list Q) :
  rates <> [] ->
  exists lo hi,
    Stats.minPassRate rates = Some lo /\ Stats.maxPassRate rates = Some hi /\
    In lo rates /\ In hi rates /\
    forall x, In x rates -> lo <= x /\ x <= hi.
Proof.
  destruct rates as [|a xs]; [congruence|]. intros _.
  exists (fold_left JS.min2 xs a), (fold_left JS.max2 xs a).
  destruct (fold_min2 xs a) as [Hmin Hlo].
  destruct (fold_max2 xs a) as [Hmax Hhi].
  repeat split; auto.
Qed.

(** X11: over a non-empty window, the maximum and the minimum are pass
    rates of the window and bound all of them, and the median is one of the
    window's pass rates, hence between them as well. *)
Theorem statistics_lie_between_the_extremes (rates : list Q) :
  rates <> [] ->
  exists lo hi median,
    Stats.minPassRate rates = Some lo /\
    Stats.maxPassRate rates = Some hi /\
    Stats.medianPassRate rates = Some median /\
    In lo rates /\ In hi rates /\ In median rates /\
    (forall x, In x rates -> lo <= x /\ x <= hi) /\
    lo <= median /\ median <= hi.
Proof.
  intro Hne.
  destruct (extremes rates Hne) as (lo & hi & Hmin & Hmax & Hlo & Hhi & Hb).
  destruct (Stats.medianPassRate rates) as [median|] eqn:Emed;
    [|exfalso; exact (median_defined rates Hne Emed)].
  exists lo, hi, median.
  assert (Hmed : In median rates).
  { unfold Stats.medianPassRate, JS.index in Emed. cbv zeta in Emed.
    destruct (_ <? 0)%Z; [discriminate|].
    apply nth_error_In in Emed.
    exact (Permutation_in _ (sortedRates_perm rates) Emed). }
  refine (conj Hmin (conj Hmax (conj eq_refl (conj Hlo (conj Hhi
            (conj Hmed (conj Hb (Hb median Hmed)))))))).
Qed.

Lemma statistics_lie_between_the_extremes_witness :
  exists lo hi median,
    Stats.minPassRate [90; 85; 95] = Some lo /\
    Stats.maxPassRate [90; 85; 95] = Some hi /\
    Stats.medianPassRate [90; 85; 95] = Some median /\
    In lo [90; 85; 95] /\ In hi [90; 85; 95] /\ In median [90; 85; 95] /\
    (forall x, In x [90; 85; 95] -> lo <= x /\ x <= hi) /\
    lo <= median /\ median <= hi.
Proof.
  apply (statistics_lie_between_the_extremes [90; 85; 95]).
  discriminate.
Defined.

Lemma find_first {A} (p : A -> bool) (l : list A) (r : A) :
  find p l = Some r ->
  exists before after,
    l = (before ++ r :: after)%list /\ p r = true /\
    forall x, In x before -> p x = false.
Proof.
  induction l as [|y l IH]; simpl; [discriminate|].
  destruct (p y) eqn:E.
  - intro H. injection H as <-. exists [], l. repeat split; auto.
    intros x [].
  - intro H. destruct (IH H) as (before & after & Hl & Hr & Hb).
    exists (y :: before), after. subst l. repeat split; auto.
    intros x [<-|Hx]; auto.
Qed.

Lemma findByRate_first (l : list Metadata) (v : Q) :
  In v (Stats.passRates l) ->
  exists r before after,
    Stats.findByRate l (Some v) = Some r /\
    l = (before ++ r :: after)%list /\
    passRateOf r == v /\
    forall r', In r' before -> ~ passRateOf r' == v.
Proof.
  intro Hin. unfold Stats.passRates in Hin. apply in_map_iff in Hin.
  destruct Hin as (r0 & Hr0 & Hin0).
  unfold Stats.findByRate.
  destruct (find (fun r => Qeq_bool (passRateOf r) v) l) as [r|] eqn:E.
  - destruct (find_first _ _ _ E) as (before & after & Hl & Hr & Hb).
    exists r, before, after. repeat split; auto.
    + apply Qeq_bool_iff, Hr.
    + intros r' Hr'. apply Qeq_bool_neq, Hb, Hr'.
  - exfalso. pose proof (find_none _ _ E r0 Hin0) as H. simpl in H.
    rewrite Hr0, Qeq_bool_refl in H. discriminate.
Qed.

(** X12: over a non-empty window the records reported with the maximum and
    the minimum are found ([max_date] and [min_date] are never "N/A"), and
    each is the earliest record in the list to attain its extreme: every
    record before the maximum's has a strictly lower pass rate, every record
    before the minimum's a strictly higher one. *)
Theorem extreme_records_are_the_first_to_attain (recentReports : list Metadata) :
  recentReports <> [] ->
  exists hi maxReport before after,
    Stats.maxPassRate (Stats.passRates recentReports) = Some hi /\
    Stats.findByRate recentReports (Some hi) = Some maxReport /\
    recentReports = (before ++ maxReport :: after)%list /\
    passRateOf maxReport == hi /\
    (forall r, In r before -> passRateOf r < hi) /\
    exists lo minReport before' after',
      Stats.minPassRate (Stats.passRates recentReports) = Some lo /\
      Stats.findByRate recentReports (Some lo) = Some minReport /\
      recentReports = (before' ++ minReport :: after')%list /\
      passRateOf minReport == lo /\
      (forall r, In r before' -> lo < passRateOf r).
Proof.
  intro Hne.
  destruct (extremes _ (passRates_nonempty _ Hne))
    as (lo & hi & Hmin & Hmax & Hlo & Hhi & Hb).
  destruct (findByRate_first _ _ Hhi) as (rmax & b & a & Hf & Hl & Hr & Hbefore).
  destruct (findByRate_first _ _ Hlo) as (rmin & b' & a' & Hf' & Hl' & Hr' & Hbefore').
  assert (Hrate : forall r, In r recentReports ->
                            lo <= passRateOf r /\ passRateOf r <= hi).
  { intros r Hr0. apply Hb. unfold Stats.passRates. apply in_map. exact Hr0. }
  exists hi, rmax, b, a. repeat split; auto.
  - intros r Hr0.
    assert (Hin : In r recentReports)
      by (rewrite Hl; apply in_or_app; left; exact Hr0).
    destruct (proj1 (Qle_lteq _ _) (proj2 (Hrate r Hin))) as [H|H]; [exact H|].
    exfalso. exact (Hbefore r Hr0 H).
  - exists lo, rmin, b', a'. repeat split; auto.
    intros r Hr0.
    assert (Hin : In r recentReports)
      by (rewrite Hl'; apply in_or_app; left; exact Hr0).
    destruct (proj1 (Qle_lteq _ _) (proj1 (Hrate r Hin))) as [H|H]; [exact H|].
    exfalso. apply (Hbefore' r Hr0). symmetry. exact H.
Qed.

Lemma extreme_records_are_the_first_to_attain_witness :
  exists hi maxReport before after,
    Stats.maxPassRate (Stats.passRates [Sample.day1; Sample.day2; Sample.day3])
      = Some hi /\
    Stats.findByRate [Sample.day1; Sample.day2; Sample.day3] (Some hi)
      = Some maxReport /\
    [Sample.day1; Sample.day2; Sample.day3] = (before ++ maxReport :: after)%list /\
    passRateOf maxReport == hi /\
    (forall r, In r before -> passRateOf r < hi) /\
    exists lo minReport before' after',
      Stats.minPassRate (Stats.passRates [Sample.day1; Sample.day2; Sample.day3])
        = Some lo /\
      Stats.findByRate [Sample.day1; Sample.day2; Sample.day3] (Some lo)
        = Some minReport /\
      [Sample.day1; Sample.day2; Sample.day3]
        = (before' ++ minReport :: after')%list /\
      passRateOf minReport == lo /\
      (forall r, In r before' -> lo < passRateOf r).
Proof.
  apply (extreme_records_are_the_first_to_attain
           [Sample.day1; Sample.day2; Sample.day3]).
  discriminate.
Defined.

Local Close Scope Q_scope.

(* ================================================================== *)
(** ** Reading the period *)

Lemma readDigits_acc (d : Decimal.uint) (acc : positive) :
  JS.readDigits 10 (NilEmpty.string_of_uint d) true (Z.pos acc)
  = Some (Z.pos (Pos.of_uint_acc d acc)).
Proof.
  revert acc; induction d; intro acc; cbn [NilEmpty.string_of_uint Pos.of_uint_acc];
    [reflexivity|..];
    (unfold JS.readDigits; fold JS.readDigits;
     match goal with
     | |- context [JS.digitValue ?c] =>
         let v := eval vm_compute in (JS.digitValue c) in
         change (JS.digitValue c) with v
     end;
     cbv iota beta;
     match goal with
     | |- context [(?k <? 10)] =>
         change (k <? 10) with true
     end;
     cbv iota;
     match goal with
     | |- JS.readDigits 10 _ true ?z = Some (Z.pos (Pos.of_uint_acc _ ?p)) =>
         replace z with (Z.pos p) by lia
     end;
     apply IHd).
Qed.

Lemma readDigits_zero (d : Decimal.uint) :
  JS.readDigits 10 (NilEmpty.string_of_uint d) true 0
  = Some (Z.of_N (Pos.of_uint d)).
Proof.
  induction d; cbn [NilEmpty.string_of_uint Pos.of_uint];
    [reflexivity | exact IHd |..];
    exact (readDigits_acc d _).
Qed.

Lemma readUnsigned_uint (d : Decimal.uint) :
  d <> Decimal.Nil ->
  JS.readUnsigned (NilEmpty.string_of_uint d) = Some (Z.of_N (Pos.of_uint d)).
Proof.
  intro Hd. rewrite <- readDigits_zero.
  destruct d; [congruence|..]; try reflexivity.
  destruct d; reflexivity.
Qed.

Lemma parseInt_uint (d : Decimal.uint) :
  d <> Decimal.Nil ->
  JS.parseInt (Some (NilEmpty.string_of_uint d))
  = Some (JS.toDouble (Z.of_N (Pos.of_uint d))).
Proof.
  intro Hd.
  assert (H : JS.parseInt (Some (NilEmpty.string_of_uint d))
              = option_map JS.toDouble
                  (JS.readUnsigned (NilEmpty.string_of_uint d)))
    by (destruct d; [congruence|..]; reflexivity).
  rewrite H, (readUnsigned_uint d Hd). reflexivity.
Qed.

Lemma parseInt_stringOfZ (n : Z) :
  JS.parseInt (Some (JS.stringOfZ n)) = Some (JS.toDouble n).
Proof.
  unfold JS.stringOfZ. destruct n as [|p|p].
  - reflexivity.
  - cbn [Z.to_int NilEmpty.string_of_int].
    rewrite parseInt_uint by apply DecimalPos.Unsigned.to_uint_nonnil.
    rewrite DecimalPos.Unsigned.of_to. reflexivity.
  - cbn [Z.to_int NilEmpty.string_of_int].
    change (JS.parseInt (Some (String "-" (NilEmpty.string_of_uint (Pos.to_uint p)))))
      with (option_map JS.toDouble
              (option_map Z.opp
                 (JS.readUnsigned (NilEmpty.string_of_uint (Pos.to_uint p))))).
    rewrite readUnsigned_uint by apply DecimalPos.Unsigned.to_uint_nonnil.
    rewrite DecimalPos.Unsigned.of_to. reflexivity.
Qed.

(** X16: a period given as the decimal text of a safe integer [n] is read
    back as [n] days, unless [n] is 0: a period of 0, like an absent or a
    non-numeric one, gives the default of 30 days.  The number of days is
    never 0, and a negative [n] is taken as it is.  Beyond the safe
    integers the digits are read as the nearest double: 9007199254740993
    gives 9007199254740992. *)
Theorem period_is_read_back_or_defaults (n : Z) (period : option string) :
  Z.abs n <= JS.maxSafeInteger ->
  JS.parseInt (Some (JS.stringOfZ n)) = Some n /\
  Window.periodDays (Some (JS.stringOfZ n)) = (if n =? 0 then 30 else n) /\
  Window.periodDays None = 30 /\
  (JS.parseInt period = None -> Window.periodDays period = 30) /\
  Window.periodDays period <> 0 /\
  JS.parseInt (Some "9007199254740993") = Some 9007199254740992.
Proof.
  intro Hn.
  assert (Hexact : JS.toDouble n = n)
    by (apply toDouble_exact; unfold JS.maxSafeInteger in Hn; lia).
  assert (Hparse : JS.parseInt (Some (JS.stringOfZ n)) = Some n)
    by (rewrite parseInt_stringOfZ, Hexact; reflexivity).
  split; [exact Hparse|].
  split; [|split; [reflexivity|split; [|split]]].
  - unfold Window.periodDays. rewrite Hparse.
    unfold JS.or_default, JS.falsyZ. reflexivity.
  - intro H. unfold Window.periodDays. rewrite H. reflexivity.
  - unfold Window.periodDays, JS.or_default, JS.falsyZ.
    destruct (JS.parseInt period) as [z|]; [|discriminate].
    destruct (z =? 0) eqn:E; [discriminate|]. apply Z.eqb_neq, E.
  - vm_compute. reflexivity.
Qed.

Lemma period_is_read_back_or_defaults_witness :
  JS.parseInt (Some (JS.stringOfZ (-14))) = Some (-14) /\
  Window.periodDays (Some (JS.stringOfZ (-14)))
    = (if -14 =? 0 then 30 else -14) /\
  Window.periodDays None = 30 /\
  (JS.parseInt (Some "week") = None -> Window.periodDays (Some "week") = 30) /\
  Window.periodDays (Some "week") <> 0 /\
  JS.parseInt (Some "9007199254740993") = Some 9007199254740992.
Proof.
  apply (period_is_read_back_or_defaults (-14) (Some "week")).
  unfold JS.maxSafeInteger. lia.
Defined.

(* ================================================================== *)
(** ** Command-line options *)

Lemma parseArgs_pairs (n : nat) (args rest : list string)
    (options : list (string * option string)) :
  List.length args = (2 * n)%nat ->
  parseArgs (args ++ rest) options = parseArgs rest (parseArgs args options).
Proof.
  revert args options; induction n as [|n IH]; intros args options Hlen.
  - destruct args; [reflexivity | discriminate].
  - destruct args as [|key [|value args]]; simpl in Hlen; try lia.
    simpl. apply IH. lia.
Qed.

Lemma lookup_head {A} (key : string) (v : A) (l : list (string * A)) :
  lookup key ((key, v) :: l) = Some v.
Proof. simpl. rewrite String.eqb_refl. reflexivity. Qed.

Lemma lookup_other {A} (key k : string) (v : A) (l : list (string * A)) :
  k <> key -> lookup k ((key, v) :: l) = lookup k l.
Proof.
  intro H. simpl. destruct (String.eqb key k) eqn:E; [|reflexivity].
  apply String.eqb_eq in E. congruence.
Qed.

(** X17: after any number of complete [key value] pairs, one more pair
    whose key (without its leading dashes) is not [__proto__] sets its
    option to its value, overriding an earlier setting, and leaves every
    other option as it was; a final key without a value unsets its option.
    A value given for [__proto__] is not stored. *)
Theorem last_option_wins (n : nat) (args : list string) (key value : string) :
  List.length args = (2 * n)%nat ->
  JS.stripDashes key <> "__proto__" ->
  option_of (parseArgs (args ++ [key; value]) []) (JS.stripDashes key)
    = Some value /\
  option_of (parseArgs (args ++ [key]) []) (JS.stripDashes key) = None /\
  (forall other,
     other <> JS.stripDashes key ->
     option_of (parseArgs (args ++ [key; value]) []) other
       = option_of (parseArgs args []) other /\
     option_of (parseArgs (args ++ [key]) []) other
       = option_of (parseArgs args []) other) /\
  parseArgs (args ++ ["--__proto__"; value]) [] = parseArgs args [].
Proof.
  intros Hlen Hkey.
  rewrite !(parseArgs_pairs n args _ [] Hlen).
  assert (E : String.eqb (JS.stripDashes key) "__proto__" = false)
    by (apply String.eqb_neq, Hkey).
  unfold option_of. cbn [parseArgs]. unfold setOption. rewrite E.
  rewrite !lookup_head.
  split; [reflexivity | split; [reflexivity|split; [|reflexivity]]].
  intros other Hother. rewrite !lookup_other by exact Hother. auto.
Qed.

Lemma last_option_wins_witness :
  option_of (parseArgs (["--type"; "single"] ++ ["--type"; "trend"]) [])
    (JS.stripDashes "--type") = Some "trend" /\
  option_of (parseArgs (["--type"; "single"] ++ ["--type"]) [])
    (JS.stripDashes "--type") = None /\
  (forall other,
     other <> JS.stripDashes "--type" ->
     option_of (parseArgs (["--type"; "single"] ++ ["--type"; "trend"]) []) other
       = option_of (parseArgs ["--type"; "single"] []) other /\
     option_of (parseArgs (["--type"; "single"] ++ ["--type"]) []) other
       = option_of (parseArgs ["--type"; "single"] []) other) /\
  parseArgs (["--type"; "single"] ++ ["--__proto__"; "trend"]) []
    = parseArgs ["--type"; "single"] [].
Proof.
  apply (last_option_wins 1 ["--type"; "single"] "--type" "trend").
  - reflexivity.
  - vm_compute. discriminate.
Defined.

(* ================================================================== *)
(** ** Templates without placeholders *)

Lemma dropPrefix_noBrace (search s : string) :
  startsWithBrace search = true -> noBrace s = true ->
  JS.dropPrefix search s = None.
Proof.
  destruct search as [|c search]; [discriminate|]. simpl. intro Hc.
  apply Ascii.eqb_eq in Hc. subst c.
  destruct s as [|b s]; [reflexivity|]. cbn [noBrace JS.dropPrefix]. intro H.
  apply andb_true_iff in H. destruct H as [Hb _].
  apply negb_true_iff in Hb.
  destruct (Ascii.eqb "{" b) eqn:E; [|reflexivity].
  apply Ascii.eqb_eq in E. subst b. rewrite Ascii.eqb_refl in Hb. discriminate.
Qed.

Lemma splitAtFirst_noBrace (search s : string) :
  startsWithBrace search = true -> noBrace s = true ->
  JS.splitAtFirst search s = None.
Proof.
  intro Hsearch. induction s as [|b s IH]; intro Hs;
    rewrite splitAtFirst_unfold, (dropPrefix_noBrace _ _ Hsearch Hs).
  - reflexivity.
  - simpl in Hs. apply andb_true_iff in Hs. destruct Hs as [_ Hs].
    rewrite (IH Hs). reflexivity.
Qed.

Lemma substitute_noBrace (template : string) (steps : list (string * string)) :
  Forall (fun step => startsWithBrace (fst step) = true) steps ->
  noBrace template = true ->
  Prompt.substitute template steps = template.
Proof.
  intros Hsteps Ht. unfold Prompt.substitute.
  induction Hsteps as [|step steps Hstep _ IH]; simpl; [reflexivity|].
  unfold JS.replace at 2.
  rewrite (splitAtFirst_noBrace _ _ Hstep Ht). exact IH.
Qed.

(** X18: a template in which no opening brace occurs is sent as it is, in
    both modes, whatever the project, the records and the statistics. *)
Theorem template_without_brace_is_unchanged
    (template project ts : string) (metadata : Metadata)
    (previousPassRate passRateChange median : Q) (periodDays : Z)
    (recentReports : list Metadata) :
  noBrace template = true ->
  Prompt.singleUserPrompt template project ts metadata
    previousPassRate passRateChange = template /\
  Prompt.trendUserPrompt template project periodDays recentReports median
    = template.
Proof.
  intro H. split.
  - apply substitute_noBrace; [|exact H].
    unfold Prompt.singleSteps. repeat constructor.
  - apply substitute_noBrace; [|exact H].
    unfold Prompt.trendSteps. cbv zeta. repeat constructor.
Qed.

Lemma template_without_brace_is_unchanged_witness :
  Prompt.singleUserPrompt "Summarise the run." "demo" "20240102-090000"
    Sample.day2 85%Q 5%Q = "Summarise the run." /\
  Prompt.trendUserPrompt "Summarise the run." "demo" 7 [Sample.day2] 90%Q
    = "Summarise the run.".
Proof.
  apply (template_without_brace_is_unchanged "Summarise the run." "demo"
           "20240102-090000" Sample.day2 85%Q 5%Q 90%Q 7 [Sample.day2]).
  reflexivity.
Defined.

(* ================================================================== *)
(** ** The summary line of the insights *)

(** X19: the [analysis_summary] is the analysis up to its first line feed:
    it has no line feed in it, the analysis is the summary followed either
    by nothing or by a line feed and the rest, and an analysis of one line
    is its own summary. *)
Theorem summary_is_the_first_line (analysis : string) :
  noNewline (analysis_summary analysis) = true /\
  (analysis = analysis_summary analysis \/
   exists rest, analysis = analysis_summary analysis ++ JS.nl ++ rest) /\
  (noNewline analysis = true -> analysis_summary analysis = analysis).
Proof.
  unfold analysis_summary.
  induction analysis as [|c s (IH1 & IH2 & IH3)]; simpl.
  - repeat split; auto.
  - destruct (Ascii.eqb c (ascii_of_nat 10)) eqn:E; simpl.
    + apply Ascii.eqb_eq in E. subst c.
      split; [reflexivity|]. split; [right; exists s; reflexivity|].
      intro H. discriminate.
    + rewrite E. simpl. split; [exact IH1|]. split.
      * destruct IH2 as [Heq|(rest & Heq)].
        -- left. f_equal. exact Heq.
        -- right. exists rest. f_equal. exact Heq.
      * intro H. f_equal. apply IH3, H.
Qed.
